(** * Hospital bed simulation: the discrete-event core of [hospital_simulation.py]
      and the closed-form calculator of [pages/1_Occupancy_and_LOS.py].

    Conventions of the embedding.
    - Python [float]s (simulated time, rates, lengths of stay) are exact
      rationals [Q]; they are compared with [==], [<], [<=] of [QArith].
      What is proved on them are counts and orders, which no rounding
      changes.  Where the value of a sum, a product or a quotient decides,
      module [Binary64] at the end takes the same code with the arithmetic
      of IEEE 754.
    - Python [int]s that can go up and down are [Z]; counters that only
      count up from zero ([patient_id], simpy's event id) are [nat].
    - [numpy.random] is one global stream.  The [n]-th value taken from it is
      [random_sample g n] when it is read as a uniform variate and
      [standard_exponential g n] when it is read as a standard exponential
      variate; the simulation state carries the position [draws] in the stream.
    - simpy's coroutines are defunctionalised: every event of the
      environment's heap carries the continuation that simpy would resume,
      together with the local variables of the suspended generator. *)

From Stdlib Require Import String.
From Stdlib Require Import QArith ZArith List Lia Lqa Bool Arith Qround Qabs
  Permutation Sorted SpecFloat.
Import ListNotations.

Set Implicit Arguments.
Close Scope Q_scope.

(* ------------------------------------------------------------------ *)
(** ** Comparisons on floats *)

Definition Qltb (x y : Q) : bool := negb (Qle_bool y x).

(* ------------------------------------------------------------------ *)
(** ** Parameters read from the sidebar *)

Inductive ptype := Medical | Surgical.

Definition patient_types : list ptype := [Medical; Surgical].

Inductive nmcr_reason := Internal | External.

Record config := {
  SIMULATION_TIME : Z;
  NUM_BEDS : Z;
  ARRIVAL_RATES : ptype -> Q;
  MEAN_LOS : ptype -> Q;
  COMPLEXITY_FACTORS : ptype -> Q;
  ENABLE_BED_BOARDING : bool;
  EXTRA_BED_RATIO : Z;
  NMCR_PROPORTION : Z;
  NMCR_INTERNAL_PROPORTION : Z;
  NMCR_INTERNAL_DELAY : Q;
  NMCR_EXTERNAL_DELAY : Q
}.

(** The bounds the input widgets enforce ([min_value], [max_value]). *)
Record widget_bounds (c : config) : Prop := {
  wb_time : (1 <= SIMULATION_TIME c)%Z;
  wb_beds : (1 <= NUM_BEDS c)%Z;
  wb_rate : forall p, (0 <= ARRIVAL_RATES c p)%Q;
  wb_los : forall p, (1 # 10 <= MEAN_LOS c p)%Q;
  wb_cplx : forall p, (1 # 2 <= COMPLEXITY_FACTORS c p <= 2)%Q;
  wb_ratio : (1 <= EXTRA_BED_RATIO c)%Z;
  wb_nmcr : (0 <= NMCR_PROPORTION c <= 100)%Z;
  wb_internal : (0 <= NMCR_INTERNAL_PROPORTION c <= 100)%Z;
  wb_idelay : (1 # 10 <= NMCR_INTERNAL_DELAY c)%Q;
  wb_edelay : (1 # 10 <= NMCR_EXTERNAL_DELAY c)%Q
}.

(** [sum(ARRIVAL_RATES.values())] *)
Definition sum_rates (rates : ptype -> Q) : Q :=
  fold_left Qplus (map rates patient_types) 0%Q.

(* ------------------------------------------------------------------ *)
(** ** The random variate source *)

Record generator := {
  random_sample : nat -> Q;
  standard_exponential : nat -> Q
}.

(** What numpy guarantees of its variates: uniforms lie in [0, 1) and
    exponentials are not negative. *)
Record variates_ok (g : generator) : Prop := {
  uniform_range : forall n, (0 <= random_sample g n < 1)%Q;
  exponential_nonneg : forall n, (0 <= standard_exponential g n)%Q
}.

(* ------------------------------------------------------------------ *)
(** ** Data of the simulation *)

(** The local variables of one [admit_patient] generator, as they stand
    when it suspends on its bed request. *)
Record patient := {
  patient_id : nat;
  p_type : ptype;
  length_of_stay : Q;
  arrival_time : Q;
  has_nmcr_delay : bool;
  reason : option nmcr_reason;
  total_length_of_stay : Q;
  priority : Z
}.

(** One dictionary of [hospital.patients]. *)
Record patient_record := {
  Patient_ID : nat;
  Type_ : ptype;
  Arrival_Time : Q;
  Length_of_Stay : Q;
  NMCR_Delay : Q;
  Total_LOS : Q;
  Discharge_Time : Q;
  NMCR_Reason : option nmcr_reason
}.

(** What simpy runs when an event is processed. *)
Inductive callback :=
| Initialize_monitor
| Monitor_timeout
| Initialize_generator
| Arrival_timeout (next_patient_id : nat)
| Initialize_patient (id : nat) (ty : ptype) (los : Q)
| Request_granted (p : patient)
| Stay_timeout (p : patient)
| Release_processed
| Process_ended
| Until.

(** An entry [(time, priority, eid, event)] of [Environment._queue]. *)
Record entry := {
  ev_time : Q;
  ev_prio : Z;
  ev_eid : nat;
  ev_call : callback
}.

Definition URGENT : Z := 0.
Definition NORMAL : Z := 1.

Record Environment := {
  now : Q;
  eid : nat;
  queue : list entry
}.

(** A [PriorityRequest]: its sort key is [(priority, time, not preempt)]
    with [preempt = True] throughout, and it belongs to one patient. *)
Record request := {
  req_priority : Z;
  req_time : Q;
  req_owner : patient
}.

Record PriorityResource := {
  users : list request;
  put_queue : list request
}.

Record Hospital := {
  occupied_beds : Z;
  occupancy : list Z;
  times : list Q;
  patients : list patient_record
}.

(** The whole mutable world of a run.  [admissions] is a history variable:
    it notes, for each patient, the time at which the line
    [self.occupied_beds += 1] ran for it.  No transition reads it. *)
Record state := {
  env : Environment;
  beds : PriorityResource;
  hospital : Hospital;
  draws : nat;
  admissions : list (patient * Q)
}.

Definition on_env (f : Environment -> Environment) (s : state) : state :=
  {| env := f (env s); beds := beds s; hospital := hospital s;
     draws := draws s; admissions := admissions s |}.

Definition on_beds (f : PriorityResource -> PriorityResource) (s : state) : state :=
  {| env := env s; beds := f (beds s); hospital := hospital s;
     draws := draws s; admissions := admissions s |}.

Definition on_hospital (f : Hospital -> Hospital) (s : state) : state :=
  {| env := env s; beds := beds s; hospital := f (hospital s);
     draws := draws s; admissions := admissions s |}.

Definition next_draw (s : state) : state :=
  {| env := env s; beds := beds s; hospital := hospital s;
     draws := S (draws s); admissions := admissions s |}.

Definition note_admission (p : patient) (t : Q) (s : state) : state :=
  {| env := env s; beds := beds s; hospital := hospital s;
     draws := draws s; admissions := admissions s ++ [(p, t)] |}.

(* ------------------------------------------------------------------ *)
(** ** simpy's environment *)

(** Order of the heap: [(time, priority, eid)], lexicographic. *)
Definition entry_ltb (a b : entry) : bool :=
  match (ev_time a ?= ev_time b)%Q with
  | Lt => true
  | Gt => false
  | Eq => match (ev_prio a ?= ev_prio b)%Z with
          | Lt => true
          | Gt => false
          | Eq => ev_eid a <? ev_eid b
          end
  end.

(** [heappush]: the heap is kept as the list of its entries in increasing
    order, so that [heappop] takes the head. *)
Fixpoint heappush (e : entry) (q : list entry) : list entry :=
  match q with
  | [] => [e]
  | x :: q' => if entry_ltb e x then e :: q else x :: heappush e q'
  end.

(** [Environment.schedule(event, priority, delay)] *)
Definition schedule (prio : Z) (delay : Q) (c : callback) (e : Environment) : Environment :=
  {| now := now e;
     eid := S (eid e);
     queue := heappush {| ev_time := now e + delay; ev_prio := prio;
                          ev_eid := eid e; ev_call := c |} (queue e) |}.

(** The process event triggered when a generator returns. *)
Definition process_exit (s : state) : state :=
  on_env (schedule NORMAL 0 Process_ended) s.

(* ------------------------------------------------------------------ *)
(** ** simpy's priority resource *)

Definition request_ltb (a b : request) : bool :=
  match (req_priority a ?= req_priority b)%Z with
  | Lt => true
  | Gt => false
  | Eq => Qltb (req_time a) (req_time b)
  end.

(** [list.sort(key=...)]: a stable sort, written as the insertion sort
    that puts each request in front of the first one whose key is not
    smaller. *)
Fixpoint insert_request (x : request) (l : list request) : list request :=
  match l with
  | [] => [x]
  | y :: l' => if request_ltb y x then y :: insert_request x l' else x :: l
  end.

Definition sort_requests (l : list request) : list request :=
  fold_right insert_request [] l.

(** [SortedQueue.append]: append, then sort by key. *)
Definition sorted_append (r : request) (q : list request) : list request :=
  sort_requests (q ++ [r]).

(** [list.remove]: drop the first occurrence; requests are compared by
    identity, and each patient owns exactly one. *)
Fixpoint remove_request (id : nat) (l : list request) : list request :=
  match l with
  | [] => []
  | x :: l' => if patient_id (req_owner x) =? id then l'
               else x :: remove_request id l'
  end.

Section Simulation.

Variable cfg : config.
Variable rng : generator.

(** [capacity = num_beds + (num_beds // EXTRA_BED_RATIO)] *)
Definition capacity : Z := (NUM_BEDS cfg + NUM_BEDS cfg / EXTRA_BED_RATIO cfg)%Z.

(** [BaseResource._trigger_put] over [Resource._do_put]: [_do_put] returns
    [None], so the loop looks at the head of the queue only. *)
Definition trigger_put (s : state) : state :=
  match put_queue (beds s) with
  | [] => s
  | r :: rest =>
      if (Z.of_nat (length (users (beds s))) <? capacity)%Z then
        let s := on_beds (fun b => {| users := users b ++ [r]; put_queue := rest |}) s in
        on_env (schedule NORMAL 0 (Request_granted (req_owner r))) s
      else s
  end.

(** [self.beds.request(priority=priority)] *)
Definition do_request (p : patient) (s : state) : state :=
  let r := {| req_priority := priority p; req_time := now (env s); req_owner := p |} in
  let s := on_beds (fun b => {| users := users b;
                                put_queue := sorted_append r (put_queue b) |}) s in
  trigger_put s.

(** [self.beds.release(request)], called when the [with] block is left:
    [_do_get] removes the user at once and the release event succeeds. *)
Definition do_release (p : patient) (s : state) : state :=
  let s := on_beds (fun b => {| users := remove_request (patient_id p) (users b);
                                put_queue := put_queue b |}) s in
  on_env (schedule NORMAL 0 Release_processed) s.

(* ------------------------------------------------------------------ *)
(** ** numpy.random *)

Definition rand (s : state) : Q * state :=
  (random_sample rng (draws s), next_draw s).

Definition exponential (scale : Q) (s : state) : Q * state :=
  ((scale * standard_exponential rng (draws s))%Q, next_draw s).

(** [np.random.choice(patient_types, p=[ARRIVAL_RATES[p] / total_rate ...])]:
    one uniform variate against the normalised cumulative sums. *)
Definition choice (total_rate : Q) (s : state) : ptype * state :=
  let p_m := (ARRIVAL_RATES cfg Medical / total_rate)%Q in
  let p_s := (ARRIVAL_RATES cfg Surgical / total_rate)%Q in
  let cdf_m := (p_m / (p_m + p_s))%Q in
  let u := random_sample rng (draws s) in
  ((if Qle_bool cdf_m u then Surgical else Medical), next_draw s).

(* ------------------------------------------------------------------ *)
(** ** Hospital *)

Definition record_occupancy (t : Q) (h : Hospital) : Hospital :=
  {| occupied_beds := occupied_beds h;
     occupancy := occupancy h ++ [occupied_beds h];
     times := times h ++ [t];
     patients := patients h |}.

Definition add_occupied (d : Z) (h : Hospital) : Hospital :=
  {| occupied_beds := (occupied_beds h + d)%Z;
     occupancy := occupancy h;
     times := times h;
     patients := patients h |}.

Definition append_patient (r : patient_record) (h : Hospital) : Hospital :=
  {| occupied_beds := occupied_beds h;
     occupancy := occupancy h;
     times := times h;
     patients := patients h ++ [r] |}.

(** One turn of [monitor_occupancy]. *)
Definition monitor_occupancy (s : state) : state :=
  let s := on_hospital (record_occupancy (now (env s))) s in
  on_env (schedule NORMAL 1 Monitor_timeout) s.

(** The priority computed at lines 109-116. *)
Definition priority_of (occupied : Z) : Z :=
  if (occupied <? NUM_BEDS cfg)%Z then 0%Z
  else if ENABLE_BED_BOARDING cfg
          && (occupied <? NUM_BEDS cfg + NUM_BEDS cfg / EXTRA_BED_RATIO cfg)%Z
       then 1%Z
       else 2%Z.

(** The NMCR outcome of lines 95-107: the flag, the reason and the total
    length of stay, with the state after the draws. *)
Definition nmcr_outcome (los : Q) (s : state)
  : bool * option nmcr_reason * Q * state :=
  let (u, s) := rand s in
  if Qltb u (inject_Z (NMCR_PROPORTION cfg) / 100)%Q then
    let (u', s) := rand s in
    let why := if Qltb u' (inject_Z (NMCR_INTERNAL_PROPORTION cfg) / 100)%Q
               then Internal else External in
    let (additional_delay, s) :=
      match why with
      | Internal => exponential (NMCR_INTERNAL_DELAY cfg) s
      | External => exponential (NMCR_EXTERNAL_DELAY cfg) s
      end in
    (true, Some why, (los + additional_delay)%Q, s)
  else (false, None, los, s).

(** [admit_patient] from its first line to [yield request]. *)
Definition admit_patient_start (id : nat) (ty : ptype) (los : Q) (s : state) : state :=
  let arrival := now (env s) in
  let '(has, why, total, s) := nmcr_outcome los s in
  let p := {| patient_id := id; p_type := ty; length_of_stay := los;
              arrival_time := arrival; has_nmcr_delay := has; reason := why;
              total_length_of_stay := total;
              priority := priority_of (occupied_beds (hospital s)) |} in
  do_request p s.

(** [admit_patient] from the grant of the request to
    [yield self.env.timeout(total_length_of_stay)]. *)
Definition admit_patient_granted (p : patient) (s : state) : state :=
  let s := on_hospital (add_occupied 1) s in
  let s := note_admission p (now (env s)) s in
  let s := on_hospital (record_occupancy (now (env s))) s in
  on_env (schedule NORMAL (total_length_of_stay p) (Stay_timeout p)) s.

Definition discharge_record (p : patient) (discharge_time : Q) : patient_record :=
  {| Patient_ID := patient_id p;
     Type_ := p_type p;
     Arrival_Time := arrival_time p;
     Length_of_Stay := length_of_stay p;
     NMCR_Delay := if has_nmcr_delay p
                   then (total_length_of_stay p - length_of_stay p)%Q else 0%Q;
     Total_LOS := total_length_of_stay p;
     Discharge_Time := discharge_time;
     NMCR_Reason := if has_nmcr_delay p then reason p else None |}.

(** [admit_patient] from the end of the stay to its return. *)
Definition admit_patient_leave (p : patient) (s : state) : state :=
  let s := on_hospital (add_occupied (-1)) s in
  let s := on_hospital (record_occupancy (now (env s))) s in
  let s := do_release p s in
  let s := on_hospital (append_patient (discharge_record p (now (env s)))) s in
  process_exit s.

(** [patient_generator] from the loop test to [yield env.timeout(...)]. *)
Definition patient_generator_loop (next_id : nat) (s : state) : state :=
  if Qltb (now (env s)) (inject_Z (SIMULATION_TIME cfg)) then
    let total_rate := sum_rates (ARRIVAL_RATES cfg) in
    if Qeq_bool total_rate 0 then process_exit s
    else
      let (inter_arrival_time, s) := exponential (1 / total_rate)%Q s in
      on_env (schedule NORMAL inter_arrival_time (Arrival_timeout next_id)) s
  else process_exit s.

(** [patient_generator] resumed by its timeout: the rest of the loop body,
    then the loop test again. *)
Definition patient_generator_resume (id : nat) (s : state) : state :=
  let total_rate := sum_rates (ARRIVAL_RATES cfg) in
  let (ty, s) := choice total_rate s in
  let (e, s) := exponential (MEAN_LOS cfg ty) s in
  let los := (e * COMPLEXITY_FACTORS cfg ty)%Q in
  let s := on_env (schedule URGENT 0 (Initialize_patient id ty los)) s in
  patient_generator_loop (S id) s.

(* ------------------------------------------------------------------ *)
(** ** The event loop *)

Definition run_callback (c : callback) (s : state) : state :=
  match c with
  | Initialize_monitor | Monitor_timeout => monitor_occupancy s
  | Initialize_generator => patient_generator_loop 0 s
  | Arrival_timeout id => patient_generator_resume id s
  | Initialize_patient id ty los => admit_patient_start id ty los s
  | Request_granted p => admit_patient_granted p s
  | Stay_timeout p => admit_patient_leave p s
  | Release_processed => trigger_put s
  | Process_ended => s
  | Until => s
  end.

Inductive outcome :=
| Running (s : state)
| StopSimulation (s : state)
| EmptySchedule.

(** [Environment.step] *)
Definition step (s : state) : outcome :=
  match queue (env s) with
  | [] => EmptySchedule
  | e :: q =>
      let s := on_env (fun v => {| now := ev_time e; eid := eid v; queue := q |}) s in
      match ev_call e with
      | Until => StopSimulation s
      | c => Running (run_callback c s)
      end
  end.

(** [Environment()], [Hospital(env, NUM_BEDS)],
    [env.process(patient_generator(env, hospital))] and the scheduling of
    the [until] event by [env.run]. *)
Definition initial_state : state :=
  let s := {| env := {| now := 0; eid := 0; queue := [] |};
              beds := {| users := []; put_queue := [] |};
              hospital := {| occupied_beds := 0; occupancy := []; times := [];
                             patients := [] |};
              draws := 0;
              admissions := [] |} in
  let s := on_env (schedule URGENT 0 Initialize_monitor) s in
  let s := on_env (schedule URGENT 0 Initialize_generator) s in
  on_env (fun v => schedule URGENT (inject_Z (SIMULATION_TIME cfg) - now v) Until v) s.

(** The state after [n] events, if the loop is still going. *)
Fixpoint after (n : nat) : option state :=
  match n with
  | O => Some initial_state
  | S n' => match after n' with
            | Some s => match step s with
                        | Running s' => Some s'
                        | _ => None
                        end
            | None => None
            end
  end.

(** [env.run(until=SIMULATION_TIME)]: the loop of [step], with a bound on
    the number of events. *)
Fixpoint run (fuel : nat) (s : state) : option state :=
  match fuel with
  | O => None
  | S fuel' => match step s with
               | Running s' => run fuel' s'
               | StopSimulation s' => Some s'
               | EmptySchedule => None
               end
  end.

(** [run_simulation()]: [hospital.times, hospital.occupancy,
    hospital.patients]. *)
Definition run_simulation (fuel : nat)
  : option (list Q * list Z * list patient_record) :=
  match run fuel initial_state with
  | Some s => Some (times (hospital s), occupancy (hospital s), patients (hospital s))
  | None => None
  end.

End Simulation.

(* ------------------------------------------------------------------ *)
(** ** The script around [run_simulation] *)

(** Line 175 of [hospital_simulation.py]: the script calls
    [run_simulation()] whatever the parameters are. *)
Definition hospital_simulation (cfg : config) (rng : generator) (fuel : nat)
  : option (list Q * list Z * list patient_record) :=
  run_simulation cfg rng fuel.

(* ------------------------------------------------------------------ *)
(** ** The page [pages/1_Occupancy_and_LOS.py] *)

Module Occupancy_and_LOS.

Record inputs := {
  NUM_BEDS : Z;
  ARRIVAL_RATES : ptype -> Q;
  target_occupancy_rate : Z;
  current_mean_los : ptype -> Q
}.

(** What the page gets to show. *)
Record results := {
  shown_ideal_average_los : Q;
  shown_discharges_per_week : Q;
  shown_weighted_average_los : Q;
  shown_adjusted_los : option (ptype -> Q)
}.

(** [st.stop()] after a warning, or the page rendered to its end. *)
Inductive outcome :=
| Stopped (warning : string)
| Rendered (r : results).

Section Page.

Variable i : inputs.

(** The loop of lines 29-32. *)
Definition total_arrival_rate : Q :=
  fold_left (fun acc p => acc + ARRIVAL_RATES i p)%Q patient_types 0%Q.

Definition occupancy_fraction : Q := (inject_Z (target_occupancy_rate i) / 100)%Q.

Definition ideal_average_los : Q :=
  ((occupancy_fraction * inject_Z (NUM_BEDS i)) / total_arrival_rate)%Q.

Definition discharges_per_week : Q := (total_arrival_rate * 7)%Q.

Definition total_arrivals : Q := sum_rates (ARRIVAL_RATES i).

(** [sum([ARRIVAL_RATES[p] * current_mean_los[p] for p in patient_types])] *)
Definition weighted_sum (los : ptype -> Q) : Q :=
  fold_left Qplus (map (fun p => ARRIVAL_RATES i p * los p)%Q patient_types) 0%Q.

Definition weighted_average_los : Q :=
  (weighted_sum (current_mean_los i) / total_arrivals)%Q.

Definition adjustment_factor : Q := (ideal_average_los / weighted_average_los)%Q.

Definition adjusted_los (p : ptype) : Q :=
  (current_mean_los i p * adjustment_factor)%Q.

Definition page : outcome :=
  if Qeq_bool total_arrival_rate 0 then
    Stopped "Total arrival rate must be greater than 0."%string
  else
    Rendered
      {| shown_ideal_average_los := ideal_average_los;
         shown_discharges_per_week := discharges_per_week;
         shown_weighted_average_los := weighted_average_los;
         shown_adjusted_los :=
           if Qltb (1 # 100) (Qabs (weighted_average_los - ideal_average_los))
           then Some adjusted_los else None |}.

End Page.

End Occupancy_and_LOS.

(* ------------------------------------------------------------------ *)
(** ** The report of [hospital_simulation.py] *)

(** Lines 191-194.  [np.max] raises [ValueError] on an empty sequence
    ([np.mean], before it, only warns).  The mean is the exact quotient. *)
Inductive statistics_outcome :=
| Statistics_raised
| Statistics (average_occupancy : Q) (max_occupancy : Z) (overflow_events : nat).

Definition np_mean (l : list Z) : Q :=
  (inject_Z (fold_left Z.add l 0%Z) / inject_Z (Z.of_nat (length l)))%Q.

Definition np_max (x : Z) (l : list Z) : Z := fold_left Z.max l x.

(** [sum(np.array(occupancy) > NUM_BEDS)] *)
Definition overflow_count (num_beds : Z) (l : list Z) : nat :=
  length (filter (fun c => (num_beds <? c)%Z) l).

Definition statistics (num_beds : Z) (occupancy : list Z) : statistics_outcome :=
  match occupancy with
  | [] => Statistics_raised
  | x :: l => Statistics (np_mean occupancy) (np_max x l)
                         (overflow_count num_beds occupancy)
  end.

(** Lines 206-221.  With an empty log the data frame has no column and
    [patients_df['NMCR Delay']] raises; the division by [total_patients] of
    line 214 would raise as well. *)
Inductive analysis_outcome :=
| Analysis_raised
| Analysis (total_patients nmcr_count : nat) (nmcr_percent : Q)
           (average_nmcr_delay : option Q) (internal external : nat).

(** [patients_df[patients_df['NMCR Delay'] > 0]] *)
Definition nmcr_patients (log : list patient_record) : list patient_record :=
  filter (fun r => Qltb 0 (NMCR_Delay r)) log.

Definition with_reason (why : nmcr_reason) (l : list patient_record)
  : list patient_record :=
  filter (fun r => match NMCR_Reason r, why with
                   | Some Internal, Internal | Some External, External => true
                   | _, _ => false
                   end) l.

(** [Series.mean()]: [nan], here [None], on an empty selection. *)
Definition series_mean (l : list Q) : option Q :=
  match l with
  | [] => None
  | _ => Some (fold_left Qplus l 0 / inject_Z (Z.of_nat (length l)))%Q
  end.

Definition nmcr_analysis (log : list patient_record) : analysis_outcome :=
  match log with
  | [] => Analysis_raised
  | _ =>
      let delayed := nmcr_patients log in
      Analysis (length log) (length delayed)
               (inject_Z (Z.of_nat (length delayed))
                / inject_Z (Z.of_nat (length log)) * 100)%Q
               (series_mean (map NMCR_Delay delayed))
               (length (with_reason Internal delayed))
               (length (with_reason External delayed))
  end.

(** The script from line 175 on: the run, then the statistics, then the
    NMCR analysis; an exception ends it. *)
Inductive report :=
| Report_raised
| Report (average_occupancy : Q) (max_occupancy : Z) (overflow_events : nat)
         (total_patients nmcr_count : nat) (nmcr_percent : Q)
         (average_nmcr_delay : option Q) (internal external : nat).

Definition hospital_simulation_report (cfg : config) (rng : generator) (fuel : nat)
  : option report :=
  match hospital_simulation cfg rng fuel with
  | None => None
  | Some (times, occupancy, patient_data) =>
      (* pd.DataFrame({'Time': times, 'Occupancy': occupancy}) wants columns
         of one length *)
      if negb (length times =? length occupancy) then Some Report_raised else
      match statistics (NUM_BEDS cfg) occupancy with
      | Statistics_raised => Some Report_raised
      | Statistics avg mx ov =>
          match nmcr_analysis patient_data with
          | Analysis_raised => Some Report_raised
          | Analysis n k pc mean i e => Some (Report avg mx ov n k pc mean i e)
          end
      end
  end.

(* ------------------------------------------------------------------ *)
(** * The same code in binary64

    Python computes in binary64.  Here the code is taken once more with
    the operations of IEEE 754 as [SpecFloat] specifies them, rounding to
    nearest, ties to even.  An [int] that meets a [float] is converted
    first, as Python does; the conversion is exact below 2^53.  The times
    that Python keeps as [int]s (the clock at 0, the ticks of the recorder)
    are the floats of the same value, and their sums are exact below 2^53
    as well.  The heap, the resource and the coroutines are modelled as
    above. *)

Module Binary64.

Definition float : Set := spec_float.

Definition prec : Z := 53.
Definition emax : Z := 1024.

Definition add : float -> float -> float := SFadd prec emax.
Definition sub : float -> float -> float := SFsub prec emax.
Definition mul : float -> float -> float := SFmul prec emax.
Definition div : float -> float -> float := SFdiv prec emax.
Definition abs : float -> float := SFabs.

(** [x < y], [x <= y] and [x == y]: all three are [False] when one side
    is a NaN. *)
Definition ltb (x y : float) : bool := SFltb x y.
Definition leb (x y : float) : bool := SFleb x y.
Definition eqb (x y : float) : bool := SFeqb x y.

(** [float(z)] *)
Definition of_Z (z : Z) : float := binary_normalize prec emax z 0 false.

(* ------------------------------------------------------------------ *)
(** ** Parameters read from the sidebar *)

Record config := {
  SIMULATION_TIME : Z;
  NUM_BEDS : Z;
  ARRIVAL_RATES : ptype -> float;
  MEAN_LOS : ptype -> float;
  COMPLEXITY_FACTORS : ptype -> float;
  ENABLE_BED_BOARDING : bool;
  EXTRA_BED_RATIO : Z;
  NMCR_PROPORTION : Z;
  NMCR_INTERNAL_PROPORTION : Z;
  NMCR_INTERNAL_DELAY : float;
  NMCR_EXTERNAL_DELAY : float
}.

(** [sum(ARRIVAL_RATES.values())]: the sum starts from the [int] 0.  (The
    compensated summation of CPython 3.12 returns, for two terms, the
    rounded sum as well.) *)
Definition sum_rates (rates : ptype -> float) : float :=
  fold_left add (map rates patient_types) (of_Z 0).

Record generator := {
  random_sample : nat -> float;
  standard_exponential : nat -> float
}.

(* ------------------------------------------------------------------ *)
(** ** Data of the simulation *)

Record patient := {
  patient_id : nat;
  p_type : ptype;
  length_of_stay : float;
  arrival_time : float;
  has_nmcr_delay : bool;
  reason : option nmcr_reason;
  total_length_of_stay : float;
  priority : Z
}.

Record patient_record := {
  Patient_ID : nat;
  Type_ : ptype;
  Arrival_Time : float;
  Length_of_Stay : float;
  NMCR_Delay : float;
  Total_LOS : float;
  Discharge_Time : float;
  NMCR_Reason : option nmcr_reason
}.

Inductive callback :=
| Initialize_monitor
| Monitor_timeout
| Initialize_generator
| Arrival_timeout (next_patient_id : nat)
| Initialize_patient (id : nat) (ty : ptype) (los : float)
| Request_granted (p : patient)
| Stay_timeout (p : patient)
| Release_processed
| Process_ended
| Until.

Record entry := {
  ev_time : float;
  ev_prio : Z;
  ev_eid : nat;
  ev_call : callback
}.

Record Environment := {
  now : float;
  eid : nat;
  queue : list entry
}.

Record request := {
  req_priority : Z;
  req_time : float;
  req_owner : patient
}.

Record PriorityResource := {
  users : list request;
  put_queue : list request
}.

Record Hospital := {
  occupied_beds : Z;
  occupancy : list Z;
  times : list float;
  patients : list patient_record
}.

(** [admissions] is the history variable of the first model: the time at
    which [self.occupied_beds += 1] ran for each patient. *)
Record state := {
  env : Environment;
  beds : PriorityResource;
  hospital : Hospital;
  draws : nat;
  admissions : list (patient * float)
}.

Definition on_env (f : Environment -> Environment) (s : state) : state :=
  {| env := f (env s); beds := beds s; hospital := hospital s;
     draws := draws s; admissions := admissions s |}.

Definition on_beds (f : PriorityResource -> PriorityResource) (s : state) : state :=
  {| env := env s; beds := f (beds s); hospital := hospital s;
     draws := draws s; admissions := admissions s |}.

Definition on_hospital (f : Hospital -> Hospital) (s : state) : state :=
  {| env := env s; beds := beds s; hospital := f (hospital s);
     draws := draws s; admissions := admissions s |}.

Definition next_draw (s : state) : state :=
  {| env := env s; beds := beds s; hospital := hospital s;
     draws := S (draws s); admissions := admissions s |}.

Definition note_admission (p : patient) (t : float) (s : state) : state :=
  {| env := env s; beds := beds s; hospital := hospital s;
     draws := draws s; admissions := admissions s ++ [(p, t)] |}.

(* ------------------------------------------------------------------ *)
(** ** simpy's environment *)

(** Order of the tuples [(time, priority, eid)]: Python looks for the
    first component in which the tuples differ and compares there. *)
Definition entry_ltb (a b : entry) : bool :=
  match SFcompare (ev_time a) (ev_time b) with
  | Some Lt => true
  | Some Eq => match (ev_prio a ?= ev_prio b)%Z with
               | Lt => true
               | Gt => false
               | Eq => ev_eid a <? ev_eid b
               end
  | _ => false
  end.

Fixpoint heappush (e : entry) (q : list entry) : list entry :=
  match q with
  | [] => [e]
  | x :: q' => if entry_ltb e x then e :: q else x :: heappush e q'
  end.

(** [Environment.schedule(event, priority, delay)]: the entry is due at
    [self._now + delay], a sum of floats. *)
Definition schedule (prio : Z) (delay : float) (c : callback) (e : Environment)
  : Environment :=
  {| now := now e;
     eid := S (eid e);
     queue := heappush {| ev_time := add (now e) delay; ev_prio := prio;
                          ev_eid := eid e; ev_call := c |} (queue e) |}.

Definition process_exit (s : state) : state :=
  on_env (schedule NORMAL (of_Z 0) Process_ended) s.

(* ------------------------------------------------------------------ *)
(** ** simpy's priority resource *)

Definition request_ltb (a b : request) : bool :=
  match (req_priority a ?= req_priority b)%Z with
  | Lt => true
  | Gt => false
  | Eq => ltb (req_time a) (req_time b)
  end.

Fixpoint insert_request (x : request) (l : list request) : list request :=
  match l with
  | [] => [x]
  | y :: l' => if request_ltb y x then y :: insert_request x l' else x :: l
  end.

Definition sort_requests (l : list request) : list request :=
  fold_right insert_request [] l.

Definition sorted_append (r : request) (q : list request) : list request :=
  sort_requests (q ++ [r]).

Fixpoint remove_request (id : nat) (l : list request) : list request :=
  match l with
  | [] => []
  | x :: l' => if patient_id (req_owner x) =? id then l'
               else x :: remove_request id l'
  end.

Section Simulation.

Variable cfg : config.
Variable rng : generator.

Definition capacity : Z := (NUM_BEDS cfg + NUM_BEDS cfg / EXTRA_BED_RATIO cfg)%Z.

Definition trigger_put (s : state) : state :=
  match put_queue (beds s) with
  | [] => s
  | r :: rest =>
      if (Z.of_nat (length (users (beds s))) <? capacity)%Z then
        let s := on_beds (fun b => {| users := users b ++ [r]; put_queue := rest |}) s in
        on_env (schedule NORMAL (of_Z 0) (Request_granted (req_owner r))) s
      else s
  end.

Definition do_request (p : patient) (s : state) : state :=
  let r := {| req_priority := priority p; req_time := now (env s); req_owner := p |} in
  let s := on_beds (fun b => {| users := users b;
                                put_queue := sorted_append r (put_queue b) |}) s in
  trigger_put s.

Definition do_release (p : patient) (s : state) : state :=
  let s := on_beds (fun b => {| users := remove_request (patient_id p) (users b);
                                put_queue := put_queue b |}) s in
  on_env (schedule NORMAL (of_Z 0) Release_processed) s.

(* ------------------------------------------------------------------ *)
(** ** numpy.random *)

Definition rand (s : state) : float * state :=
  (random_sample rng (draws s), next_draw s).

(** [np.random.exponential(scale)]: the standard variate times [scale]. *)
Definition exponential (scale : float) (s : state) : float * state :=
  (mul scale (standard_exponential rng (draws s)), next_draw s).

Definition choice (total_rate : float) (s : state) : ptype * state :=
  let p_m := div (ARRIVAL_RATES cfg Medical) total_rate in
  let p_s := div (ARRIVAL_RATES cfg Surgical) total_rate in
  let cdf_m := div p_m (add p_m p_s) in
  let u := random_sample rng (draws s) in
  ((if leb cdf_m u then Surgical else Medical), next_draw s).

(* ------------------------------------------------------------------ *)
(** ** Hospital *)

Definition record_occupancy (t : float) (h : Hospital) : Hospital :=
  {| occupied_beds := occupied_beds h;
     occupancy := occupancy h ++ [occupied_beds h];
     times := times h ++ [t];
     patients := patients h |}.

Definition add_occupied (d : Z) (h : Hospital) : Hospital :=
  {| occupied_beds := (occupied_beds h + d)%Z;
     occupancy := occupancy h;
     times := times h;
     patients := patients h |}.

Definition append_patient (r : patient_record) (h : Hospital) : Hospital :=
  {| occupied_beds := occupied_beds h;
     occupancy := occupancy h;
     times := times h;
     patients := patients h ++ [r] |}.

Definition monitor_occupancy (s : state) : state :=
  let s := on_hospital (record_occupancy (now (env s))) s in
  on_env (schedule NORMAL (of_Z 1) Monitor_timeout) s.

Definition priority_of (occupied : Z) : Z :=
  if (occupied <? NUM_BEDS cfg)%Z then 0%Z
  else if ENABLE_BED_BOARDING cfg
          && (occupied <? NUM_BEDS cfg + NUM_BEDS cfg / EXTRA_BED_RATIO cfg)%Z
       then 1%Z
       else 2%Z.

(** Lines 95-107; [NMCR_PROPORTION / 100] is the quotient of two [int]s,
    rounded once. *)
Definition nmcr_outcome (los : float) (s : state)
  : bool * option nmcr_reason * float * state :=
  let (u, s) := rand s in
  if ltb u (div (of_Z (NMCR_PROPORTION cfg)) (of_Z 100)) then
    let (u', s) := rand s in
    let why := if ltb u' (div (of_Z (NMCR_INTERNAL_PROPORTION cfg)) (of_Z 100))
               then Internal else External in
    let (additional_delay, s) :=
      match why with
      | Internal => exponential (NMCR_INTERNAL_DELAY cfg) s
      | External => exponential (NMCR_EXTERNAL_DELAY cfg) s
      end in
    (true, Some why, add los additional_delay, s)
  else (false, None, los, s).

Definition admit_patient_start (id : nat) (ty : ptype) (los : float) (s : state)
  : state :=
  let arrival := now (env s) in
  let '(has, why, total, s) := nmcr_outcome los s in
  let p := {| patient_id := id; p_type := ty; length_of_stay := los;
              arrival_time := arrival; has_nmcr_delay := has; reason := why;
              total_length_of_stay := total;
              priority := priority_of (occupied_beds (hospital s)) |} in
  do_request p s.

(** Up to [yield self.env.timeout(total_length_of_stay)]: the timeout is
    due at [env.now + total_length_of_stay], rounded. *)
Definition admit_patient_granted (p : patient) (s : state) : state :=
  let s := on_hospital (add_occupied 1) s in
  let s := note_admission p (now (env s)) s in
  let s := on_hospital (record_occupancy (now (env s))) s in
  on_env (schedule NORMAL (total_length_of_stay p) (Stay_timeout p)) s.

Definition discharge_record (p : patient) (discharge_time : float) : patient_record :=
  {| Patient_ID := patient_id p;
     Type_ := p_type p;
     Arrival_Time := arrival_time p;
     Length_of_Stay := length_of_stay p;
     NMCR_Delay := if has_nmcr_delay p
                   then sub (total_length_of_stay p) (length_of_stay p)
                   else of_Z 0;
     Total_LOS := total_length_of_stay p;
     Discharge_Time := discharge_time;
     NMCR_Reason := if has_nmcr_delay p then reason p else None |}.

Definition admit_patient_leave (p : patient) (s : state) : state :=
  let s := on_hospital (add_occupied (-1)) s in
  let s := on_hospital (record_occupancy (now (env s))) s in
  let s := do_release p s in
  let s := on_hospital (append_patient (discharge_record p (now (env s)))) s in
  process_exit s.

Definition patient_generator_loop (next_id : nat) (s : state) : state :=
  if ltb (now (env s)) (of_Z (SIMULATION_TIME cfg)) then
    let total_rate := sum_rates (ARRIVAL_RATES cfg) in
    if eqb total_rate (of_Z 0) then process_exit s
    else
      let (inter_arrival_time, s) := exponential (div (of_Z 1) total_rate) s in
      on_env (schedule NORMAL inter_arrival_time (Arrival_timeout next_id)) s
  else process_exit s.

Definition patient_generator_resume (id : nat) (s : state) : state :=
  let total_rate := sum_rates (ARRIVAL_RATES cfg) in
  let (ty, s) := choice total_rate s in
  let (e, s) := exponential (MEAN_LOS cfg ty) s in
  let los := mul e (COMPLEXITY_FACTORS cfg ty) in
  let s := on_env (schedule URGENT (of_Z 0) (Initialize_patient id ty los)) s in
  patient_generator_loop (S id) s.

(* ------------------------------------------------------------------ *)
(** ** The event loop *)

Definition run_callback (c : callback) (s : state) : state :=
  match c with
  | Initialize_monitor | Monitor_timeout => monitor_occupancy s
  | Initialize_generator => patient_generator_loop 0 s
  | Arrival_timeout id => patient_generator_resume id s
  | Initialize_patient id ty los => admit_patient_start id ty los s
  | Request_granted p => admit_patient_granted p s
  | Stay_timeout p => admit_patient_leave p s
  | Release_processed => trigger_put s
  | Process_ended => s
  | Until => s
  end.

Inductive outcome :=
| Running (s : state)
| StopSimulation (s : state)
| EmptySchedule.

Definition step (s : state) : outcome :=
  match queue (env s) with
  | [] => EmptySchedule
  | e :: q =>
      let s := on_env (fun v => {| now := ev_time e; eid := eid v; queue := q |}) s in
      match ev_call e with
      | Until => StopSimulation s
      | c => Running (run_callback c s)
      end
  end.

(** [env.run(until=SIMULATION_TIME)] schedules the [until] event with the
    delay [float(until) - env.now]. *)
Definition initial_state : state :=
  let s := {| env := {| now := of_Z 0; eid := 0; queue := [] |};
              beds := {| users := []; put_queue := [] |};
              hospital := {| occupied_beds := 0; occupancy := []; times := [];
                             patients := [] |};
              draws := 0;
              admissions := [] |} in
  let s := on_env (schedule URGENT (of_Z 0) Initialize_monitor) s in
  let s := on_env (schedule URGENT (of_Z 0) Initialize_generator) s in
  on_env (fun v => schedule URGENT (sub (of_Z (SIMULATION_TIME cfg)) (now v)) Until v) s.

Fixpoint after (n : nat) : option state :=
  match n with
  | O => Some initial_state
  | S n' => match after n' with
            | Some s => match step s with
                        | Running s' => Some s'
                        | _ => None
                        end
            | None => None
            end
  end.

Fixpoint run (fuel : nat) (s : state) : option state :=
  match fuel with
  | O => None
  | S fuel' => match step s with
               | Running s' => run fuel' s'
               | StopSimulation s' => Some s'
               | EmptySchedule => None
               end
  end.

Definition run_simulation (fuel : nat)
  : option (list float * list Z * list patient_record) :=
  match run fuel initial_state with
  | Some s => Some (times (hospital s), occupancy (hospital s), patients (hospital s))
  | None => None
  end.

End Simulation.

(* ------------------------------------------------------------------ *)
(** ** The page [pages/1_Occupancy_and_LOS.py] *)

Module Occupancy_and_LOS.

Record inputs := {
  NUM_BEDS : Z;
  ARRIVAL_RATES : ptype -> float;
  target_occupancy_rate : Z;
  current_mean_los : ptype -> float
}.

Record results := {
  shown_ideal_average_los : float;
  shown_discharges_per_week : float;
  shown_weighted_average_los : float;
  shown_adjusted_los : option (ptype -> float)
}.

Inductive outcome :=
| Stopped (warning : string)
| Rendered (r : results).

Section Page.

Variable i : inputs.

(** Lines 29-32: [total_arrival_rate = 0], then [+=] for each type. *)
Definition total_arrival_rate : float :=
  fold_left (fun acc p => add acc (ARRIVAL_RATES i p)) patient_types (of_Z 0).

(** [target_occupancy_rate / 100], the quotient of two [int]s. *)
Definition occupancy_fraction : float :=
  div (of_Z (target_occupancy_rate i)) (of_Z 100).

Definition ideal_average_los : float :=
  div (mul occupancy_fraction (of_Z (NUM_BEDS i))) total_arrival_rate.

Definition discharges_per_week : float := mul total_arrival_rate (of_Z 7).

Definition total_arrivals : float := sum_rates (ARRIVAL_RATES i).

(** [sum([ARRIVAL_RATES[p] * los[p] for p in patient_types])] *)
Definition weighted_sum (los : ptype -> float) : float :=
  fold_left add (map (fun p => mul (ARRIVAL_RATES i p) (los p)) patient_types)
            (of_Z 0).

(** The expression of line 83, for any lengths of stay. *)
Definition weighted_average (los : ptype -> float) : float :=
  div (weighted_sum los) total_arrivals.

Definition weighted_average_los : float := weighted_average (current_mean_los i).

Definition adjustment_factor : float := div ideal_average_los weighted_average_los.

Definition adjusted_los (p : ptype) : float :=
  mul (current_mean_los i p) adjustment_factor.

(** The literal [0.01]: the float nearest to 1/100. *)
Definition tolerance : float := div (of_Z 1) (of_Z 100).

Definition page : outcome :=
  if eqb total_arrival_rate (of_Z 0) then
    Stopped "Total arrival rate must be greater than 0."%string
  else
    Rendered
      {| shown_ideal_average_los := ideal_average_los;
         shown_discharges_per_week := discharges_per_week;
         shown_weighted_average_los := weighted_average_los;
         shown_adjusted_los :=
           if ltb tolerance (abs (sub weighted_average_los ideal_average_los))
           then Some adjusted_los else None |}.

End Page.

End Occupancy_and_LOS.

End Binary64.

(* ------------------------------------------------------------------ *)
(** * Vocabulary of the properties *)

(** *** Two runs *)

(** Two generators seeded alike give the same variates, one after the other. *)
Definition same_stream (g1 g2 : generator) : Prop :=
  (forall n, random_sample g1 n = random_sample g2 n) /\
  (forall n, standard_exponential g1 n = standard_exponential g2 n).

(** The sum of a weight over a list. *)
Definition total_weight {A} (w : A -> nat) (l : list A) : nat :=
  list_sum (map w l).

Section Vocabulary.

Variable cfg : config.
Variable rng : generator.

(** [trigger_put] either leaves the state alone or grants the head of the
    queue. *)
Inductive trigger_put_spec (s : state) : state -> Prop :=
| tp_idle : trigger_put_spec s s
| tp_grant r rest :
    put_queue (beds s) = r :: rest ->
    (Z.of_nat (length (users (beds s))) < capacity cfg)%Z ->
    trigger_put_spec s
      {| env := schedule NORMAL 0 (Request_granted (req_owner r)) (env s);
         beds := {| users := users (beds s) ++ [r]; put_queue := rest |};
         hospital := hospital s;
         draws := draws s;
         admissions := admissions s |}.

(** The loop head of [patient_generator] either ends the process or draws
    one inter-arrival time and sleeps. *)
Inductive generator_loop_spec (id : nat) (s : state) : state -> Prop :=
| gl_exit : generator_loop_spec id s (process_exit s)
| gl_sleep :
    (now (env s) < inject_Z (SIMULATION_TIME cfg))%Q ->
    ~ (sum_rates (ARRIVAL_RATES cfg) == 0)%Q ->
    generator_loop_spec id s
      (on_env (schedule NORMAL
                 ((1 / sum_rates (ARRIVAL_RATES cfg))
                  * standard_exponential rng (draws s))%Q
                 (Arrival_timeout id))
              (next_draw s)).

(** *** Counting beds *)

Definition is_granted (e : entry) : nat :=
  match ev_call e with Request_granted _ => 1 | _ => 0 end.

Definition is_staying (e : entry) : nat :=
  match ev_call e with Stay_timeout _ => 1 | _ => 0 end.

Definition within_capacity (c : Z) : Prop := (0 <= c <= capacity cfg)%Z.

(** The patients in a bed are those whose stay is running; together with
    the requests granted but not yet taken up they are users of the
    resource, which never has more users than its capacity. *)
Record beds_counted (s : state) : Prop := {
  bc_staying :
    occupied_beds (hospital s) = Z.of_nat (total_weight is_staying (queue (env s)));
  bc_users :
    (occupied_beds (hospital s) + Z.of_nat (total_weight is_granted (queue (env s)))
     <= Z.of_nat (length (users (beds s))))%Z;
  bc_capacity : (Z.of_nat (length (users (beds s))) <= capacity cfg)%Z;
  bc_samples : Forall within_capacity (occupancy (hospital s))
}.

(** *** The heap and the horizon *)

Definition time_le (a b : entry) : Prop := (ev_time a <= ev_time b)%Q.

Definition is_until (e : entry) : Prop :=
  ev_call e = Until /\ (ev_time e == inject_Z (SIMULATION_TIME cfg))%Q.

(** The heap is in order of time and the [until] event waits in it. *)
Record heap_ok (s : state) : Prop := {
  ho_sorted : StronglySorted time_le (queue (env s));
  ho_until : Exists is_until (queue (env s))
}.

(** *** Times of arrival, admission and discharge *)

(** What the clock and the admissions so far say of an entry of the heap. *)
Definition entry_timed (t : Q) (adm : list (patient * Q)) (e : entry) : Prop :=
  (t <= ev_time e)%Q /\
  match ev_call e with
  | Initialize_patient _ _ los => (0 <= los)%Q
  | Request_granted p =>
      (arrival_time p <= ev_time e)%Q /\ (0 <= total_length_of_stay p)%Q
  | Stay_timeout p =>
      exists ta, In (p, ta) adm /\ (arrival_time p <= ta)%Q /\
                 (ev_time e == ta + total_length_of_stay p)%Q
  | _ => True
  end.

Definition waiting_timed (t : Q) (r : request) : Prop :=
  (arrival_time (req_owner r) <= t)%Q /\
  (0 <= total_length_of_stay (req_owner r))%Q.

(** A record of the log belongs to a patient that was admitted at some
    time [ta], not before its arrival, and left a full stay later. *)
Definition discharged (adm : list (patient * Q)) (r : patient_record) : Prop :=
  exists p ta, In (p, ta) adm /\ r = discharge_record p (Discharge_Time r) /\
               (arrival_time p <= ta)%Q /\
               (Discharge_Time r == ta + total_length_of_stay p)%Q.

Record clock_ok (s : state) : Prop := {
  ck_heap : Forall (entry_timed (now (env s)) (admissions s)) (queue (env s));
  ck_waiting : Forall (waiting_timed (now (env s))) (put_queue (beds s));
  ck_log : Forall (discharged (admissions s)) (patients (hospital s))
}.

(** *** The states of a run *)

(** The states a run goes through: those between two events, and the one
    in which [env.run] returns. *)
Definition reached (s : state) : Prop :=
  (exists n, after cfg rng n = Some s) \/
  (exists fuel, run cfg rng fuel (initial_state cfg) = Some s).

Definition capacity_bound (c : Z) : Prop :=
  (0 <= c <= NUM_BEDS cfg + NUM_BEDS cfg / EXTRA_BED_RATIO cfg)%Z.

(** *** The frames of the patient processes *)

(** [P] holds of the local variables of every patient process that waits
    for a bed or stays in one, and every record of the log was written from
    such variables. *)
Definition frame_of_entry (P : patient -> Prop) (e : entry) : Prop :=
  match ev_call e with
  | Request_granted p | Stay_timeout p => P p
  | _ => True
  end.

Definition record_of_frame (P : patient -> Prop) (r : patient_record) : Prop :=
  exists p, P p /\ r = discharge_record p (Discharge_Time r).

Record all_frames (P : patient -> Prop) (s : state) : Prop := {
  af_waiting : Forall (fun r => P (req_owner r)) (put_queue (beds s));
  af_heap : Forall (frame_of_entry P) (queue (env s));
  af_log : Forall (record_of_frame P) (patients (hospital s))
}.

(** The frame a patient process builds before it requests a bed. *)
Definition new_frame (id : nat) (ty : ptype) (los : Q) (s : state) : patient :=
  let '(has, why, total, s') := nmcr_outcome cfg rng los s in
  {| patient_id := id; p_type := ty; length_of_stay := los;
     arrival_time := now (env s); has_nmcr_delay := has; reason := why;
     total_length_of_stay := total;
     priority := priority_of cfg (occupied_beds (hospital s')) |}.

Definition mean_delay (why : nmcr_reason) : Q :=
  match why with
  | Internal => NMCR_INTERNAL_DELAY cfg
  | External => NMCR_EXTERNAL_DELAY cfg
  end.

(** The NMCR outcome read off the stream at position [k]: one uniform
    variate decides whether there is a delay; if so a second one decides
    the reason and an exponential variate, scaled by the mean delay of that
    reason, is the delay. *)
Definition nmcr_drawn (k : nat) (los : Q) (why : option nmcr_reason)
    (delay total : Q) : Prop :=
  if Qltb (random_sample rng k) (inject_Z (NMCR_PROPORTION cfg) / 100)
  then
    let w := if Qltb (random_sample rng (S k))
                     (inject_Z (NMCR_INTERNAL_PROPORTION cfg) / 100)
             then Internal else External in
    why = Some w /\
    (delay == mean_delay w * standard_exponential rng (S (S k)))%Q /\
    (total == los + delay)%Q
  else
    why = None /\ delay = 0%Q /\ total = los.

Definition frame_drawn (p : patient) : Prop :=
  exists k,
    nmcr_drawn k (length_of_stay p)
      (if has_nmcr_delay p then reason p else None)
      (if has_nmcr_delay p then total_length_of_stay p - length_of_stay p else 0)%Q
      (total_length_of_stay p).

(** *** The occupancy recorder *)

Definition is_monitor (c : callback) : bool :=
  match c with
  | Initialize_monitor | Monitor_timeout => true
  | _ => false
  end.

(** The recorder took its sample of day [k]: at some point of the run the
    head of the heap was an event of [monitor_occupancy] due at time [k],
    and processing it appended the time and the current number of occupied
    beds to the samples, leaving that number as it was. *)
Definition sampled_at (k : Z) : Prop :=
  exists n s s' e q,
    after cfg rng n = Some s /\
    queue (env s) = e :: q /\
    is_monitor (ev_call e) = true /\
    (ev_time e == inject_Z k)%Q /\
    step cfg rng s = Running s' /\
    times (hospital s') = times (hospital s) ++ [ev_time e] /\
    occupancy (hospital s') = occupancy (hospital s) ++ [occupied_beds (hospital s)] /\
    occupied_beds (hospital s') = occupied_beds (hospital s).

(** The samples of [s] are still there, in front, in [final]. *)
Definition samples_kept (s final : state) : Prop :=
  exists ts cs,
    times (hospital final) = times (hospital s) ++ ts /\
    occupancy (hospital final) = occupancy (hospital s) ++ cs.

Definition monitor_due (e : entry) : Prop :=
  is_monitor (ev_call e) = true ->
  exists k, (0 <= k)%Z /\ (ev_time e == inject_Z k)%Q /\
            forall j, (0 <= j < k)%Z -> sampled_at j.

Definition until_due (e : entry) : Prop :=
  ev_call e = Until -> (ev_time e == inject_Z (SIMULATION_TIME cfg))%Q.

Record monitor_ok (s : state) : Prop := {
  mo_after : exists n, after cfg rng n = Some s;
  mo_pending : Exists (fun e => is_monitor (ev_call e) = true) (queue (env s));
  mo_sampled : Forall monitor_due (queue (env s));
  mo_until : Forall until_due (queue (env s))
}.

Definition is_generator (c : callback) : bool :=
  match c with
  | Initialize_generator | Arrival_timeout _ => true
  | _ => false
  end.

(** What a callback may push on the heap: never the [until] event, an
    event of the recorder only from the recorder, and an event of the
    arrival generator only from the arrival generator. *)
Definition pushed_by (c : callback) (x : entry) : Prop :=
  ev_call x <> Until /\
  (is_monitor (ev_call x) = true -> is_monitor c = true) /\
  (is_generator (ev_call x) = true -> is_generator c = true).

(** *** Patient identifiers *)

(** The patient an event of the heap stands for, if any. *)
Definition call_ids (c : callback) : list nat :=
  match c with
  | Initialize_patient id _ _ => [id]
  | Request_granted p | Stay_timeout p => [patient_id p]
  | _ => []
  end.

Definition entry_ids (e : entry) : list nat := call_ids (ev_call e).

(** The patient a callback leaves in the system when it has run: the
    generator brings in a new one, the others keep theirs. *)
Definition ids_after (c : callback) : list nat :=
  match c with
  | Arrival_timeout j => [j]
  | _ => call_ids c
  end.

Definition waiting_ids (s : state) : list nat :=
  map (fun r => patient_id (req_owner r)) (put_queue (beds s)).

Definition logged_ids (s : state) : list nat :=
  map Patient_ID (patients (hospital s)).

(** The patients that have arrived: about to start, waiting for a bed,
    granted one, staying in one, or discharged. *)
Definition live_ids (s : state) : list nat :=
  flat_map entry_ids (queue (env s)) ++ waiting_ids s ++ logged_ids s.

Definition generator_weight (e : entry) : nat :=
  if is_generator (ev_call e) then 1 else 0.

(** [k] is no larger than the identifier the generator will give next. *)
Definition next_id_from (k : nat) (e : entry) : Prop :=
  match ev_call e with
  | Initialize_generator => k = 0
  | Arrival_timeout j => k <= j
  | _ => True
  end.

(** Every patient is in one place only, and the generator, of which there
    is one, hands out identifiers larger than all those in use. *)
Record ids_ok (s : state) : Prop := {
  io_nodup : NoDup (live_ids s);
  io_generator : total_weight generator_weight (queue (env s)) <= 1;
  io_fresh : exists k, Forall (fun id => id < k) (live_ids s) /\
                       Forall (next_id_from k) (queue (env s))
}.

(** *** A run without arrivals *)

Definition is_quiet (c : callback) : bool :=
  match c with
  | Initialize_monitor | Monitor_timeout | Initialize_generator
  | Process_ended | Until => true
  | _ => false
  end.

(** Nothing has happened to the beds, the log or the random stream, and
    nothing in the heap will make it happen. *)
Record quiet (s : state) : Prop := {
  qt_heap : Forall (fun e => is_quiet (ev_call e) = true) (queue (env s));
  qt_waiting : put_queue (beds s) = [];
  qt_users : users (beds s) = [];
  qt_occupied : occupied_beds (hospital s) = 0%Z;
  qt_samples : Forall (eq 0%Z) (occupancy (hospital s));
  qt_log : patients (hospital s) = [];
  qt_draws : draws s = 0;
  qt_admissions : admissions s = []
}.

(** *** A bound on the events still to come *)

Variable delta : Q.

(** The variates are such that arrivals cannot pile up without end: either
    there are no arrivals at all, or every exponential variate is at least
    [delta > 0]. *)
Definition paced : Prop :=
  (sum_rates (ARRIVAL_RATES cfg) == 0)%Q \/
  ((0 < sum_rates (ARRIVAL_RATES cfg))%Q /\ (0 < delta)%Q /\
   forall n, (delta <= standard_exponential rng n)%Q).

Definition arrivals_left (t : Q) : nat :=
  Z.to_nat (Qceiling ((inject_Z (SIMULATION_TIME cfg) - t)
                      * sum_rates (ARRIVAL_RATES cfg) / delta)).

Definition ticks_left (t : Q) : nat :=
  Z.to_nat (Qceiling (inject_Z (SIMULATION_TIME cfg) + 1 - t)).

(** How many events an entry of the heap can still cause, itself included. *)
Definition events_owed (e : entry) : nat :=
  match ev_call e with
  | Initialize_monitor | Monitor_timeout => 1 + ticks_left (ev_time e)
  | Initialize_generator | Arrival_timeout _ => 7 + 6 * arrivals_left (ev_time e)
  | Initialize_patient _ _ _ => 5
  | Request_granted _ => 4
  | Stay_timeout _ => 3
  | Release_processed => 1
  | Process_ended => 1
  | Until => 0
  end.

Definition potential (s : state) : nat :=
  total_weight events_owed (queue (env s)) + 4 * length (put_queue (beds s)).

End Vocabulary.

(* ------------------------------------------------------------------ *)
(** * Concrete inputs *)

(** A ward of one bed with one extra bed, boarding switched off, one
    arrival per day of each type and no NMCR delay, over three days. *)
Definition small_ward : config := {|
  SIMULATION_TIME := 3;
  NUM_BEDS := 1;
  ARRIVAL_RATES := fun _ => 1%Q;
  MEAN_LOS := fun _ => 1%Q;
  COMPLEXITY_FACTORS := fun _ => 1%Q;
  ENABLE_BED_BOARDING := false;
  EXTRA_BED_RATIO := 1;
  NMCR_PROPORTION := 0;
  NMCR_INTERNAL_PROPORTION := 50;
  NMCR_INTERNAL_DELAY := 2;
  NMCR_EXTERNAL_DELAY := 5
|}.

(** A stream whose uniform variates are all 1/2 and whose exponential
    variates are all 1. *)
Definition steady : generator := {|
  random_sample := fun _ => (1 # 2)%Q;
  standard_exponential := fun _ => 1%Q
|}.

(** The same ward over eight days, boarding switched on, every patient
    delayed. *)
Definition delayed_ward : config := {|
  SIMULATION_TIME := 8;
  NUM_BEDS := 1;
  ARRIVAL_RATES := fun _ => 1%Q;
  MEAN_LOS := fun _ => 1%Q;
  COMPLEXITY_FACTORS := fun _ => 1%Q;
  ENABLE_BED_BOARDING := true;
  EXTRA_BED_RATIO := 1;
  NMCR_PROPORTION := 100;
  NMCR_INTERNAL_PROPORTION := 50;
  NMCR_INTERNAL_DELAY := 2;
  NMCR_EXTERNAL_DELAY := 5
|}.

(** The stream of [steady], written differently. *)
Definition steady_again : generator := {|
  random_sample := fun n => if Nat.even n then (1 # 2)%Q else (1 # 2)%Q;
  standard_exponential := fun n => match n with O => 1%Q | S _ => 1%Q end
|}.

(** The small ward with both arrival rates at zero. *)
Definition idle_ward : config := {|
  SIMULATION_TIME := 3;
  NUM_BEDS := 1;
  ARRIVAL_RATES := fun _ => 0%Q;
  MEAN_LOS := fun _ => 1%Q;
  COMPLEXITY_FACTORS := fun _ => 1%Q;
  ENABLE_BED_BOARDING := false;
  EXTRA_BED_RATIO := 1;
  NMCR_PROPORTION := 0;
  NMCR_INTERNAL_PROPORTION := 50;
  NMCR_INTERNAL_DELAY := 2;
  NMCR_EXTERNAL_DELAY := 5
|}.

(** The calculator page with both arrival rates at zero. *)
Definition idle_inputs : Occupancy_and_LOS.inputs := {|
  Occupancy_and_LOS.NUM_BEDS := 100;
  Occupancy_and_LOS.ARRIVAL_RATES := fun _ => 0%Q;
  Occupancy_and_LOS.target_occupancy_rate := 85;
  Occupancy_and_LOS.current_mean_los := fun _ => 7%Q
|}.

(** The small ward with surgical patients only, two a day. *)
Definition surgical_ward : config := {|
  SIMULATION_TIME := 3;
  NUM_BEDS := 1;
  ARRIVAL_RATES := fun ty => match ty with Medical => 0%Q | Surgical => 2%Q end;
  MEAN_LOS := fun _ => 1%Q;
  COMPLEXITY_FACTORS := fun _ => 1%Q;
  ENABLE_BED_BOARDING := false;
  EXTRA_BED_RATIO := 1;
  NMCR_PROPORTION := 0;
  NMCR_INTERNAL_PROPORTION := 50;
  NMCR_INTERNAL_DELAY := 2;
  NMCR_EXTERNAL_DELAY := 5
|}.

(* ------------------------------------------------------------------ *)
(** * Vocabulary of further properties *)

(** What one event does to the hospital and to the admissions: nothing, a
    sample, an admission with its sample, or a discharge with its sample
    and its record. *)
Inductive hospital_moves (s s' : state) : Prop :=
| hm_same :
    hospital s' = hospital s -> admissions s' = admissions s ->
    hospital_moves s s'
| hm_sample :
    hospital s' = record_occupancy (now (env s')) (hospital s) ->
    admissions s' = admissions s ->
    hospital_moves s s'
| hm_admit p :
    hospital s'
    = record_occupancy (now (env s')) (add_occupied 1 (hospital s)) ->
    admissions s' = admissions s ++ [(p, now (env s'))] ->
    hospital_moves s s'
| hm_discharge p :
    hospital s'
    = append_patient (discharge_record p (now (env s')))
        (record_occupancy (now (env s')) (add_occupied (-1) (hospital s))) ->
    admissions s' = admissions s ->
    hospital_moves s s'.

(** Neighbouring samples differ by one at most. *)
Fixpoint gentle (l : list Z) : Prop :=
  match l with
  | a :: (b :: _) as rest => (Z.abs (b - a) <= 1)%Z /\ gentle rest
  | _ => True
  end.

(** The samples are in step with the counter: two lists of one length,
    gentle, the last sample being the current number of occupied beds. *)
Record samples_ok (s : state) : Prop := {
  so_aligned : length (times (hospital s)) = length (occupancy (hospital s));
  so_gentle : gentle (occupancy (hospital s));
  so_last : last (occupancy (hospital s)) (occupied_beds (hospital s))
            = occupied_beds (hospital s);
  so_beds : occupied_beds (hospital s)
            = (Z.of_nat (length (admissions s))
               - Z.of_nat (length (patients (hospital s))))%Z
}.

Section FurtherVocabulary.

Variable cfg : config.
Variable rng : generator.

Definition discharged_before (a b : patient_record) : Prop :=
  (Discharge_Time a <= Discharge_Time b)%Q.

(** The clock stays within the horizon; the sample times and the
    discharge times are in order and not later than the clock. *)
Record timeline_ok (s : state) : Prop := {
  tl_now : (0 <= now (env s) <= inject_Z (SIMULATION_TIME cfg))%Q;
  tl_times : Forall (fun t => 0 <= t <= now (env s))%Q (times (hospital s));
  tl_sorted : StronglySorted Qle (times (hospital s));
  tl_log : Forall (fun r => Discharge_Time r <= now (env s))%Q
                  (patients (hospital s));
  tl_log_sorted : StronglySorted discharged_before (patients (hospital s))
}.

(** What the arrival generator fixes of a patient (its identifier, its type
    and its base length of stay) satisfies [A] wherever the patient is: in
    the heap, in the wait queue or in the log. *)
Definition arrival_of_entry (A : nat -> ptype -> Q -> Prop) (e : entry) : Prop :=
  match ev_call e with
  | Initialize_patient id ty los => A id ty los
  | Request_granted p | Stay_timeout p =>
      A (patient_id p) (p_type p) (length_of_stay p)
  | Arrival_timeout _ => ~ (sum_rates (ARRIVAL_RATES cfg) == 0)%Q
  | _ => True
  end.

Record all_arrivals (A : nat -> ptype -> Q -> Prop) (s : state) : Prop := {
  aa_heap : Forall (arrival_of_entry A) (queue (env s));
  aa_waiting :
    Forall (fun r => A (patient_id (req_owner r)) (p_type (req_owner r))
                       (length_of_stay (req_owner r)))
           (put_queue (beds s));
  aa_log : Forall (fun r => A (Patient_ID r) (Type_ r) (Length_of_Stay r))
                  (patients (hospital s))
}.

(** The type and the base length of stay that [patient_generator] draws
    when the stream stands at position [n]. *)
Definition drawn_type (n : nat) : ptype :=
  let total := sum_rates (ARRIVAL_RATES cfg) in
  let p_m := (ARRIVAL_RATES cfg Medical / total)%Q in
  let p_s := (ARRIVAL_RATES cfg Surgical / total)%Q in
  if Qle_bool (p_m / (p_m + p_s)) (random_sample rng n) then Surgical else Medical.

Definition drawn_length_of_stay (n : nat) : Q :=
  (MEAN_LOS cfg (drawn_type n) * standard_exponential rng (S n)
   * COMPLEXITY_FACTORS cfg (drawn_type n))%Q.

End FurtherVocabulary.

(** The order of the keys [(priority, time)] of two requests. *)
Definition req_le (a b : request) : Prop :=
  (req_priority a < req_priority b)%Z \/
  (req_priority a = req_priority b /\ (req_time a <= req_time b)%Q).

Definition waiting_sorted (s : state) : Prop :=
  StronglySorted req_le (put_queue (beds s)).

(** No event id is used twice, and the counter is ahead of all of them. *)
Record eids_ok (s : state) : Prop := {
  eo_distinct : NoDup (map ev_eid (queue (env s)));
  eo_below : Forall (fun e => ev_eid e < eid (env s)) (queue (env s))
}.

(** *** Counting the samples *)

(** The order of the heap: by time, then priority, then event id. *)
Definition key_le (a b : entry) : Prop := entry_ltb b a = false.

Definition key_sorted (s : state) : Prop := StronglySorted key_le (queue (env s)).

Definition monitor_weight (e : entry) : nat :=
  if is_monitor (ev_call e) then 1 else 0.

(** Samples taken, less one for each admission and each discharge. *)
Definition tally (s : state) : Z :=
  (Z.of_nat (length (occupancy (hospital s)))
   - Z.of_nat (length (admissions s))
   - Z.of_nat (length (patients (hospital s))))%Z.

Section SampleCount.

Variable cfg : config.

(** An event of the recorder is due on day [k]; on the last day it has
    the priority of a timeout, so that the [until] event goes first. *)
Definition tick_of (k : Z) (e : entry) : Prop :=
  is_monitor (ev_call e) = true ->
  (ev_time e == inject_Z k)%Q /\
  ((k < SIMULATION_TIME cfg)%Z \/ ev_prio e = NORMAL).

(** One event of the recorder is pending, due on the day that is the
    number of samples the recorder has taken. *)
Record samples_counted (s : state) : Prop := {
  sc_urgent : Forall (fun e => ev_call e = Until -> ev_prio e = URGENT)
                     (queue (env s));
  sc_one : total_weight monitor_weight (queue (env s)) = 1;
  sc_count : exists k, (0 <= k <= SIMULATION_TIME cfg)%Z /\
                       Forall (tick_of k) (queue (env s)) /\
                       tally s = k
}.

End SampleCount.

(** *** Arrivals in the order of the identifiers *)

(** The identifier and the arrival time of the patient an event stands
    for.  A patient process reads [env.now] as its arrival time when it
    starts, which is at the time of its [Initialize] event. *)
Definition call_frames (t : Q) (c : callback) : list (nat * Q) :=
  match c with
  | Initialize_patient id _ _ => [(id, t)]
  | Request_granted p | Stay_timeout p => [(patient_id p, arrival_time p)]
  | _ => []
  end.

Definition entry_frames (e : entry) : list (nat * Q) :=
  call_frames (ev_time e) (ev_call e).

(** At time [t] the generator starts the process of a new patient; the
    other callbacks keep their patient. *)
Definition frames_after (t : Q) (c : callback) : list (nat * Q) :=
  match c with
  | Arrival_timeout j => [(j, (t + 0)%Q)]
  | _ => call_frames t c
  end.

Definition waiting_frames (s : state) : list (nat * Q) :=
  map (fun r => (patient_id (req_owner r), arrival_time (req_owner r)))
      (put_queue (beds s)).

Definition logged_frames (s : state) : list (nat * Q) :=
  map (fun r => (Patient_ID r, Arrival_Time r)) (patients (hospital s)).

Definition live_frames (s : state) : list (nat * Q) :=
  flat_map entry_frames (queue (env s)) ++ waiting_frames s ++ logged_frames s.

Definition in_arrival_order (l : list (nat * Q)) : Prop :=
  forall a b, In a l -> In b l -> fst a < fst b -> (snd a <= snd b)%Q.

(** No patient has arrived after the clock, and a larger identifier means
    a later arrival, or one at the same time. *)
Record arrivals_ordered (s : state) : Prop := {
  ao_past : Forall (fun f => (snd f <= now (env s))%Q) (live_frames s);
  ao_order : in_arrival_order (live_frames s)
}.

(** *** Before the horizon *)

(** What a callback that runs at time [t] may schedule: never the [until]
    event; at priority [URGENT] only at once, with the delay 0 of a process
    that starts; a release only at once as well. *)
Definition scheduled_at (t : Q) (x : entry) : Prop :=
  ev_call x <> Until /\
  (ev_prio x = NORMAL \/ ev_time x = (t + 0)%Q) /\
  (ev_call x = Release_processed -> ev_time x = (t + 0)%Q).

Definition release_weight (e : entry) : nat :=
  match ev_call e with Release_processed => 1 | _ => 0 end.

Section Horizon.

Variable cfg : config.

Definition prio_ok (x : entry) : Prop :=
  ev_prio x = NORMAL \/
  (ev_time x < inject_Z (SIMULATION_TIME cfg))%Q \/
  ev_call x = Until.

(** Between two events the clock is before the horizon; the [until] event
    is urgent, and what else is urgent is due before the horizon; a
    release that is pending was made at the present time or before. *)
Record before_horizon (s : state) : Prop := {
  bh_now : (now (env s) < inject_Z (SIMULATION_TIME cfg))%Q;
  bh_prio : Forall prio_ok (queue (env s));
  bh_urgent : Forall (fun x => ev_call x = Until -> ev_prio x = URGENT)
                     (queue (env s));
  bh_release : Forall (fun x => ev_call x = Release_processed ->
                                (ev_time x <= now (env s))%Q)
                      (queue (env s))
}.

(** The users of the resource and the slots that were released but not
    yet handed over. *)
Definition slots_taken (s : state) : Z :=
  (Z.of_nat (length (users (beds s)))
   + Z.of_nat (total_weight release_weight (queue (env s))))%Z.

(** A request waits only when no slot is free. *)
Definition no_idle_slot (s : state) : Prop :=
  put_queue (beds s) <> [] -> (capacity cfg <= slots_taken s)%Z.

End Horizon.

(* ------------------------------------------------------------------ *)
(** * Vocabulary of the binary64 model *)





(** *** Discharge times *)







(** *** The calculator page *)




(* ------------------------------------------------------------------ *)
(** * Proofs *)

(** Reduce the projections of an updated state, and nothing else. *)
Ltac project :=
  cbn [env beds hospital draws admissions now eid queue users put_queue
       occupied_beds occupancy times patients
       on_env on_beds on_hospital next_draw note_admission schedule
       process_exit record_occupancy add_occupied append_patient
       do_release monitor_occupancy admit_patient_granted admit_patient_leave
       ev_time ev_prio ev_eid ev_call
       req_priority req_time req_owner
       patient_id p_type length_of_stay arrival_time has_nmcr_delay reason
       total_length_of_stay priority
       run_callback fst snd] in *.

Lemma Qltb_lt x y : Qltb x y = true <-> (x < y)%Q.
Proof.
  unfold Qltb. rewrite negb_true_iff. split; intro H.
  - apply Qnot_le_lt. intro L. apply Qle_bool_iff in L. congruence.
  - destruct (Qle_bool y x) eqn:E; [|reflexivity].
    apply Qle_bool_iff in E. exfalso. revert E. apply Qlt_not_le, H.
Qed.

Lemma Qltb_ge x y : Qltb x y = false <-> (y <= x)%Q.
Proof.
  unfold Qltb. rewrite negb_false_iff. apply Qle_bool_iff.
Qed.


(* ------------------------------------------------------------------ *)
(** ** Lists kept in order: what insertion preserves *)

Lemma heappush_perm e q : Permutation (heappush e q) (e :: q).
Proof.
  induction q as [|x q IH]; simpl; [reflexivity|].
  destruct (entry_ltb e x); [reflexivity|].
  rewrite IH. apply perm_swap.
Qed.

Lemma insert_request_perm x l : Permutation (insert_request x l) (x :: l).
Proof.
  induction l as [|y l IH]; simpl; [reflexivity|].
  destruct (request_ltb y x); [|reflexivity].
  rewrite IH. apply perm_swap.
Qed.

Lemma sort_requests_perm l : Permutation (sort_requests l) l.
Proof.
  induction l as [|x l IH]; simpl; [reflexivity|].
  rewrite insert_request_perm. apply perm_skip, IH.
Qed.

Lemma sorted_append_perm r q : Permutation (sorted_append r q) (r :: q).
Proof.
  unfold sorted_append. rewrite sort_requests_perm.
  symmetry. apply Permutation_cons_append.
Qed.

Lemma Forall_heappush (P : entry -> Prop) e q :
  Forall P (heappush e q) <-> P e /\ Forall P q.
Proof.
  split.
  - intro H. apply (Permutation_Forall (heappush_perm e q)) in H.
    inversion H; auto.
  - intros [He Hq]. apply (Permutation_Forall (Permutation_sym (heappush_perm e q))).
    constructor; assumption.
Qed.

Lemma Forall_sorted_append (P : request -> Prop) r q :
  Forall P (sorted_append r q) <-> P r /\ Forall P q.
Proof.
  split.
  - intro H. apply (Permutation_Forall (sorted_append_perm r q)) in H.
    inversion H; auto.
  - intros [He Hq].
    apply (Permutation_Forall (Permutation_sym (sorted_append_perm r q))).
    constructor; assumption.
Qed.

Lemma In_heappush x e q : In x (heappush e q) <-> x = e \/ In x q.
Proof.
  split; intro H.
  - apply (Permutation_in _ (heappush_perm e q)) in H. destruct H; auto.
  - apply (Permutation_in _ (Permutation_sym (heappush_perm e q))).
    destruct H; [left; auto | right; auto].
Qed.


Lemma total_weight_perm {A} (w : A -> nat) l l' :
  Permutation l l' -> total_weight w l = total_weight w l'.
Proof.
  unfold total_weight. induction 1; simpl; lia.
Qed.

Lemma total_weight_heappush w e q :
  total_weight w (heappush e q) = w e + total_weight w q.
Proof.
  rewrite (total_weight_perm w (heappush_perm e q)). reflexivity.
Qed.

Lemma total_weight_nil {A} (w : A -> nat) : total_weight w [] = 0.
Proof. reflexivity. Qed.

Lemma total_weight_cons {A} (w : A -> nat) x l :
  total_weight w (x :: l) = w x + total_weight w l.
Proof. reflexivity. Qed.

Lemma length_sorted_append r q : length (sorted_append r q) = S (length q).
Proof.
  rewrite (Permutation_length (sorted_append_perm r q)). reflexivity.
Qed.

Lemma length_remove_request id l :
  length (remove_request id l) <= length l <= S (length (remove_request id l)).
Proof.
  induction l as [|x l IH]; simpl; [lia|].
  destruct (patient_id (req_owner x) =? id); simpl; lia.
Qed.

(* ------------------------------------------------------------------ *)
(** ** How each piece of a process moves the state *)

Section Transitions.

Variable cfg : config.
Variable rng : generator.


Lemma trigger_put_cases s : trigger_put_spec cfg s (trigger_put cfg s).
Proof.
  unfold trigger_put.
  destruct (put_queue (beds s)) as [|r rest] eqn:Hq; [constructor|].
  destruct (Z.ltb_spec (Z.of_nat (length (users (beds s)))) (capacity cfg)).
  - apply (tp_grant cfg s Hq). assumption.
  - constructor.
Qed.


Lemma patient_generator_loop_cases id s :
  generator_loop_spec cfg rng id s (patient_generator_loop cfg rng id s).
Proof.
  unfold patient_generator_loop.
  destruct (Qltb (now (env s)) (inject_Z (SIMULATION_TIME cfg))) eqn:Hlt;
    [|constructor].
  destruct (Qeq_bool (sum_rates (ARRIVAL_RATES cfg)) 0) eqn:Hz; [constructor|].
  unfold exponential. apply gl_sleep.
  - apply Qltb_lt, Hlt.
  - intro H. apply Qeq_bool_iff in H. congruence.
Qed.

End Transitions.

(* ------------------------------------------------------------------ *)
(** ** Invariants of the event loop *)

Section Invariants.

Variable cfg : config.
Variable rng : generator.

(** A property of the initial state that every processed event preserves
    holds after any number of events. *)
Lemma after_invariant (P : state -> Prop) :
  P (initial_state cfg) ->
  (forall s s', P s -> step cfg rng s = Running s' -> P s') ->
  forall n s, after cfg rng n = Some s -> P s.
Proof.
  intros Hinit Hstep. induction n as [|n IH]; simpl; intros s H.
  - inversion H. subst. exact Hinit.
  - destruct (after cfg rng n) as [s0|]; [|discriminate].
    destruct (step cfg rng s0) as [s1| |] eqn:Hs; try discriminate.
    inversion H. subst. apply (Hstep s0); [apply IH; reflexivity | exact Hs].
Qed.

(** The [until] event changes nothing but the clock and the heap. *)
Lemma stop_keeps s final :
  step cfg rng s = StopSimulation final ->
  hospital final = hospital s /\ beds final = beds s /\
  admissions final = admissions s /\ draws final = draws s /\
  exists e, queue (env s) = e :: queue (env final) /\ ev_call e = Until /\
            now (env final) = ev_time e.
Proof.
  unfold step. destruct (queue (env s)) as [|e q] eqn:Hq; [discriminate|].
  destruct (ev_call e) eqn:Hc; try discriminate.
  intro H. inversion H. subst. simpl. repeat split; try reflexivity.
  exists e. auto.
Qed.

(** Every other event: the head of the heap is popped, the clock moves to
    its time, and its callback runs. *)
Lemma running_inv s s' :
  step cfg rng s = Running s' ->
  exists e q, queue (env s) = e :: q /\ ev_call e <> Until /\
    s' = run_callback cfg rng (ev_call e)
           (on_env (fun v => {| now := ev_time e; eid := eid v; queue := q |}) s).
Proof.
  unfold step. destruct (queue (env s)) as [|e q] eqn:Hq; [discriminate|].
  intro H. exists e, q. split; [reflexivity|].
  destruct (ev_call e) eqn:Hc; inversion H; subst; split;
    try reflexivity; discriminate.
Qed.

(** *** Counting beds *)


Ltac count_beds :=
  project;
  rewrite ?total_weight_heappush, ?total_weight_cons, ?total_weight_nil, ?length_app;
  unfold is_granted, is_staying; project; cbn [length];
  fold is_granted; fold is_staying.

Lemma beds_counted_trigger_put s s' :
  trigger_put_spec cfg s s' -> beds_counted cfg s -> beds_counted cfg s'.
Proof.
  intros H [H1 H2 H3 H4].
  destruct H as [|r rest Hq Hlt]; constructor; count_beds; auto; lia.
Qed.

Lemma beds_counted_generator_loop id s s' :
  generator_loop_spec cfg rng id s s' -> beds_counted cfg s -> beds_counted cfg s'.
Proof.
  intros H [H1 H2 H3 H4]. destruct H; constructor; count_beds; auto; lia.
Qed.

Lemma beds_counted_initial :
  (0 <= capacity cfg)%Z -> beds_counted cfg (initial_state cfg).
Proof.
  intro Hc. unfold initial_state. constructor; count_beds; auto; lia.
Qed.

Lemma within_capacity_snoc l c :
  Forall (within_capacity cfg) l -> (0 <= c <= capacity cfg)%Z ->
  Forall (within_capacity cfg) (l ++ [c]).
Proof.
  intros Hl Hc. apply Forall_app. split; [assumption|]. constructor; auto.
Qed.

Lemma beds_counted_step s s' :
  beds_counted cfg s -> step cfg rng s = Running s' -> beds_counted cfg s'.
Proof.
  intros Hs Hstep. apply running_inv in Hstep.
  destruct Hstep as (e & q & Hq & Hne & ->).
  destruct Hs as [H1 H2 H3 H4]. rewrite Hq in H1, H2.
  rewrite total_weight_cons in H1, H2.
  unfold is_staying at 1 in H1. unfold is_granted at 1 in H2.
  destruct (ev_call e) eqn:Hc; project; try congruence.
  - (* Initialize_monitor *)
    constructor; count_beds; try lia. apply within_capacity_snoc; auto. lia.
  - (* Monitor_timeout *)
    constructor; count_beds; try lia. apply within_capacity_snoc; auto. lia.
  - (* Initialize_generator *)
    eapply beds_counted_generator_loop; [apply patient_generator_loop_cases|].
    constructor; count_beds; auto.
  - (* Arrival_timeout *)
    unfold patient_generator_resume, choice, exponential.
    eapply beds_counted_generator_loop; [apply patient_generator_loop_cases|].
    constructor; count_beds; auto.
  - (* Initialize_patient *)
    unfold admit_patient_start, nmcr_outcome, rand, exponential.
    repeat match goal with
           | |- context [if ?b then _ else _] => destruct b
           | |- context [match ?b with Internal => _ | External => _ end] => destruct b
           end;
      (eapply beds_counted_trigger_put; [apply trigger_put_cases|];
       constructor; count_beds; auto;
       rewrite length_sorted_append || idtac; auto).
  - (* Request_granted *)
    constructor; count_beds; try lia. apply within_capacity_snoc; auto. lia.
  - (* Stay_timeout *)
    pose proof (length_remove_request (patient_id p) (users (beds s))).
    constructor; count_beds; try lia. apply within_capacity_snoc; auto. lia.
  - (* Release_processed *)
    eapply beds_counted_trigger_put; [apply trigger_put_cases|].
    constructor; count_beds; auto.
  - (* Process_ended *)
    constructor; count_beds; auto.
Qed.

(** *** The heap stays in order *)

Lemma entry_ltb_true a b : entry_ltb a b = true -> time_le a b.
Proof.
  unfold entry_ltb, time_le.
  destruct (Qcompare_spec (ev_time a) (ev_time b)) as [H|H|H]; intro E;
    try discriminate.
  - rewrite H. apply Qle_refl.
  - apply Qlt_le_weak, H.
Qed.

Lemma entry_ltb_false a b : entry_ltb a b = false -> time_le b a.
Proof.
  unfold entry_ltb, time_le.
  destruct (Qcompare_spec (ev_time a) (ev_time b)) as [H|H|H]; intro E;
    try discriminate.
  - rewrite H. apply Qle_refl.
  - apply Qlt_le_weak, H.
Qed.

Lemma time_le_trans a b c : time_le a b -> time_le b c -> time_le a c.
Proof. unfold time_le. apply Qle_trans. Qed.

Lemma heappush_sorted e q :
  StronglySorted time_le q -> StronglySorted time_le (heappush e q).
Proof.
  induction 1 as [|x q Hq IH Hx]; simpl.
  - constructor; constructor.
  - destruct (entry_ltb e x) eqn:E.
    + constructor; [constructor; assumption|].
      apply entry_ltb_true in E. constructor; [assumption|].
      eapply Forall_impl; [|exact Hx]. intros y Hy.
      eapply time_le_trans; eauto.
    + constructor; [assumption|].
      apply Forall_heappush. split; [|assumption].
      apply entry_ltb_false, E.
Qed.

Lemma heappush_until e q :
  Exists (is_until cfg) q -> Exists (is_until cfg) (heappush e q).
Proof.
  rewrite !Exists_exists. intros (x & Hin & Hx). exists x. split; [|assumption].
  apply In_heappush. right. assumption.
Qed.

Lemma schedule_heap_ok prio d c s :
  heap_ok cfg s -> heap_ok cfg (on_env (schedule prio d c) s).
Proof.
  intros [H1 H2]. constructor; project.
  - apply heappush_sorted, H1.
  - apply heappush_until, H2.
Qed.

Lemma heap_ok_same_env s s' : env s' = env s -> heap_ok cfg s -> heap_ok cfg s'.
Proof. intros E [H1 H2]. constructor; rewrite E; assumption. Qed.

Lemma heap_ok_on_hospital f s : heap_ok cfg s -> heap_ok cfg (on_hospital f s).
Proof. apply heap_ok_same_env. reflexivity. Qed.

Lemma heap_ok_on_beds f s : heap_ok cfg s -> heap_ok cfg (on_beds f s).
Proof. apply heap_ok_same_env. reflexivity. Qed.

Lemma heap_ok_next_draw s : heap_ok cfg s -> heap_ok cfg (next_draw s).
Proof. apply heap_ok_same_env. reflexivity. Qed.

Lemma heap_ok_note_admission id t s :
  heap_ok cfg s -> heap_ok cfg (note_admission id t s).
Proof. apply heap_ok_same_env. reflexivity. Qed.

Ltac heap_ok_frame H :=
  unfold monitor_occupancy, admit_patient_granted, admit_patient_leave,
         do_release, process_exit;
  repeat first [ exact H
               | apply schedule_heap_ok
               | apply heap_ok_on_hospital
               | apply heap_ok_on_beds
               | apply heap_ok_next_draw
               | apply heap_ok_note_admission ].

Lemma heap_ok_trigger_put s s' :
  trigger_put_spec cfg s s' -> heap_ok cfg s -> heap_ok cfg s'.
Proof.
  intros H Hs. destruct H as [|r rest Hq Hlt]; [assumption|].
  destruct Hs as [H1 H2]. constructor; project.
  - apply heappush_sorted, H1.
  - apply heappush_until, H2.
Qed.

Lemma heap_ok_generator_loop id s s' :
  generator_loop_spec cfg rng id s s' -> heap_ok cfg s -> heap_ok cfg s'.
Proof.
  intros H Hs. destruct H; heap_ok_frame Hs.
Qed.

Lemma heap_ok_initial : heap_ok cfg (initial_state cfg).
Proof.
  unfold initial_state. constructor; project.
  - repeat apply heappush_sorted. constructor.
  - apply Exists_exists. eexists. split.
    + apply In_heappush. left. reflexivity.
    + split; [reflexivity|]. project. ring.
Qed.

(** Popping the head: the rest is in order, starts no earlier, and still
    holds the [until] event unless that was the head. *)
Lemma heap_ok_pop s e q :
  heap_ok cfg s -> queue (env s) = e :: q -> ev_call e <> Until ->
  heap_ok cfg (on_env (fun v => {| now := ev_time e; eid := eid v; queue := q |}) s)
  /\ (ev_time e <= inject_Z (SIMULATION_TIME cfg))%Q.
Proof.
  intros [H1 H2] Hq Hne. rewrite Hq in H1, H2.
  inversion H1 as [|? ? Hs Hall]; subst.
  inversion H2 as [? ? [Hu _]|? ? Hex]; subst; [congruence|].
  split.
  - constructor; project; assumption.
  - apply Exists_exists in Hex. destruct Hex as (u & Hin & _ & Ht).
    rewrite Forall_forall in Hall. specialize (Hall u Hin).
    unfold time_le in Hall. rewrite <- Ht. exact Hall.
Qed.

Lemma heap_ok_step s s' :
  heap_ok cfg s -> step cfg rng s = Running s' -> heap_ok cfg s'.
Proof.
  intros Hs Hstep. apply running_inv in Hstep.
  destruct Hstep as (e & q & Hq & Hne & ->).
  destruct (heap_ok_pop Hs Hq Hne) as [Hp _]. clear Hs.
  destruct (ev_call e) eqn:Hc; cbn [run_callback]; try congruence;
    try solve [heap_ok_frame Hp].
  - eapply heap_ok_generator_loop; [apply patient_generator_loop_cases|exact Hp].
  - unfold patient_generator_resume, choice, exponential.
    eapply heap_ok_generator_loop; [apply patient_generator_loop_cases|].
    heap_ok_frame Hp.
  - unfold admit_patient_start, nmcr_outcome, rand, exponential.
    repeat match goal with
           | |- context [if ?b then _ else _] => destruct b
           | |- context [match ?b with Internal => _ | External => _ end] => destruct b
           end;
      (eapply heap_ok_trigger_put; [apply trigger_put_cases|];
       unfold do_request; heap_ok_frame Hp).
  - eapply heap_ok_trigger_put; [apply trigger_put_cases|exact Hp].
Qed.

End Invariants.

(* ------------------------------------------------------------------ *)
(** ** The run reaches the horizon *)

Lemma ceiling_drop x y :
  (y + 1 <= x)%Q -> (0 < x)%Q ->
  Z.to_nat (Qceiling y) < Z.to_nat (Qceiling x).
Proof.
  intros Hyx Hx.
  pose proof (Qceiling_lt y) as Hy. pose proof (Qle_ceiling x) as Hc.
  unfold Z.sub in Hy. rewrite inject_Z_plus, inject_Z_opp in Hy.
  assert (Hlt : (Qceiling y < Qceiling x)%Z).
  { rewrite Zlt_Qlt. change (inject_Z 1) with 1%Q in Hy. lra. }
  assert (Hpos : (0 < Qceiling x)%Z).
  { rewrite Zlt_Qlt. change (inject_Z 0) with 0%Q. lra. }
  lia.
Qed.

Section Termination.

Variable cfg : config.
Variable rng : generator.
Variable delta : Q.
Hypothesis Hpaced : paced cfg rng delta.

Lemma ticks_left_drop t :
  (t <= inject_Z (SIMULATION_TIME cfg))%Q ->
  ticks_left cfg (t + 1) < ticks_left cfg t.
Proof.
  intro H. unfold ticks_left. apply ceiling_drop; lra.
Qed.

Lemma arrivals_left_drop t n :
  (t < inject_Z (SIMULATION_TIME cfg))%Q ->
  ~ (sum_rates (ARRIVAL_RATES cfg) == 0)%Q ->
  arrivals_left cfg delta
    (t + 1 / sum_rates (ARRIVAL_RATES cfg) * standard_exponential rng n)
  < arrivals_left cfg delta t.
Proof.
  intros Ht Hnz. destruct Hpaced as [Hz|(Hr & Hd & He)]; [contradiction|].
  specialize (He n).
  set (R := sum_rates (ARRIVAL_RATES cfg)) in *.
  set (e := standard_exponential rng n) in *.
  set (T := inject_Z (SIMULATION_TIME cfg)) in *.
  unfold arrivals_left. fold R T. apply ceiling_drop.
  - assert (E : ((T - (t + 1 / R * e)) * R / delta == (T - t) * R / delta - e / delta)%Q).
    { field. split; lra. }
    rewrite E.
    assert (1 <= e / delta)%Q. { apply Qle_shift_div_l; lra. }
    lra.
  - apply Qlt_shift_div_l; [assumption|].
    rewrite Qmult_0_l. apply Qmult_lt_0_compat; lra.
Qed.

Ltac weigh :=
  unfold potential; project;
  rewrite ?total_weight_heappush, ?total_weight_cons, ?total_weight_nil,
          ?length_sorted_append;
  unfold events_owed; project; cbn [length];
  repeat match goal with H : ev_call _ = _ |- _ => rewrite H end.

Lemma potential_trigger_put s s' :
  trigger_put_spec cfg s s' -> potential cfg delta s' = potential cfg delta s.
Proof.
  intros [|r rest Hq Hlt]; [reflexivity|]. weigh. rewrite Hq. cbn [length]. lia.
Qed.

Lemma potential_generator_loop id s s' :
  generator_loop_spec cfg rng id s s' ->
  potential cfg delta s'
  <= potential cfg delta s + 1 + 6 * arrivals_left cfg delta (now (env s)).
Proof.
  intros [|Hlt Hnz]; weigh; [lia|].
  pose proof (arrivals_left_drop (draws s) Hlt Hnz). lia.
Qed.

(** Every processed event lowers the potential. *)
Lemma potential_step s s' :
  heap_ok cfg s -> step cfg rng s = Running s' ->
  potential cfg delta s' < potential cfg delta s.
Proof.
  intros Hs Hstep. apply running_inv in Hstep.
  destruct Hstep as (e & q & Hq & Hne & ->).
  destruct (heap_ok_pop Hs Hq Hne) as [_ Hle]. clear Hs.
  assert (Hpot : potential cfg delta s
                 = events_owed cfg delta e + total_weight (events_owed cfg delta) q
                   + 4 * length (put_queue (beds s))).
  { unfold potential. rewrite Hq. reflexivity. }
  rewrite Hpot. clear Hpot.
  destruct (ev_call e) eqn:Hc; cbn [run_callback]; try congruence.
  - pose proof (ticks_left_drop Hle). weigh. lia.
  - pose proof (ticks_left_drop Hle). weigh. lia.
  - match goal with
    | |- potential _ _ (patient_generator_loop _ _ ?i ?x) < _ =>
        pose proof (potential_generator_loop (patient_generator_loop_cases cfg rng i x)) as H
    end.
    revert H. weigh. lia.
  - unfold patient_generator_resume, choice, exponential.
    match goal with
    | |- potential _ _ (patient_generator_loop _ _ ?i ?x) < _ =>
        pose proof (potential_generator_loop (patient_generator_loop_cases cfg rng i x)) as H
    end.
    revert H. weigh. lia.
  - unfold admit_patient_start, nmcr_outcome, rand, exponential.
    repeat match goal with
           | |- context [if ?b then _ else _] => destruct b
           | |- context [match ?b with Internal => _ | External => _ end] => destruct b
           end;
      (unfold do_request;
       erewrite potential_trigger_put by apply trigger_put_cases;
       weigh; lia).
  - weigh. lia.
  - weigh. lia.
  - erewrite potential_trigger_put by apply trigger_put_cases. weigh. lia.
  - weigh. lia.
Qed.

(** While the [until] event waits in the heap the schedule is not empty. *)
Lemma heap_ok_not_empty s : heap_ok cfg s -> step cfg rng s <> EmptySchedule.
Proof.
  intros [_ H]. unfold step. destruct (queue (env s)) as [|e q].
  - inversion H.
  - destruct (ev_call e); discriminate.
Qed.

Lemma run_terminates fuel : forall s,
  heap_ok cfg s -> potential cfg delta s < fuel ->
  exists final, run cfg rng fuel s = Some final.
Proof.
  induction fuel as [|fuel IH]; intros s Hs Hlt; [lia|].
  simpl. destruct (step cfg rng s) as [s1|s1|] eqn:E.
  - apply IH.
    + eapply heap_ok_step; eauto.
    + pose proof (potential_step Hs E). lia.
  - eexists. reflexivity.
  - exfalso. revert E. apply heap_ok_not_empty, Hs.
Qed.

End Termination.

(* ------------------------------------------------------------------ *)
(** ** Arrival, admission and discharge times *)

Lemma entry_timed_mono t t' adm adm' e :
  (t' <= ev_time e)%Q -> incl adm adm' ->
  entry_timed t adm e -> entry_timed t' adm' e.
Proof.
  intros Ht Hincl [_ H]. split; [assumption|].
  destruct (ev_call e); auto.
  destruct H as (ta & Hin & Hrest). exists ta. split; auto.
Qed.

Lemma waiting_timed_mono t t' r :
  (t <= t')%Q -> waiting_timed t r -> waiting_timed t' r.
Proof.
  intros Ht [H1 H2]. split; [|assumption]. eapply Qle_trans; eauto.
Qed.

Lemma discharged_mono adm adm' r :
  incl adm adm' -> discharged adm r -> discharged adm' r.
Proof.
  intros Hincl (p & ta & Hin & Hrest). exists p, ta. split; auto.
Qed.

Lemma sum_rates_unfold rates :
  sum_rates rates = (0 + rates Medical + rates Surgical)%Q.
Proof. reflexivity. Qed.

Section Clock.

Variable cfg : config.
Variable rng : generator.
Hypothesis Hwb : widget_bounds cfg.
Hypothesis Hv : variates_ok rng.

Lemma sum_rates_nonneg : (0 <= sum_rates (ARRIVAL_RATES cfg))%Q.
Proof.
  rewrite sum_rates_unfold.
  pose proof (wb_rate Hwb Medical). pose proof (wb_rate Hwb Surgical). lra.
Qed.

Lemma inter_arrival_nonneg n :
  ~ (sum_rates (ARRIVAL_RATES cfg) == 0)%Q ->
  (0 <= 1 / sum_rates (ARRIVAL_RATES cfg) * standard_exponential rng n)%Q.
Proof.
  intro Hnz. pose proof sum_rates_nonneg as Hr.
  pose proof (exponential_nonneg Hv n) as He.
  apply Qmult_le_0_compat; [|assumption].
  apply Qle_shift_div_l; lra.
Qed.

Lemma length_of_stay_nonneg ty n :
  (0 <= MEAN_LOS cfg ty * standard_exponential rng n * COMPLEXITY_FACTORS cfg ty)%Q.
Proof.
  pose proof (wb_los Hwb ty). pose proof (wb_cplx Hwb ty).
  pose proof (exponential_nonneg Hv n).
  repeat apply Qmult_le_0_compat; lra.
Qed.

Lemma nmcr_outcome_total los s :
  (0 <= los)%Q ->
  let '(_, _, total, s') := nmcr_outcome cfg rng los s in
  (0 <= total)%Q /\ env s' = env s /\ beds s' = beds s /\
  hospital s' = hospital s /\ admissions s' = admissions s.
Proof.
  intro Hlos. unfold nmcr_outcome, rand, exponential.
  pose proof (wb_idelay Hwb). pose proof (wb_edelay Hwb).
  pose proof (exponential_nonneg Hv (S (S (draws s)))) as He.
  destruct (Qltb _ _); [|auto 6].
  destruct (Qltb _ _); project; (split; [|auto]).
  - assert (0 <= NMCR_INTERNAL_DELAY cfg * standard_exponential rng (S (S (draws s))))%Q
      by (apply Qmult_le_0_compat; lra).
    lra.
  - assert (0 <= NMCR_EXTERNAL_DELAY cfg * standard_exponential rng (S (S (draws s))))%Q
      by (apply Qmult_le_0_compat; lra).
    lra.
Qed.

Lemma clock_ok_schedule prio d c s :
  clock_ok s ->
  entry_timed (now (env s)) (admissions s)
    {| ev_time := now (env s) + d; ev_prio := prio; ev_eid := eid (env s);
       ev_call := c |} ->
  clock_ok (on_env (schedule prio d c) s).
Proof.
  intros [H1 H2 H3] He. constructor; project; auto.
  apply Forall_heappush. auto.
Qed.

Lemma clock_ok_same s s' :
  env s' = env s -> put_queue (beds s') = put_queue (beds s) ->
  patients (hospital s') = patients (hospital s) ->
  admissions s' = admissions s ->
  clock_ok s -> clock_ok s'.
Proof.
  intros E1 E2 E3 E4 [H1 H2 H3]. constructor; rewrite ?E1, ?E2, ?E3, ?E4; auto.
Qed.

Lemma clock_ok_trigger_put s s' :
  trigger_put_spec cfg s s' -> clock_ok s -> clock_ok s'.
Proof.
  intros H Hs. destruct H as [|r rest Hq Hlt]; [assumption|].
  destruct Hs as [H1 H2 H3]. rewrite Hq in H2.
  inversion H2 as [|? ? [Ha Ht] Hrest]; subst.
  constructor; project; auto.
  apply Forall_heappush. split; [|assumption].
  split; project; [lra|]. split; [lra|assumption].
Qed.

Lemma clock_ok_generator_loop id s s' :
  generator_loop_spec cfg rng id s s' -> clock_ok s -> clock_ok s'.
Proof.
  intros H Hs. destruct H as [|Hlt Hnz].
  - apply clock_ok_schedule; [assumption|]. split; project; [lra|exact I].
  - apply clock_ok_schedule.
    + eapply clock_ok_same; [| | | |exact Hs]; reflexivity.
    + pose proof (inter_arrival_nonneg (draws s) Hnz).
      split; project; [lra|exact I].
Qed.

Lemma clock_ok_initial : clock_ok (initial_state cfg).
Proof.
  pose proof (wb_time Hwb) as HT.
  assert (0 <= inject_Z (SIMULATION_TIME cfg))%Q.
  { change 0%Q with (inject_Z 0). rewrite <- Zle_Qle. lia. }
  unfold initial_state. constructor; project; auto.
  rewrite !Forall_heappush. repeat split; project; auto; lra.
Qed.

(** Popping the head of the heap: the clock moves to its time, which no
    other entry precedes. *)
Lemma clock_ok_pop s e q :
  heap_ok cfg s -> clock_ok s -> queue (env s) = e :: q ->
  entry_timed (now (env s)) (admissions s) e /\
  clock_ok (on_env (fun v => {| now := ev_time e; eid := eid v; queue := q |}) s).
Proof.
  intros [Hsort _] [H1 H2 H3] Hq. rewrite Hq in *.
  inversion Hsort as [|? ? _ Hle]; subst.
  inversion H1 as [|? ? He Hrest]; subst.
  split; [assumption|].
  constructor; project; auto.
  - rewrite Forall_forall in *. intros x Hx.
    eapply entry_timed_mono; [apply Hle, Hx|apply incl_refl|apply Hrest, Hx].
  - eapply Forall_impl; [|exact H2]. intros r. apply waiting_timed_mono, He.
Qed.

Lemma clock_ok_step s s' :
  heap_ok cfg s -> clock_ok s -> step cfg rng s = Running s' -> clock_ok s'.
Proof.
  intros Hheap Hs Hstep. apply running_inv in Hstep.
  destruct Hstep as (e & q & Hq & Hne & ->).
  destruct (clock_ok_pop Hheap Hs Hq) as [[Hnow Hhead] Hp]. clear Hs Hheap.
  set (s0 := on_env _ s) in *.
  destruct (ev_call e) eqn:Hc; cbn [run_callback]; try congruence.
  - (* Initialize_monitor *)
    apply clock_ok_schedule.
    + eapply clock_ok_same; [| | | |exact Hp]; reflexivity.
    + split; project; [lra|exact I].
  - (* Monitor_timeout *)
    apply clock_ok_schedule.
    + eapply clock_ok_same; [| | | |exact Hp]; reflexivity.
    + split; project; [lra|exact I].
  - (* Initialize_generator *)
    eapply clock_ok_generator_loop; [apply patient_generator_loop_cases|exact Hp].
  - (* Arrival_timeout *)
    unfold patient_generator_resume, choice, exponential.
    eapply clock_ok_generator_loop; [apply patient_generator_loop_cases|].
    apply clock_ok_schedule.
    + eapply clock_ok_same; [| | | |exact Hp]; reflexivity.
    + split; project; [lra|]. apply length_of_stay_nonneg.
  - (* Initialize_patient *)
    unfold admit_patient_start.
    pose proof (nmcr_outcome_total s0 Hhead) as Ho.
    destruct (nmcr_outcome cfg rng los s0) as [[[has why] total] s1].
    destruct Ho as (Htot & E1 & E2 & E3 & E4).
    eapply clock_ok_trigger_put; [apply trigger_put_cases|].
    assert (Hs1 : clock_ok s1).
    { eapply clock_ok_same; [| | | |exact Hp]; try assumption; congruence. }
    destruct Hs1 as [H1 H2 H3]. constructor; project; auto.
    apply Forall_sorted_append. split; [|assumption].
    split; project; [rewrite E1; apply Qle_refl|assumption].
  - (* Request_granted *)
    destruct Hhead as [Harr Htot]. destruct Hp as [H1 H2 H3].
    unfold admit_patient_granted. constructor; project.
    + apply Forall_heappush. split.
      * split; project; [subst s0; project; lra|].
        exists (now (env s0)). split; [apply in_or_app; right; left; reflexivity|].
        split; [subst s0; project; assumption|reflexivity].
      * eapply Forall_impl; [|exact H1]. intros x Hx.
        eapply entry_timed_mono; [apply Hx| |exact Hx].
        apply incl_appl, incl_refl.
    + assumption.
    + eapply Forall_impl; [|exact H3]. intros x.
      apply discharged_mono, incl_appl, incl_refl.
  - (* Stay_timeout *)
    destruct Hhead as (ta & Hin & Harr & Heq). destruct Hp as [H1 H2 H3].
    unfold admit_patient_leave. constructor; project.
    + rewrite !Forall_heappush. repeat split; project; auto; lra.
    + assumption.
    + apply Forall_app. split; [assumption|]. constructor; [|constructor].
      exists p, ta. subst s0. project. auto.
  - (* Release_processed *)
    eapply clock_ok_trigger_put; [apply trigger_put_cases|exact Hp].
Qed.

End Clock.

(* ------------------------------------------------------------------ *)
(** ** The frames of the patient processes *)

Section Frames.

Variable cfg : config.
Variable rng : generator.
Variable P : patient -> Prop.
Hypothesis Hnew : forall id ty los s, P (new_frame cfg rng id ty los s).

Lemma admit_patient_start_request id ty los s :
  exists s1,
    admit_patient_start cfg rng id ty los s
    = do_request cfg (new_frame cfg rng id ty los s) s1 /\
    env s1 = env s /\ beds s1 = beds s /\ hospital s1 = hospital s /\
    admissions s1 = admissions s /\ draws s <= draws s1.
Proof.
  unfold admit_patient_start, new_frame, nmcr_outcome, rand, exponential.
  repeat match goal with
         | |- context [if ?b then _ else _] => destruct b
         | |- context [match ?b with Internal => _ | External => _ end] => destruct b
         end;
    eexists; (split; [reflexivity|]); project; repeat split; lia.
Qed.

Lemma all_frames_same s s' :
  queue (env s') = queue (env s) -> put_queue (beds s') = put_queue (beds s) ->
  patients (hospital s') = patients (hospital s) ->
  all_frames P s -> all_frames P s'.
Proof.
  intros E1 E2 E3 [H1 H2 H3]. constructor; rewrite ?E1, ?E2, ?E3; auto.
Qed.

Lemma all_frames_schedule prio d c s :
  all_frames P s ->
  frame_of_entry P {| ev_time := now (env s) + d; ev_prio := prio;
                      ev_eid := eid (env s); ev_call := c |} ->
  all_frames P (on_env (schedule prio d c) s).
Proof.
  intros [H1 H2 H3] He. constructor; project; auto.
  apply Forall_heappush. auto.
Qed.

Lemma all_frames_trigger_put s s' :
  trigger_put_spec cfg s s' -> all_frames P s -> all_frames P s'.
Proof.
  intros H Hs. destruct H as [|r rest Hq Hlt]; [assumption|].
  destruct Hs as [H1 H2 H3]. rewrite Hq in H1.
  inversion H1; subst. constructor; project; auto.
  apply Forall_heappush. split; assumption.
Qed.

Lemma all_frames_generator_loop id s s' :
  generator_loop_spec cfg rng id s s' -> all_frames P s -> all_frames P s'.
Proof.
  intros H Hs. destruct H as [|Hlt Hnz].
  - apply all_frames_schedule; [assumption|exact I].
  - apply all_frames_schedule; [|exact I].
    eapply all_frames_same; [| | |exact Hs]; reflexivity.
Qed.

Lemma all_frames_initial : all_frames P (initial_state cfg).
Proof.
  unfold initial_state. constructor; project; auto.
  rewrite !Forall_heappush. repeat split; auto; exact I.
Qed.

Lemma all_frames_step s s' :
  all_frames P s -> step cfg rng s = Running s' -> all_frames P s'.
Proof.
  intros Hs Hstep. apply running_inv in Hstep.
  destruct Hstep as (e & q & Hq & Hne & ->).
  destruct Hs as [H1 H2 H3]. rewrite Hq in H2.
  inversion H2 as [|? ? Hhead Hrest]; subst.
  set (s0 := on_env (fun v => {| now := ev_time e; eid := eid v; queue := q |}) s).
  assert (Hp : all_frames P s0) by (constructor; assumption).
  unfold frame_of_entry in Hhead.
  destruct (ev_call e) eqn:Hc; cbn [run_callback]; try congruence.
  - apply all_frames_schedule; [|exact I].
    eapply all_frames_same; [| | |exact Hp]; reflexivity.
  - apply all_frames_schedule; [|exact I].
    eapply all_frames_same; [| | |exact Hp]; reflexivity.
  - eapply all_frames_generator_loop; [apply patient_generator_loop_cases|exact Hp].
  - unfold patient_generator_resume, choice, exponential.
    eapply all_frames_generator_loop; [apply patient_generator_loop_cases|].
    apply all_frames_schedule; [|exact I].
    eapply all_frames_same; [| | |exact Hp]; reflexivity.
  - destruct (admit_patient_start_request id ty los s0)
      as (s1 & -> & E1 & E2 & E3 & _).
    eapply all_frames_trigger_put; [apply trigger_put_cases|].
    assert (Hs1 : all_frames P s1).
    { eapply all_frames_same; [| | |exact Hp]; congruence. }
    destruct Hs1 as [G1 G2 G3]. constructor; project; auto.
    apply Forall_sorted_append. split; [|assumption]. apply Hnew.
  - unfold admit_patient_granted. apply all_frames_schedule; [|exact Hhead].
    eapply all_frames_same; [| | |exact Hp]; reflexivity.
  - unfold admit_patient_leave, do_release, process_exit.
    apply all_frames_schedule; [|exact I].
    destruct Hp as [G1 G2 G3]. constructor; project; auto.
    + apply Forall_heappush. split; [exact I|assumption].
    + apply Forall_app. split; [assumption|]. constructor; [|constructor].
      exists p. split; [assumption|reflexivity].
  - eapply all_frames_trigger_put; [apply trigger_put_cases|exact Hp].
Qed.

End Frames.

(** The frame built at arrival holds the outcome of the draws made then. *)
Lemma new_frame_drawn cfg rng id ty los s :
  frame_drawn cfg rng (new_frame cfg rng id ty los s).
Proof.
  exists (draws s). unfold new_frame, nmcr_outcome, nmcr_drawn, rand, exponential.
  project.
  destruct (Qltb (random_sample rng (draws s)) _); project; [|auto].
  destruct (Qltb (random_sample rng (S (draws s))) _); project;
    (split; [reflexivity|]); split; unfold mean_delay; ring.
Qed.

(* ------------------------------------------------------------------ *)
(** ** Two generators with the same stream *)

Section SameStream.

Variable cfg : config.
Variables g1 g2 : generator.
Hypothesis Hsame : same_stream g1 g2.

Lemma patient_generator_loop_ext id s :
  patient_generator_loop cfg g1 id s = patient_generator_loop cfg g2 id s.
Proof.
  destruct Hsame as [_ He].
  unfold patient_generator_loop, exponential. rewrite He. reflexivity.
Qed.

Lemma nmcr_outcome_ext los s :
  nmcr_outcome cfg g1 los s = nmcr_outcome cfg g2 los s.
Proof.
  destruct Hsame as [Hu He].
  unfold nmcr_outcome, rand, exponential. project.
  rewrite !Hu, !He. reflexivity.
Qed.

Lemma run_callback_ext c s : run_callback cfg g1 c s = run_callback cfg g2 c s.
Proof.
  destruct Hsame as [Hu He].
  destruct c; cbn [run_callback]; try reflexivity.
  - apply patient_generator_loop_ext.
  - unfold patient_generator_resume, choice, exponential.
    rewrite Hu, He. apply patient_generator_loop_ext.
  - unfold admit_patient_start. rewrite nmcr_outcome_ext. reflexivity.
Qed.

Lemma step_ext s : step cfg g1 s = step cfg g2 s.
Proof.
  unfold step. destruct (queue (env s)) as [|e q]; [reflexivity|].
  destruct (ev_call e) eqn:Hc; try reflexivity;
    rewrite <- Hc, run_callback_ext; reflexivity.
Qed.

Lemma run_ext fuel : forall s, run cfg g1 fuel s = run cfg g2 fuel s.
Proof.
  induction fuel as [|fuel IH]; intro s; simpl; [reflexivity|].
  rewrite step_ext. destruct (step cfg g2 s); auto.
Qed.

End SameStream.

(** More fuel does not change what a run returns. *)
Lemma run_more_fuel cfg rng fuel : forall k s final,
  run cfg rng fuel s = Some final -> run cfg rng (fuel + k) s = Some final.
Proof.
  induction fuel as [|fuel IH]; simpl; intros k s final H; [discriminate|].
  destruct (step cfg rng s); auto.
Qed.

Lemma run_unique cfg rng fuel1 fuel2 s f1 f2 :
  run cfg rng fuel1 s = Some f1 -> run cfg rng fuel2 s = Some f2 -> f1 = f2.
Proof.
  intros H1 H2.
  apply (run_more_fuel _ _ _ fuel2) in H1.
  apply (run_more_fuel _ _ _ fuel1) in H2.
  rewrite Nat.add_comm in H2. congruence.
Qed.

(* ------------------------------------------------------------------ *)
(** ** What callbacks push, and what they do to the hospital *)

Section Pushes.

Variable cfg : config.
Variable rng : generator.

Ltac pushed := repeat split; project; (discriminate || reflexivity || auto).

Lemma trigger_put_pushes c s s' :
  trigger_put_spec cfg s s' ->
  hospital s' = hospital s /\
  exists new, Permutation (queue (env s')) (new ++ queue (env s)) /\
              Forall (pushed_by c) new.
Proof.
  intros [|r rest Hq Hlt]; (split; [reflexivity|]).
  - exists []. split; [reflexivity|constructor].
  - eexists [_]. project. split; [apply heappush_perm|].
    constructor; [|constructor]. pushed.
Qed.

Lemma generator_loop_pushes c id s s' :
  is_generator c = true ->
  generator_loop_spec cfg rng id s s' ->
  hospital s' = hospital s /\
  exists new, Permutation (queue (env s')) (new ++ queue (env s)) /\
              Forall (pushed_by c) new.
Proof.
  intros Hg [|Hlt Hnz]; (split; [reflexivity|]); eexists [_]; project;
    (split; [apply heappush_perm|]);
    (constructor; [|constructor]); pushed.
Qed.

(** Whatever runs pushes only what [pushed_by] allows. *)
Lemma callback_pushes c s :
  exists new,
    Permutation (queue (env (run_callback cfg rng c s))) (new ++ queue (env s)) /\
    Forall (pushed_by c) new.
Proof.
  destruct c; cbn [run_callback].
  - unfold monitor_occupancy. eexists [_]. project.
    split; [apply heappush_perm|]. constructor; [|constructor]. pushed.
  - unfold monitor_occupancy. eexists [_]. project.
    split; [apply heappush_perm|]. constructor; [|constructor]. pushed.
  - eapply generator_loop_pushes; [reflexivity|apply patient_generator_loop_cases].
  - unfold patient_generator_resume, choice, exponential.
    match goal with
    | |- context [patient_generator_loop _ _ ?i ?x] =>
        destruct (@generator_loop_pushes (Arrival_timeout next_patient_id) i x _
                    eq_refl (patient_generator_loop_cases cfg rng i x))
          as (_ & new & Hperm & Hall)
    end.
    eexists (new ++ [_]). split.
    + eapply perm_trans; [exact Hperm|]. clear Hperm. project.
      rewrite <- app_assoc. apply Permutation_app_head. apply heappush_perm.
    + apply Forall_app. split; [assumption|].
      constructor; [|constructor]. pushed.
  - destruct (admit_patient_start_request cfg rng id ty los s)
      as (s1 & -> & E1 & _).
    unfold do_request.
    match goal with
    | |- context [trigger_put _ ?x] =>
        destruct (trigger_put_pushes (Initialize_patient id ty los)
                    (trigger_put_cases cfg x))
          as (_ & new & Hperm & Hall)
    end.
    exists new. split; [|assumption].
    eapply perm_trans; [exact Hperm|]. clear Hperm. project. rewrite E1. reflexivity.
  - unfold admit_patient_granted. eexists [_]. project.
    split; [apply heappush_perm|].
    constructor; [|constructor]. pushed.
  - unfold admit_patient_leave. eexists [_; _]. project.
    split.
    + eapply perm_trans; [apply heappush_perm|]. apply perm_skip, heappush_perm.
    + constructor; [|constructor; [|constructor]]; pushed.
  - eapply trigger_put_pushes, trigger_put_cases.
  - exists []. split; [reflexivity|constructor].
  - exists []. split; [reflexivity|constructor].
Qed.

Lemma trigger_put_hospital s : hospital (trigger_put cfg s) = hospital s.
Proof.
  destruct (trigger_put_cases cfg s); reflexivity.
Qed.

Lemma patient_generator_loop_hospital id s :
  hospital (patient_generator_loop cfg rng id s) = hospital s.
Proof.
  destruct (patient_generator_loop_cases cfg rng id s); reflexivity.
Qed.

Lemma admit_patient_start_hospital id ty los s :
  hospital (admit_patient_start cfg rng id ty los s) = hospital s.
Proof.
  destruct (admit_patient_start_request cfg rng id ty los s)
    as (s1 & -> & _ & _ & E & _).
  unfold do_request. rewrite trigger_put_hospital. exact E.
Qed.


(** Samples are only ever appended. *)
Lemma step_keeps_samples s s' :
  step cfg rng s = Running s' -> samples_kept s s'.
Proof.
  intros Hstep. apply running_inv in Hstep.
  destruct Hstep as (e & q & Hq & _ & ->). unfold samples_kept.
  destruct (ev_call e) eqn:Hc; cbn [run_callback];
    rewrite ?patient_generator_loop_hospital, ?admit_patient_start_hospital,
            ?trigger_put_hospital;
    unfold patient_generator_resume, choice, exponential;
    rewrite ?patient_generator_loop_hospital;
    project;
    try (exists [], []; rewrite !app_nil_r; split; reflexivity);
    try (eexists [_], [_]; split; reflexivity).
Qed.

Lemma samples_kept_refl s : samples_kept s s.
Proof. exists [], []. rewrite !app_nil_r. split; reflexivity. Qed.

Lemma samples_kept_trans s1 s2 s3 :
  samples_kept s1 s2 -> samples_kept s2 s3 -> samples_kept s1 s3.
Proof.
  intros (t1 & c1 & E1 & E2) (t2 & c2 & E3 & E4).
  exists (t1 ++ t2), (c1 ++ c2). rewrite E3, E4, E1, E2, !app_assoc.
  split; reflexivity.
Qed.

Lemma run_keeps_samples fuel : forall s final,
  run cfg rng fuel s = Some final -> samples_kept s final.
Proof.
  induction fuel as [|fuel IH]; simpl; intros s final H; [discriminate|].
  destruct (step cfg rng s) as [s1|s1|] eqn:E; try discriminate.
  - eapply samples_kept_trans; [apply step_keeps_samples, E|apply IH, H].
  - inversion H. subst. apply stop_keeps in E. destruct E as (E & _).
    exists [], []. rewrite !app_nil_r, E. split; reflexivity.
Qed.

(** A run from the initial state passes through every state that [after]
    gives, as long as it has not returned. *)
Lemma run_through fuel final : forall n s,
  run cfg rng fuel (initial_state cfg) = Some final ->
  after cfg rng n = Some s ->
  exists fuel', run cfg rng fuel' s = Some final.
Proof.
  intros n. induction n as [|n IH]; simpl; intros s Hrun Hn.
  - inversion Hn. subst. exists fuel. exact Hrun.
  - destruct (after cfg rng n) as [s0|] eqn:E0; [|discriminate].
    destruct (step cfg rng s0) as [s1| |] eqn:E1; try discriminate.
    inversion Hn. subst.
    destruct (IH s0 Hrun eq_refl) as [[|f] Hf]; [discriminate|].
    simpl in Hf. rewrite E1 in Hf. exists f. exact Hf.
Qed.

End Pushes.

(* ------------------------------------------------------------------ *)
(** ** The recorder samples every day *)

Section Monitor.

Variable cfg : config.
Variable rng : generator.

Lemma monitor_ok_initial : monitor_ok cfg rng (initial_state cfg).
Proof.
  constructor.
  - exists 0. reflexivity.
  - unfold initial_state. project. apply Exists_exists. eexists. split.
    + apply In_heappush. right. apply In_heappush. right.
      apply In_heappush. left. reflexivity.
    + reflexivity.
  - unfold initial_state. project. rewrite !Forall_heappush.
    repeat split; try constructor; intro H; try discriminate.
    exists 0%Z. project. split; [lia|]. split; [reflexivity|]. intros j Hj. lia.
  - unfold initial_state. project. rewrite !Forall_heappush.
    repeat split; try constructor; intro H; try discriminate.
    project. ring.
Qed.

Lemma monitor_turn s e q :
  queue (env s) = e :: q -> is_monitor (ev_call e) = true ->
  exists s',
    step cfg rng s = Running s' /\
    queue (env s') = heappush {| ev_time := ev_time e + 1; ev_prio := NORMAL;
                                 ev_eid := eid (env s);
                                 ev_call := Monitor_timeout |} q /\
    times (hospital s') = times (hospital s) ++ [ev_time e] /\
    occupancy (hospital s') = occupancy (hospital s) ++ [occupied_beds (hospital s)] /\
    occupied_beds (hospital s') = occupied_beds (hospital s).
Proof.
  intros Hq Hm. unfold step. rewrite Hq.
  destruct (ev_call e); try discriminate; eexists; (split; [reflexivity|]);
    cbn [run_callback]; project; repeat split; reflexivity.
Qed.

Lemma monitor_ok_step s s' :
  monitor_ok cfg rng s -> step cfg rng s = Running s' -> monitor_ok cfg rng s'.
Proof.
  intros [[n Hn] Hex Hdue Hunt] Hstep.
  assert (Hafter : after cfg rng (S n) = Some s').
  { simpl. rewrite Hn, Hstep. reflexivity. }
  destruct (@running_inv cfg rng s s' Hstep) as (e & q & Hq & Hne & Es').
  rewrite Hq in Hex, Hdue, Hunt.
  inversion Hdue as [|? ? Hde Hdq]; subst.
  inversion Hunt as [|? ? _ Huq]; subst.
  destruct (is_monitor (ev_call e)) eqn:Hm.
  - (* the recorder's turn *)
    destruct (@monitor_turn s e q Hq Hm) as (s1 & Hs1 & Eq & Et & Eo & Ec).
    rewrite Hstep in Hs1. inversion Hs1; subst s1. clear Hs1.
    constructor.
    + exists (S n). exact Hafter.
    + rewrite Eq. apply Exists_exists. eexists. split.
      * apply In_heappush. left. reflexivity.
      * reflexivity.
    + rewrite Eq. apply Forall_heappush. split; [|assumption].
      intros _. destruct (Hde Hm) as (k & Hk & Ek & Hprev).
      exists (k + 1)%Z. project. split; [lia|]. split.
      * rewrite inject_Z_plus, Ek. reflexivity.
      * intros j Hj. destruct (Z.eq_dec j k) as [->|Hjk]; [|apply Hprev; lia].
        exists n, s, (run_callback cfg rng (ev_call e)
                        (on_env (fun v => {| now := ev_time e; eid := eid v;
                                             queue := q |}) s)), e, q.
        repeat split; assumption.
    + rewrite Eq. apply Forall_heappush. split; [|assumption].
      intro H. discriminate.
  - (* any other callback *)
    destruct (@callback_pushes cfg rng (ev_call e)
                (on_env (fun v => {| now := ev_time e; eid := eid v; queue := q |}) s))
      as (new & Hperm & Hnew).
    project.
    match type of Hperm with Permutation (queue (env ?t)) _ => set (s' := t) in * end.
    assert (Hin : forall x, In x (queue (env s')) -> In x new \/ In x q).
    { intros x Hx. apply (Permutation_in _ Hperm) in Hx.
      apply in_app_or in Hx. exact Hx. }
    rewrite Forall_forall in Hnew, Hdq, Huq.
    constructor.
    + exists (S n). exact Hafter.
    + inversion Hex as [? ? Hhead|? ? Htail]; subst; [congruence|].
      apply Exists_exists in Htail. destruct Htail as (x & Hx & Hmx).
      apply Exists_exists. exists x. split; [|assumption].
      apply (Permutation_in _ (Permutation_sym Hperm)).
      apply in_or_app. right. exact Hx.
    + apply Forall_forall. intros x Hx. destruct (Hin x Hx) as [H|H].
      * intro Hmx. destruct (Hnew x H) as (_ & Hc & _). specialize (Hc Hmx). congruence.
      * apply Hdq, H.
    + apply Forall_forall. intros x Hx. destruct (Hin x Hx) as [H|H].
      * intro Hu. destruct (Hnew x H) as (Hc & _). contradiction.
      * apply Huq, H.
Qed.

Lemma after_monitor_ok n s : after cfg rng n = Some s -> monitor_ok cfg rng s.
Proof.
  revert n s. apply after_invariant.
  - apply monitor_ok_initial.
  - apply monitor_ok_step.
Qed.

(** When the [until] event stops the run the clock shows the horizon and
    the recorder has sampled every day before it. *)
Lemma stopped_at_horizon n s final :
  after cfg rng n = Some s -> step cfg rng s = StopSimulation final ->
  (now (env final) == inject_Z (SIMULATION_TIME cfg))%Q /\
  forall k, (0 <= k < SIMULATION_TIME cfg)%Z -> sampled_at cfg rng k.
Proof.
  intros Hn Hstop.
  pose proof (@after_monitor_ok n s Hn) as [_ Hex Hdue Hunt].
  apply stop_keeps in Hstop.
  destruct Hstop as (_ & _ & _ & _ & e & Hq & Hc & Hnow).
  rewrite Hq in Hex, Hdue, Hunt.
  inversion Hunt as [|? ? Hue _]; subst. specialize (Hue Hc).
  split; [rewrite Hnow; exact Hue|].
  inversion Hex as [? ? Hhead|? ? Htail]; subst.
  { rewrite Hc in Hhead. discriminate. }
  apply Exists_exists in Htail. destruct Htail as (x & Hx & Hmx).
  inversion Hdue as [|? ? _ Hdq]; subst.
  rewrite Forall_forall in Hdq. destruct (Hdq x Hx Hmx) as (k & Hk & Ek & Hprev).
  assert (Hsorted : StronglySorted time_le (queue (env s))).
  { assert (Hh : heap_ok cfg s); [|apply Hh].
    clear - Hn. revert n s Hn. apply after_invariant.
    - apply heap_ok_initial.
    - apply heap_ok_step. }
  rewrite Hq in Hsorted. inversion Hsorted as [|? ? _ Hle]; subst.
  rewrite Forall_forall in Hle. specialize (Hle x Hx). unfold time_le in Hle.
  rewrite Hue, Ek, <- Zle_Qle in Hle.
  intros j Hj. apply Hprev. lia.
Qed.

End Monitor.

(* ------------------------------------------------------------------ *)
(** ** A run without arrivals *)

Section Quiet.

Variable cfg : config.
Variable rng : generator.
Hypothesis Hzero : (sum_rates (ARRIVAL_RATES cfg) == 0)%Q.

Lemma quiet_initial : quiet (initial_state cfg).
Proof.
  unfold initial_state. constructor; project; auto.
  rewrite !Forall_heappush. repeat split; auto.
Qed.

Lemma quiet_step s s' :
  quiet s -> step cfg rng s = Running s' -> quiet s'.
Proof.
  intros [H1 H2 H3 H4 H5 H6 H7 H8] Hstep. apply running_inv in Hstep.
  destruct Hstep as (e & q & Hq & Hne & ->). rewrite Hq in H1.
  inversion H1 as [|? ? Hhead Hrest]; subst.
  destruct (ev_call e) eqn:Hc; try discriminate; cbn [run_callback].
  - constructor; project; auto.
    + apply Forall_heappush. split; [reflexivity|assumption].
    + apply Forall_app. split; [assumption|]. rewrite H4. repeat constructor.
  - constructor; project; auto.
    + apply Forall_heappush. split; [reflexivity|assumption].
    + apply Forall_app. split; [assumption|]. rewrite H4. repeat constructor.
  - match goal with
    | |- quiet (patient_generator_loop _ _ ?i ?x) =>
        destruct (patient_generator_loop_cases cfg rng i x) as [|_ Hnz]
    end; [|contradiction].
    constructor; project; auto.
    apply Forall_heappush. split; [reflexivity|assumption].
  - constructor; project; auto.
  - congruence.
Qed.

End Quiet.

(* ------------------------------------------------------------------ *)
(** ** The calculator page *)

Section Calculator.

Import Occupancy_and_LOS.

Variable i : inputs.




End Calculator.

(* ------------------------------------------------------------------ *)
(** ** Patient identifiers are not shared *)

Lemma flat_map_heappush e q :
  Permutation (flat_map entry_ids (heappush e q))
              (entry_ids e ++ flat_map entry_ids q).
Proof.
  change (entry_ids e ++ flat_map entry_ids q) with (flat_map entry_ids (e :: q)).
  apply Permutation_flat_map, heappush_perm.
Qed.

Lemma live_ids_same s s' :
  queue (env s') = queue (env s) -> put_queue (beds s') = put_queue (beds s) ->
  patients (hospital s') = patients (hospital s) ->
  live_ids s' = live_ids s.
Proof.
  intros E1 E2 E3. unfold live_ids, waiting_ids, logged_ids.
  rewrite E1, E2, E3. reflexivity.
Qed.

Lemma live_ids_schedule prio d c s :
  Permutation (live_ids (on_env (schedule prio d c) s)) (call_ids c ++ live_ids s).
Proof.
  unfold live_ids, waiting_ids, logged_ids. project.
  rewrite (app_assoc (call_ids c)). apply Permutation_app_tail.
  apply flat_map_heappush.
Qed.

Lemma live_ids_pop s e q :
  queue (env s) = e :: q ->
  live_ids s
  = entry_ids e
    ++ live_ids (on_env (fun v => {| now := ev_time e; eid := eid v; queue := q |}) s).
Proof.
  intro Hq. unfold live_ids, waiting_ids, logged_ids. project. rewrite Hq.
  cbn [flat_map]. rewrite <- app_assoc. reflexivity.
Qed.

Lemma generator_weight_zero q :
  total_weight generator_weight q = 0 ->
  Forall (fun x => is_generator (ev_call x) = false) q.
Proof.
  induction q as [|x q IH]; [constructor|].
  rewrite total_weight_cons. unfold generator_weight at 1.
  destruct (is_generator (ev_call x)) eqn:E; intro H; [lia|].
  constructor; [assumption|]. apply IH. lia.
Qed.

Lemma generator_weight_none q :
  Forall (fun x => is_generator (ev_call x) = false) q ->
  total_weight generator_weight q = 0.
Proof.
  induction 1 as [|x q Hx _ IH]; [reflexivity|].
  rewrite total_weight_cons, IH. unfold generator_weight. rewrite Hx. reflexivity.
Qed.

Lemma next_id_from_other k x :
  is_generator (ev_call x) = false -> next_id_from k x.
Proof.
  unfold next_id_from. destruct (ev_call x); try discriminate; intros; exact I.
Qed.

Section Identifiers.

Variable cfg : config.
Variable rng : generator.

Lemma new_frame_id id ty los s :
  patient_id (new_frame cfg rng id ty los s) = id.
Proof.
  unfold new_frame, nmcr_outcome, rand, exponential.
  repeat match goal with
         | |- context [if ?b then _ else _] => destruct b
         | |- context [match ?b with Internal => _ | External => _ end] => destruct b
         end; reflexivity.
Qed.

Lemma live_ids_trigger_put s s' :
  trigger_put_spec cfg s s' -> Permutation (live_ids s') (live_ids s).
Proof.
  intros [|r rest Hq Hlt]; [reflexivity|].
  unfold live_ids, waiting_ids, logged_ids. project. rewrite Hq. cbn [map].
  rewrite flat_map_heappush. unfold entry_ids at 1. project. cbn [call_ids].
  cbn [app]. apply Permutation_middle.
Qed.

Lemma live_ids_generator_loop id s s' :
  generator_loop_spec cfg rng id s s' -> Permutation (live_ids s') (live_ids s).
Proof.
  intros [|Hlt Hnz].
  - apply (live_ids_schedule NORMAL 0 Process_ended s).
  - eapply perm_trans; [apply live_ids_schedule|]. reflexivity.
Qed.

(** The patients in the system after a callback has run. *)
Lemma live_ids_callback c s :
  Permutation (live_ids (run_callback cfg rng c s)) (ids_after c ++ live_ids s).
Proof.
  destruct c; cbn [run_callback ids_after call_ids app].
  - unfold monitor_occupancy.
    eapply perm_trans; [apply live_ids_schedule|]. reflexivity.
  - unfold monitor_occupancy.
    eapply perm_trans; [apply live_ids_schedule|]. reflexivity.
  - eapply live_ids_generator_loop, patient_generator_loop_cases.
  - unfold patient_generator_resume, choice, exponential.
    eapply perm_trans;
      [eapply live_ids_generator_loop, patient_generator_loop_cases|].
    eapply perm_trans; [apply live_ids_schedule|]. reflexivity.
  - destruct (admit_patient_start_request cfg rng id ty los s)
      as (s1 & -> & E1 & E2 & E3 & _).
    unfold do_request.
    eapply perm_trans; [eapply live_ids_trigger_put, trigger_put_cases|].
    unfold live_ids, waiting_ids, logged_ids. project.
    rewrite E1, E2, E3.
    rewrite (Permutation_map _ (sorted_append_perm _ _)). cbn [map]. project.
    rewrite new_frame_id. symmetry. apply Permutation_middle.
  - unfold admit_patient_granted.
    eapply perm_trans; [apply live_ids_schedule|]. reflexivity.
  - unfold admit_patient_leave, do_release, process_exit.
    eapply perm_trans; [apply live_ids_schedule|]. cbn [call_ids app].
    unfold live_ids, waiting_ids, logged_ids. project.
    rewrite flat_map_heappush. unfold entry_ids at 1. project. cbn [call_ids app].
    rewrite map_app. cbn [map]. unfold discharge_record at 1. cbn [Patient_ID].
    rewrite !app_assoc. symmetry. apply Permutation_cons_append.
  - eapply live_ids_trigger_put, trigger_put_cases.
  - reflexivity.
  - reflexivity.
Qed.

Lemma ids_ok_initial : ids_ok (initial_state cfg).
Proof.
  unfold initial_state. constructor.
  - unfold live_ids, waiting_ids, logged_ids. project.
    rewrite !flat_map_heappush. constructor.
  - project. rewrite !total_weight_heappush, total_weight_nil. cbn. lia.
  - exists 0. split.
    + unfold live_ids, waiting_ids, logged_ids. project.
      rewrite !flat_map_heappush. constructor.
    + project. rewrite !Forall_heappush. repeat split; try exact I; constructor.
Qed.

Lemma ids_ok_step s s' :
  ids_ok s -> step cfg rng s = Running s' -> ids_ok s'.
Proof.
  intros [Hnd Hgen (k & Hlt & Hnext)] Hstep. apply running_inv in Hstep.
  destruct Hstep as (e & q & Hq & Hne & ->).
  set (s0 := on_env (fun v => {| now := ev_time e; eid := eid v; queue := q |}) s).
  pose proof (live_ids_pop s Hq) as Elive. fold s0 in Elive.
  rewrite Elive in Hnd, Hlt. unfold entry_ids in Hnd, Hlt.
  rewrite Hq in Hgen, Hnext. rewrite total_weight_cons in Hgen.
  unfold generator_weight at 1 in Hgen.
  inversion Hnext as [|? ? Hke Hkq]; subst. unfold next_id_from in Hke.
  pose proof (live_ids_callback (ev_call e) s0) as Hperm.
  destruct (callback_pushes cfg rng (ev_call e) s0) as (new & Hqueue & Hnew).
  change (queue (env s0)) with q in Hqueue.
  destruct (is_generator (ev_call e)) eqn:Hg.
  - (* the arrival generator *)
    assert (Hq0 : total_weight generator_weight q = 0) by lia.
    pose proof (generator_weight_zero q Hq0) as Hnone.
    assert (Hfree : forall k', Forall (next_id_from k') q).
    { intro k'. eapply Forall_impl; [|exact Hnone].
      intros x. apply next_id_from_other. }
    destruct (ev_call e) eqn:Hc; try discriminate;
      cbn [run_callback ids_after call_ids app] in *.
    + (* Initialize_generator *)
      subst k.
      match goal with
      | |- ids_ok (patient_generator_loop _ _ ?i ?x) =>
          destruct (patient_generator_loop_cases cfg rng i x) as [|Hlt' Hnz]
      end.
      * constructor.
        -- eapply Permutation_NoDup; [symmetry; exact Hperm|exact Hnd].
        -- subst s0. project. rewrite total_weight_heappush, Hq0. cbn. lia.
        -- exists 0. split.
           ++ eapply Permutation_Forall; [symmetry; exact Hperm|exact Hlt].
           ++ subst s0. project. apply Forall_heappush. split; [exact I|apply Hfree].
      * constructor.
        -- eapply Permutation_NoDup; [symmetry; exact Hperm|exact Hnd].
        -- subst s0. project. rewrite total_weight_heappush, Hq0. cbn. lia.
        -- exists 0. split.
           ++ eapply Permutation_Forall; [symmetry; exact Hperm|exact Hlt].
           ++ subst s0. project. apply Forall_heappush. split; [|apply Hfree].
              unfold next_id_from. project. lia.
    + (* Arrival_timeout *)
      assert (Hnd' : NoDup (next_patient_id :: live_ids s0)).
      { constructor; [|exact Hnd]. intro Hin.
        rewrite Forall_forall in Hlt. specialize (Hlt _ Hin). lia. }
      assert (Hlt' : Forall (fun id => id < S next_patient_id)
                            (next_patient_id :: live_ids s0)).
      { constructor; [lia|]. eapply Forall_impl; [|exact Hlt].
        intros a Ha. cbv beta in Ha. lia. }
      revert Hperm. unfold patient_generator_resume, choice, exponential.
      match goal with
      | |- context [patient_generator_loop _ _ ?i ?x] =>
          destruct (patient_generator_loop_cases cfg rng i x) as [|Hlt'' Hnz]
      end; intro Hperm.
      * constructor.
        -- eapply Permutation_NoDup; [symmetry; exact Hperm|exact Hnd'].
        -- subst s0. project. rewrite !total_weight_heappush, Hq0. cbn. lia.
        -- exists (S next_patient_id). split.
           ++ eapply Permutation_Forall; [symmetry; exact Hperm|exact Hlt'].
           ++ subst s0. project. rewrite !Forall_heappush.
              split; [exact I|]. split; [exact I|apply Hfree].
      * constructor.
        -- eapply Permutation_NoDup; [symmetry; exact Hperm|exact Hnd'].
        -- subst s0. project. rewrite !total_weight_heappush, Hq0. cbn. lia.
        -- exists (S next_patient_id). split.
           ++ eapply Permutation_Forall; [symmetry; exact Hperm|exact Hlt'].
           ++ subst s0. project. rewrite !Forall_heappush.
              split; [unfold next_id_from; project; lia|].
              split; [exact I|apply Hfree].
  - (* any other callback *)
    assert (Hafter : ids_after (ev_call e) = call_ids (ev_call e)).
    { destruct (ev_call e); try reflexivity. discriminate. }
    rewrite Hafter in Hperm.
    assert (Hnewgen : Forall (fun x => is_generator (ev_call x) = false) new).
    { eapply Forall_impl; [|exact Hnew]. intros x (_ & _ & Hx).
      destruct (is_generator (ev_call x)); [|reflexivity].
      specialize (Hx eq_refl). congruence. }
    constructor.
    + eapply Permutation_NoDup; [symmetry; exact Hperm|exact Hnd].
    + rewrite (total_weight_perm generator_weight Hqueue).
      unfold total_weight. rewrite map_app, list_sum_app.
      fold (total_weight generator_weight new).
      fold (total_weight generator_weight q).
      rewrite (generator_weight_none Hnewgen). lia.
    + exists k. split.
      * eapply Permutation_Forall; [symmetry; exact Hperm|exact Hlt].
      * eapply Permutation_Forall; [symmetry; exact Hqueue|].
        apply Forall_app. split; [|exact Hkq].
        eapply Forall_impl; [|exact Hnewgen]. intros x. apply next_id_from_other.
Qed.


End Identifiers.

(* ------------------------------------------------------------------ *)
(** * Proofs on the binary64 model *)





Section Rounded.

Variable cfg : Binary64.config.
Variable rng : Binary64.generator.













End Rounded.

(* ------------------------------------------------------------------ *)
(** * The properties of the specification *)

Lemma run_reaches cfg rng fuel : forall n s final,
  after cfg rng n = Some s -> run cfg rng fuel s = Some final ->
  exists m s', after cfg rng m = Some s' /\ step cfg rng s' = StopSimulation final.
Proof.
  induction fuel as [|fuel IH]; simpl; intros n s final Hn H; [discriminate|].
  destruct (step cfg rng s) as [s1|s1|] eqn:E; try discriminate.
  - apply (IH (S n) s1); [|assumption]. simpl. rewrite Hn, E. reflexivity.
  - inversion H. subst. exists n, s. auto.
Qed.

(** A reached state shares its hospital, its resource and its admissions
    with a state between two events. *)
Lemma reached_between cfg rng s :
  reached cfg rng s ->
  exists n s0, after cfg rng n = Some s0 /\ hospital s = hospital s0 /\
               beds s = beds s0 /\ admissions s = admissions s0.
Proof.
  intros [[n Hn]|[fuel Hf]].
  - exists n, s. auto.
  - destruct (@run_reaches cfg rng fuel 0 (initial_state cfg) s eq_refl Hf)
      as (m & s' & Hm & Hstop).
    apply stop_keeps in Hstop. destruct Hstop as (E1 & E2 & E3 & _).
    exists m, s'. auto.
Qed.

Lemma widget_capacity cfg : widget_bounds cfg -> (0 <= capacity cfg)%Z.
Proof.
  intros Hwb. unfold capacity.
  pose proof (wb_beds Hwb). pose proof (wb_ratio Hwb).
  assert (0 <= NUM_BEDS cfg / EXTRA_BED_RATIO cfg)%Z by (apply Z.div_pos; lia).
  lia.
Qed.

Lemma widget_bounds_small_ward : widget_bounds small_ward.
Proof.
  constructor; simpl; intros; try lia; try lra.
Qed.

Lemma variates_ok_steady : variates_ok steady.
Proof.
  constructor; simpl; intros; lra.
Qed.

(** C1. At every point of a run, and in every recorded sample, the number
    of occupied beds lies between 0 and [NUM_BEDS + NUM_BEDS // EXTRA_BED_RATIO]. *)
Theorem occupied_within_capacity cfg rng s :
  widget_bounds cfg -> reached cfg rng s ->
  capacity_bound cfg (occupied_beds (hospital s)) /\
  Forall (capacity_bound cfg) (occupancy (hospital s)).
Proof.
  intros Hwb Hr. apply reached_between in Hr.
  destruct Hr as (n & s0 & Hn & -> & _).
  assert (Hc : beds_counted cfg s0).
  { revert n s0 Hn. apply after_invariant.
    - apply beds_counted_initial, widget_capacity, Hwb.
    - apply beds_counted_step. }
  destruct Hc as [H1 H2 H3 H4]. split.
  - unfold capacity_bound. unfold capacity in H3. lia.
  - exact H4.
Qed.

Lemma occupied_within_capacity_witness :
  widget_bounds small_ward /\
  exists s, after small_ward steady 9 = Some s /\
            capacity_bound small_ward (occupied_beds (hospital s)) /\
            Forall (capacity_bound small_ward) (occupancy (hospital s)).
Proof.
  split; [exact widget_bounds_small_ward|].
  eexists. split; [vm_compute; reflexivity|].
  apply (@occupied_within_capacity small_ward steady).
  - exact widget_bounds_small_ward.
  - left. exists 9. vm_compute. reflexivity.
Defined.

Lemma after_heap_ok cfg rng n s :
  after cfg rng n = Some s -> heap_ok cfg s.
Proof.
  revert n s. apply after_invariant.
  - apply heap_ok_initial.
  - apply heap_ok_step.
Qed.

Lemma after_clock_ok cfg rng n s :
  widget_bounds cfg -> variates_ok rng ->
  after cfg rng n = Some s -> clock_ok s.
Proof.
  intros Hwb Hv H.
  assert (Hboth : heap_ok cfg s /\ clock_ok s); [|apply Hboth].
  revert n s H. apply after_invariant.
  - split; [apply heap_ok_initial|apply clock_ok_initial; assumption].
  - intros s s' [H1 H2] Hstep. split.
    + eapply heap_ok_step; eauto.
    + eapply clock_ok_step; eauto.
Qed.

Lemma after_frames_drawn cfg rng n s :
  after cfg rng n = Some s -> all_frames (frame_drawn cfg rng) s.
Proof.
  revert n s. apply after_invariant.
  - apply all_frames_initial.
  - apply all_frames_step. apply new_frame_drawn.
Qed.

Lemma record_drawn cfg rng r :
  record_of_frame (frame_drawn cfg rng) r ->
  exists k, nmcr_drawn cfg rng k (Length_of_Stay r) (NMCR_Reason r)
                       (NMCR_Delay r) (Total_LOS r).
Proof.
  intros (p & [k Hk] & ->). exists k. exact Hk.
Qed.



(** C4. For a fixed configuration and a fixed seed, two runs of the
    simulation return the same sequence of sample times, the same sequence
    of occupancies and the same patient log. *)
Theorem runs_reproducible cfg g1 g2 fuel1 fuel2 result1 result2 :
  same_stream g1 g2 ->
  run_simulation cfg g1 fuel1 = Some result1 ->
  run_simulation cfg g2 fuel2 = Some result2 ->
  result1 = result2.
Proof.
  unfold run_simulation. intros Hsame H1 H2.
  rewrite (run_ext cfg Hsame) in H1.
  destruct (run cfg g2 fuel1 (initial_state cfg)) as [f1|] eqn:E1; [|discriminate].
  destruct (run cfg g2 fuel2 (initial_state cfg)) as [f2|] eqn:E2; [|discriminate].
  rewrite (run_unique _ _ _ _ _ E1 E2) in H1. congruence.
Qed.

Lemma same_stream_steady : same_stream steady steady_again.
Proof.
  split; intro n; simpl.
  - destruct (Nat.even n); reflexivity.
  - destruct n; reflexivity.
Qed.

Lemma runs_reproducible_witness :
  same_stream steady steady_again /\
  exists result1 result2,
    run_simulation small_ward steady 40 = Some result1 /\
    run_simulation small_ward steady_again 60 = Some result2 /\
    result1 = result2.
Proof.
  split; [exact same_stream_steady|].
  eexists. eexists.
  split; [vm_compute; reflexivity|].
  split; [vm_compute; reflexivity|].
  apply (@runs_reproducible small_ward steady steady_again 40 60).
  - exact same_stream_steady.
  - vm_compute. reflexivity.
  - vm_compute. reflexivity.
Defined.

(** Under paced arrivals the run returns, stopped by the [until] event. *)
Lemma run_completes cfg rng delta :
  paced cfg rng delta ->
  exists fuel final n s,
    run cfg rng fuel (initial_state cfg) = Some final /\
    after cfg rng n = Some s /\ step cfg rng s = StopSimulation final.
Proof.
  intro Hp.
  destruct (@run_terminates cfg rng delta Hp
              (S (potential cfg delta (initial_state cfg))) (initial_state cfg))
    as [final Hrun].
  - apply heap_ok_initial.
  - lia.
  - destruct (@run_reaches cfg rng _ 0 (initial_state cfg) final eq_refl Hrun)
      as (n & s & Hn & Hstop).
    eexists. exists final, n, s. split; [exact Hrun|]. split; assumption.
Qed.




(** Patients can indeed be left waiting: in [delayed_ward] eleven requests
    are still queued when the run returns, only the first two patients are
    in the log, and patients 12 and 13, whose requests of tier 1 went ahead
    of the queued requests of tier 2, are in their beds. *)
Example waiting_at_the_horizon :
  exists final,
    run delayed_ward steady 200 (initial_state delayed_ward) = Some final /\
    map (fun r => patient_id (req_owner r)) (put_queue (beds final))
    = [2; 3; 4; 5; 6; 7; 8; 9; 10; 11; 14] /\
    map Patient_ID (patients (hospital final)) = [0; 1] /\
    map (fun a => patient_id (fst a)) (admissions final) = [0; 1; 12; 13] /\
    occupied_beds (hospital final) = 2%Z.
Proof.
  eexists. split; [vm_compute; reflexivity|].
  repeat split; reflexivity.
Qed.

Lemma after_ids_ok cfg rng n s : after cfg rng n = Some s -> ids_ok s.
Proof.
  revert n s. apply after_invariant.
  - apply ids_ok_initial.
  - apply ids_ok_step.
Qed.



(** C2.  With boarding disabled the number of occupied beds should never
    exceed [NUM_BEDS]; the code does exceed it.  The resource is built with
    [num_beds + num_beds // EXTRA_BED_RATIO] slots whether or not boarding
    is enabled, and the priority of a request orders the queue without
    closing any slot.  In [small_ward] boarding is off and there is one
    bed, yet after nine events two beds are occupied. *)
Theorem boarding_off_exceeds_base :
  ENABLE_BED_BOARDING small_ward = false /\
  NUM_BEDS small_ward = 1%Z /\
  exists s,
    after small_ward steady 9 = Some s /\
    occupied_beds (hospital s) = 2%Z /\
    occupancy (hospital s) = [0; 1; 1; 2]%Z.
Proof.
  split; [reflexivity|]. split; [reflexivity|].
  eexists. split; [vm_compute; reflexivity|].
  split; reflexivity.
Qed.

(** The tiers of lines 109-116, as the specification lists them. *)
Lemma priority_of_tiers cfg occupied :
  let full := (NUM_BEDS cfg + NUM_BEDS cfg / EXTRA_BED_RATIO cfg)%Z in
  ((occupied < NUM_BEDS cfg)%Z -> priority_of cfg occupied = 0%Z) /\
  ((NUM_BEDS cfg <= occupied)%Z -> ENABLE_BED_BOARDING cfg = true ->
   (occupied < full)%Z -> priority_of cfg occupied = 1%Z) /\
  ((NUM_BEDS cfg <= occupied)%Z ->
   (ENABLE_BED_BOARDING cfg = false \/ (full <= occupied)%Z) ->
   priority_of cfg occupied = 2%Z).
Proof.
  unfold priority_of. cbv zeta.
  destruct (Z.ltb_spec occupied (NUM_BEDS cfg));
    destruct (Z.ltb_spec occupied
                (NUM_BEDS cfg + NUM_BEDS cfg / EXTRA_BED_RATIO cfg));
    destruct (ENABLE_BED_BOARDING cfg); simpl;
    repeat split; intros; try reflexivity; try lia;
    try discriminate; try (destruct H2; [discriminate|lia]);
    try (destruct H3; [discriminate|lia]).
Qed.

(** With boarding enabled a request of tier 2 is not granted when it is
    made: the resource is full, and the request joins the queue. *)
Lemma tier_two_waits_with_boarding cfg rng n s e q id ty los s' :
  widget_bounds cfg -> ENABLE_BED_BOARDING cfg = true ->
  after cfg rng n = Some s -> queue (env s) = e :: q ->
  ev_call e = Initialize_patient id ty los ->
  priority_of cfg (occupied_beds (hospital s)) = 2%Z ->
  step cfg rng s = Running s' ->
  users (beds s') = users (beds s) /\
  length (put_queue (beds s')) = S (length (put_queue (beds s))) /\
  queue (env s') = q.
Proof.
  intros Hwb Hb Hn Hq Hc Hp Hstep.
  assert (Hcount : beds_counted cfg s).
  { revert n s Hn Hq Hp Hstep. intros n s Hn _ _ _. revert n s Hn.
    apply after_invariant.
    - apply beds_counted_initial, widget_capacity, Hwb.
    - apply beds_counted_step. }
  destruct Hcount as [_ H2 H3 _].
  assert (Hfull : (capacity cfg <= occupied_beds (hospital s))%Z).
  { revert Hp. unfold priority_of, capacity. rewrite Hb.
    destruct (Z.ltb_spec (occupied_beds (hospital s)) (NUM_BEDS cfg));
      [discriminate|].
    destruct (Z.ltb_spec (occupied_beds (hospital s))
                (NUM_BEDS cfg + NUM_BEDS cfg / EXTRA_BED_RATIO cfg));
      [discriminate|]. intros _. assumption. }
  unfold step in Hstep. rewrite Hq, Hc in Hstep. inversion Hstep; subst s'.
  cbn [run_callback].
  destruct (admit_patient_start_request cfg rng id ty los
              (on_env (fun v => {| now := ev_time e; eid := eid v; queue := q |}) s))
    as (s1 & -> & E1 & E2 & _).
  unfold do_request.
  match goal with
  | |- context [trigger_put cfg ?x] =>
      destruct (trigger_put_cases cfg x) as [|r rest Hhead Hlt]
  end.
  - project. rewrite E2, E1. project. rewrite length_sorted_append.
    repeat split; reflexivity.
  - exfalso. revert Hlt. project. rewrite E2. lia.
Qed.

(** C3.  The tiers are computed as the specification lists them, yet a
    request of tier 2, which should wait for a release, can be granted at
    once: the same defect as in C2.  In [small_ward],
    with boarding off, the second patient asks for a bed while the only
    normal bed is taken; its tier is 2, no release has happened, and the
    very step that makes the request puts it among the users of the
    resource and schedules the grant at the time of arrival. *)
Theorem tier_two_granted_at_once :
  (forall cfg occupied,
      let full := (NUM_BEDS cfg + NUM_BEDS cfg / EXTRA_BED_RATIO cfg)%Z in
      ((occupied < NUM_BEDS cfg)%Z -> priority_of cfg occupied = 0%Z) /\
      ((NUM_BEDS cfg <= occupied)%Z -> ENABLE_BED_BOARDING cfg = true ->
       (occupied < full)%Z -> priority_of cfg occupied = 1%Z) /\
      ((NUM_BEDS cfg <= occupied)%Z ->
       (ENABLE_BED_BOARDING cfg = false \/ (full <= occupied)%Z) ->
       priority_of cfg occupied = 2%Z)) /\
  exists s s' p,
    after small_ward steady 7 = Some s /\
    map ev_call (firstn 1 (queue (env s))) = [Initialize_patient 1 Surgical 1] /\
    priority_of small_ward (occupied_beds (hospital s)) = 2%Z /\
    length (users (beds s)) = 1 /\
    step small_ward steady s = Running s' /\
    priority p = 2%Z /\ patient_id p = 1 /\
    map req_owner (skipn 1 (users (beds s'))) = [p] /\
    put_queue (beds s') = [] /\
    map (fun x => (ev_time x, ev_call x)) (firstn 1 (queue (env s')))
      = [(arrival_time p, Request_granted p)].
Proof.
  split; [exact priority_of_tiers|].
  eexists. eexists. eexists.
  split; [vm_compute; reflexivity|].
  split; [reflexivity|]. split; [reflexivity|]. split; [reflexivity|].
  split; [vm_compute; reflexivity|].
  split; [|split; [|split; [reflexivity|]]]; [| |split; reflexivity];
    reflexivity.
Qed.

(** C7, as the specification states it (a zero total arrival rate is
    refused before anything is scheduled): refuted.  With both arrival rates
    at zero the script still builds the hospital, schedules its processes
    and runs to the horizon; it returns three samples and an empty log. *)
Lemma zero_rate_run_not_refused :
  (sum_rates (ARRIVAL_RATES idle_ward) == 0)%Q /\
  length (queue (env (initial_state idle_ward))) = 3 /\
  hospital_simulation idle_ward steady 6
  = Some ([0; 1; 2]%Q, [0; 0; 0]%Z, []).
Proof.
  split; [reflexivity|]. split; [reflexivity|].
  vm_compute. reflexivity.
Qed.

Lemma after_quiet cfg rng n s :
  (sum_rates (ARRIVAL_RATES cfg) == 0)%Q ->
  after cfg rng n = Some s -> quiet s.
Proof.
  intro Hz. revert n s. apply after_invariant.
  - apply quiet_initial.
  - apply quiet_step. exact Hz.
Qed.

(** C7, amended.  A total arrival rate of zero is refused, with a warning,
    by the calculator page.  The simulation is not refused: its arrival
    generator leaves its loop at once, no variate is drawn, and the run
    returns at the horizon with the recorder's sample of every day, all
    samples 0 and an empty log. *)
Theorem zero_rate_stops_page_not_run cfg rng i :
  widget_bounds cfg ->
  (sum_rates (ARRIVAL_RATES cfg) == 0)%Q ->
  (Occupancy_and_LOS.total_arrival_rate i == 0)%Q ->
  (exists warning, Occupancy_and_LOS.page i = Occupancy_and_LOS.Stopped warning) /\
  exists fuel final,
    run cfg rng fuel (initial_state cfg) = Some final /\
    (now (env final) == inject_Z (SIMULATION_TIME cfg))%Q /\
    patients (hospital final) = [] /\
    Forall (eq 0%Z) (occupancy (hospital final)) /\
    draws final = 0 /\
    forall k, (0 <= k < SIMULATION_TIME cfg)%Z -> sampled_at cfg rng k.
Proof.
  intros _ Hz Hi. split.
  - unfold Occupancy_and_LOS.page.
    apply Qeq_bool_iff in Hi. rewrite Hi. eexists. reflexivity.
  - assert (Hp : paced cfg rng 1) by (left; exact Hz).
    destruct (run_completes Hp) as (fuel & final & n & s & Hrun & Hn & Hstop).
    exists fuel, final. split; [exact Hrun|].
    destruct (@stopped_at_horizon cfg rng n s final Hn Hstop) as [Hnow Hsamples].
    destruct (@after_quiet cfg rng n s Hz Hn) as [_ _ _ _ H5 H6 H7 _].
    apply stop_keeps in Hstop. destruct Hstop as (E1 & _ & _ & E4 & _).
    rewrite E1, E4. repeat split; assumption.
Qed.

Lemma zero_rate_stops_page_not_run_witness :
  widget_bounds idle_ward /\
  (sum_rates (ARRIVAL_RATES idle_ward) == 0)%Q /\
  (Occupancy_and_LOS.total_arrival_rate idle_inputs == 0)%Q /\
  (exists warning,
      Occupancy_and_LOS.page idle_inputs = Occupancy_and_LOS.Stopped warning) /\
  exists fuel final,
    run idle_ward steady fuel (initial_state idle_ward) = Some final /\
    (now (env final) == inject_Z (SIMULATION_TIME idle_ward))%Q /\
    patients (hospital final) = [] /\
    Forall (eq 0%Z) (occupancy (hospital final)) /\
    draws final = 0 /\
    forall k, (0 <= k < SIMULATION_TIME idle_ward)%Z -> sampled_at idle_ward steady k.
Proof.
  assert (Hwb : widget_bounds idle_ward)
    by (constructor; simpl; intros; try lia; try lra).
  split; [exact Hwb|]. split; [reflexivity|]. split; [reflexivity|].
  apply (@zero_rate_stops_page_not_run idle_ward steady idle_inputs Hwb);
    reflexivity.
Defined.

(* ------------------------------------------------------------------ *)
(** * Further proofs *)

(** ** What one event does to the hospital *)

Section Moves.

Variable cfg : config.
Variable rng : generator.

Lemma trigger_put_frame s :
  hospital (trigger_put cfg s) = hospital s /\
  admissions (trigger_put cfg s) = admissions s /\
  now (env (trigger_put cfg s)) = now (env s) /\
  draws (trigger_put cfg s) = draws s.
Proof.
  destruct (trigger_put_cases cfg s); repeat split; reflexivity.
Qed.

Lemma patient_generator_loop_frame id s :
  hospital (patient_generator_loop cfg rng id s) = hospital s /\
  admissions (patient_generator_loop cfg rng id s) = admissions s /\
  now (env (patient_generator_loop cfg rng id s)) = now (env s) /\
  beds (patient_generator_loop cfg rng id s) = beds s.
Proof.
  destruct (patient_generator_loop_cases cfg rng id s); repeat split; reflexivity.
Qed.

Lemma admit_patient_start_frame id ty los s :
  hospital (admit_patient_start cfg rng id ty los s) = hospital s /\
  admissions (admit_patient_start cfg rng id ty los s) = admissions s /\
  now (env (admit_patient_start cfg rng id ty los s)) = now (env s).
Proof.
  destruct (admit_patient_start_request cfg rng id ty los s)
    as (s1 & -> & E1 & E2 & E3 & E4 & _).
  unfold do_request.
  match goal with
  | |- context [trigger_put cfg ?x] =>
      destruct (trigger_put_frame x) as (-> & -> & -> & _)
  end.
  project. rewrite E1. auto.
Qed.

(** Every processed event moves the clock to its time and the hospital in
    one of four ways. *)
Lemma step_moves s s' :
  step cfg rng s = Running s' ->
  exists e q, queue (env s) = e :: q /\ now (env s') = ev_time e /\
              hospital_moves s s'.
Proof.
  intros Hstep. apply running_inv in Hstep.
  destruct Hstep as (e & q & Hq & _ & ->). exists e, q. split; [exact Hq|].
  set (s0 := on_env (fun v => {| now := ev_time e; eid := eid v; queue := q |}) s).
  destruct (ev_call e) eqn:Hc; cbn [run_callback].
  - split; [reflexivity|]. apply hm_sample; reflexivity.
  - split; [reflexivity|]. apply hm_sample; reflexivity.
  - destruct (patient_generator_loop_frame 0 s0) as (E1 & E2 & E3 & _).
    split; [exact E3|]. apply hm_same; assumption.
  - unfold patient_generator_resume, choice, exponential.
    match goal with
    | |- context [patient_generator_loop cfg rng ?i ?x] =>
        destruct (patient_generator_loop_frame i x) as (E1 & E2 & E3 & _)
    end.
    split; [exact E3|]. apply hm_same; assumption.
  - destruct (admit_patient_start_frame id ty los s0) as (E1 & E2 & E3).
    split; [exact E3|]. apply hm_same; assumption.
  - split; [reflexivity|]. apply hm_admit with (p := p); reflexivity.
  - split; [reflexivity|]. apply hm_discharge with (p := p); reflexivity.
  - destruct (trigger_put_frame s0) as (E1 & E2 & E3 & _).
    split; [exact E3|]. apply hm_same; assumption.
  - split; [reflexivity|]. apply hm_same; reflexivity.
  - split; [reflexivity|]. apply hm_same; reflexivity.
Qed.

End Moves.

(** ** Samples in step with the counter *)

Lemma gentle_snoc l c d :
  gentle l -> (Z.abs (c - last l d) <= 1)%Z \/ l = [] -> gentle (l ++ [c]).
Proof.
  induction l as [|a l IH]; intros Hg Hc; [exact I|].
  destruct l as [|b l].
  - cbn [app gentle last] in *. destruct Hc as [Hc|Hc]; [|discriminate].
    split; [exact Hc|exact I].
  - destruct Hg as [Hab Hg]. cbn [app]. split; [exact Hab|].
    apply IH; [exact Hg|]. left. destruct Hc as [Hc|Hc]; [exact Hc|discriminate].
Qed.

Lemma last_snoc (l : list Z) c d : last (l ++ [c]) d = c.
Proof. apply last_last. Qed.

Lemma last_default (l : list Z) d d' : l <> [] -> last l d = last l d'.
Proof.
  induction l as [|a l IH]; intro H; [congruence|].
  destruct l as [|b l]; [reflexivity|]. cbn [last]. apply IH. discriminate.
Qed.

Section Samples.

Variable cfg : config.
Variable rng : generator.

Lemma samples_ok_initial : samples_ok (initial_state cfg).
Proof.
  constructor; reflexivity || exact I.
Qed.

Lemma samples_ok_record h t d :
  length (times h) = length (occupancy h) ->
  gentle (occupancy h) ->
  last (occupancy h) (occupied_beds h) = occupied_beds h ->
  (Z.abs d <= 1)%Z ->
  let h' := record_occupancy t (add_occupied d h) in
  length (times h') = length (occupancy h') /\
  gentle (occupancy h') /\
  last (occupancy h') (occupied_beds h') = occupied_beds h'.
Proof.
  intros Ha Hg Hl Hd. cbn. rewrite !length_app, Ha. split; [reflexivity|].
  split; [|apply last_snoc].
  apply gentle_snoc with (d := occupied_beds h); [exact Hg|].
  left. rewrite Hl. replace (occupied_beds h + d - occupied_beds h)%Z with d by lia.
  exact Hd.
Qed.

Lemma samples_ok_step s s' :
  samples_ok s -> step cfg rng s = Running s' -> samples_ok s'.
Proof.
  intros [Ha Hg Hl Hb] Hstep.
  destruct (step_moves cfg rng s Hstep) as (e & q & _ & _ & Hm).
  destruct Hm as [E1 E2|E1 E2|p E1 E2|p E1 E2].
  - constructor; rewrite ?E1, ?E2; assumption.
  - destruct (samples_ok_record (hospital s) (now (env s')) 0 Ha Hg Hl)
      as (Ha' & Hg' & Hl'); [cbn; lia|].
    assert (Eh : record_occupancy (now (env s')) (add_occupied 0 (hospital s))
                 = record_occupancy (now (env s')) (hospital s)).
    { unfold record_occupancy, add_occupied. cbn.
      rewrite Z.add_0_r. reflexivity. }
    rewrite Eh in Ha', Hg', Hl'.
    constructor; rewrite ?E1, ?E2; try assumption; cbn; lia.
  - destruct (samples_ok_record (hospital s) (now (env s')) 1 Ha Hg Hl)
      as (Ha' & Hg' & Hl'); [cbn; lia|].
    constructor; rewrite ?E1, ?E2; try assumption;
      cbn; rewrite ?length_app; cbn [length]; lia.
  - destruct (samples_ok_record (hospital s) (now (env s')) (-1) Ha Hg Hl)
      as (Ha' & Hg' & Hl'); [cbn; lia|].
    constructor; rewrite ?E1, ?E2; try assumption;
      cbn; rewrite ?length_app; cbn [length]; lia.
Qed.

End Samples.

(** ** The clock, the sample times and the discharge times *)

Lemma StronglySorted_snoc {A} (R : A -> A -> Prop) l c :
  StronglySorted R l -> Forall (fun x => R x c) l -> StronglySorted R (l ++ [c]).
Proof.
  induction 1 as [|a l Hl IH Ha]; intro Hc; cbn [app].
  - constructor; constructor.
  - inversion Hc; subst. constructor; [apply IH; assumption|].
    apply Forall_app. split; [assumption|]. constructor; [assumption|constructor].
Qed.

Section Timeline.

Variable cfg : config.
Variable rng : generator.
Hypothesis Hwb : widget_bounds cfg.
Hypothesis Hv : variates_ok rng.

Lemma timeline_ok_initial : timeline_ok cfg (initial_state cfg).
Proof.
  pose proof (wb_time Hwb) as HT.
  assert (0 <= inject_Z (SIMULATION_TIME cfg))%Q.
  { change 0%Q with (inject_Z 0). rewrite <- Zle_Qle. lia. }
  constructor; cbn; try constructor; lra.
Qed.

(** The clock never goes back, and never passes the horizon. *)
Lemma clock_advances s s' :
  heap_ok cfg s -> clock_ok s -> step cfg rng s = Running s' ->
  (now (env s) <= now (env s') <= inject_Z (SIMULATION_TIME cfg))%Q.
Proof.
  intros Hh Hc Hstep.
  destruct (step_moves cfg rng s Hstep) as (e & q & Hq & Hnow & _).
  apply running_inv in Hstep. destruct Hstep as (e' & q' & Hq' & Hne & _).
  rewrite Hq in Hq'. inversion Hq'; subst e' q'.
  destruct (heap_ok_pop Hh Hq Hne) as [_ Hle].
  destruct (clock_ok_pop Hh Hc Hq) as [[Hge _] _].
  rewrite Hnow. split; assumption.
Qed.

Lemma timeline_ok_step s s' :
  heap_ok cfg s -> clock_ok s -> timeline_ok cfg s ->
  step cfg rng s = Running s' -> timeline_ok cfg s'.
Proof.
  intros Hh Hc [[H0 HT] Ht Hs Hl Hls] Hstep.
  destruct (clock_advances Hh Hc Hstep) as [Hge Hle].
  destruct (step_moves cfg rng s Hstep) as (e & q & _ & _ & Hm).
  assert (Ht' : Forall (fun t => 0 <= t <= now (env s'))%Q (times (hospital s))).
  { eapply Forall_impl; [|exact Ht]. intros t Hx. cbv beta in Hx. lra. }
  assert (Hl' : Forall (fun r => Discharge_Time r <= now (env s'))%Q
                       (patients (hospital s))).
  { eapply Forall_impl; [|exact Hl]. intros r Hx. cbv beta in Hx. lra. }
  assert (Hsnoc : StronglySorted Qle (times (hospital s) ++ [now (env s')])).
  { apply StronglySorted_snoc; [exact Hs|].
    eapply Forall_impl; [|exact Ht']. intros t Hx. cbv beta in Hx. lra. }
  assert (Hsnoc' : Forall (fun t => 0 <= t <= now (env s'))%Q
                          (times (hospital s) ++ [now (env s')])).
  { apply Forall_app. split; [exact Ht'|]. constructor; [lra|constructor]. }
  destruct Hm as [E1 E2|E1 E2|p E1 E2|p E1 E2];
    constructor; rewrite ?E1; cbn; try assumption; try lra.
  - apply Forall_app. split; [exact Hl'|].
    constructor; [cbn; lra|constructor].
  - apply StronglySorted_snoc; [exact Hls|].
    eapply Forall_impl; [|exact Hl']. intros r Hx. exact Hx.
Qed.

End Timeline.

(** ** What the arrival generator fixes of a patient *)

Section Arrivals.

Variable cfg : config.
Variable rng : generator.
Variable A : nat -> ptype -> Q -> Prop.
Hypothesis Hborn :
  forall id n, ~ (sum_rates (ARRIVAL_RATES cfg) == 0)%Q ->
               A id (drawn_type cfg rng n) (drawn_length_of_stay cfg rng n).

Lemma new_frame_fields id ty los s :
  patient_id (new_frame cfg rng id ty los s) = id /\
  p_type (new_frame cfg rng id ty los s) = ty /\
  length_of_stay (new_frame cfg rng id ty los s) = los.
Proof.
  unfold new_frame, nmcr_outcome, rand, exponential.
  repeat match goal with
         | |- context [if ?b then _ else _] => destruct b
         | |- context [match ?b with Internal => _ | External => _ end] => destruct b
         end; repeat split; reflexivity.
Qed.

Lemma all_arrivals_same s s' :
  queue (env s') = queue (env s) -> put_queue (beds s') = put_queue (beds s) ->
  patients (hospital s') = patients (hospital s) ->
  all_arrivals cfg A s -> all_arrivals cfg A s'.
Proof.
  intros E1 E2 E3 [H1 H2 H3]. constructor; rewrite ?E1, ?E2, ?E3; auto.
Qed.

Lemma all_arrivals_schedule prio d c s :
  all_arrivals cfg A s ->
  arrival_of_entry cfg A {| ev_time := now (env s) + d; ev_prio := prio;
                            ev_eid := eid (env s); ev_call := c |} ->
  all_arrivals cfg A (on_env (schedule prio d c) s).
Proof.
  intros [H1 H2 H3] He. constructor; project; auto.
  apply Forall_heappush. auto.
Qed.

Lemma all_arrivals_trigger_put s s' :
  trigger_put_spec cfg s s' -> all_arrivals cfg A s -> all_arrivals cfg A s'.
Proof.
  intros H Hs. destruct H as [|r rest Hq Hlt]; [assumption|].
  destruct Hs as [H1 H2 H3]. rewrite Hq in H2.
  inversion H2; subst. constructor; project; auto.
  apply Forall_heappush. split; assumption.
Qed.

Lemma all_arrivals_generator_loop id s s' :
  generator_loop_spec cfg rng id s s' ->
  all_arrivals cfg A s -> all_arrivals cfg A s'.
Proof.
  intros H Hs. destruct H as [|Hlt Hnz].
  - apply all_arrivals_schedule; [assumption|exact I].
  - apply all_arrivals_schedule; [|exact Hnz].
    eapply all_arrivals_same; [| | |exact Hs]; reflexivity.
Qed.

Lemma all_arrivals_initial : all_arrivals cfg A (initial_state cfg).
Proof.
  unfold initial_state. constructor; project; auto.
  rewrite !Forall_heappush. repeat split; auto; exact I.
Qed.

Lemma all_arrivals_step s s' :
  all_arrivals cfg A s -> step cfg rng s = Running s' -> all_arrivals cfg A s'.
Proof.
  intros Hs Hstep. apply running_inv in Hstep.
  destruct Hstep as (e & q & Hq & Hne & ->).
  destruct Hs as [H1 H2 H3]. rewrite Hq in H1.
  inversion H1 as [|? ? Hhead Hrest]; subst.
  set (s0 := on_env (fun v => {| now := ev_time e; eid := eid v; queue := q |}) s).
  assert (Hp : all_arrivals cfg A s0) by (constructor; assumption).
  unfold arrival_of_entry in Hhead.
  destruct (ev_call e) eqn:Hc; cbn [run_callback]; try congruence.
  - apply all_arrivals_schedule; [|exact I].
    eapply all_arrivals_same; [| | |exact Hp]; reflexivity.
  - apply all_arrivals_schedule; [|exact I].
    eapply all_arrivals_same; [| | |exact Hp]; reflexivity.
  - eapply all_arrivals_generator_loop; [apply patient_generator_loop_cases|exact Hp].
  - unfold patient_generator_resume, choice, exponential.
    eapply all_arrivals_generator_loop; [apply patient_generator_loop_cases|].
    apply all_arrivals_schedule.
    + eapply all_arrivals_same; [| | |exact Hp]; reflexivity.
    + apply (Hborn next_patient_id (draws s0) Hhead).
  - destruct (admit_patient_start_request cfg rng id ty los s0)
      as (s1 & -> & E1 & E2 & E3 & _).
    eapply all_arrivals_trigger_put; [apply trigger_put_cases|].
    assert (Hs1 : all_arrivals cfg A s1).
    { eapply all_arrivals_same; [| | |exact Hp]; congruence. }
    destruct Hs1 as [G1 G2 G3]. constructor; project; auto.
    apply Forall_sorted_append. split; [|assumption]. project.
    destruct (new_frame_fields id ty los s0) as (-> & -> & ->). exact Hhead.
  - unfold admit_patient_granted. apply all_arrivals_schedule; [|exact Hhead].
    eapply all_arrivals_same; [| | |exact Hp]; reflexivity.
  - unfold admit_patient_leave, do_release, process_exit.
    apply all_arrivals_schedule; [|exact I].
    destruct Hp as [G1 G2 G3]. constructor; project; auto.
    + apply Forall_heappush. split; [exact I|assumption].
    + apply Forall_app. split; [assumption|]. constructor; [|constructor].
      exact Hhead.
  - eapply all_arrivals_trigger_put; [apply trigger_put_cases|exact Hp].
Qed.

End Arrivals.

Section DrawnType.

Variable cfg : config.
Variable rng : generator.
Hypothesis Hwb : widget_bounds cfg.
Hypothesis Hv : variates_ok rng.

(** The share of [Medical] in the cumulative sums of [np.random.choice]. *)
Lemma medical_share :
  ~ (sum_rates (ARRIVAL_RATES cfg) == 0)%Q ->
  let total := sum_rates (ARRIVAL_RATES cfg) in
  let p_m := (ARRIVAL_RATES cfg Medical / total)%Q in
  let p_s := (ARRIVAL_RATES cfg Surgical / total)%Q in
  (p_m / (p_m + p_s) == ARRIVAL_RATES cfg Medical / total)%Q /\
  (ARRIVAL_RATES cfg Medical
   == ARRIVAL_RATES cfg Medical / total * total)%Q /\
  (0 < total)%Q.
Proof.
  intro Hnz. pose proof (sum_rates_nonneg Hwb) as Hr. cbv zeta.
  rewrite sum_rates_unfold in *.
  pose proof (wb_rate Hwb Medical). pose proof (wb_rate Hwb Surgical).
  split; [|split]; try (field; lra); lra.
Qed.

(** A type is drawn only if its arrival rate is positive. *)
Lemma drawn_type_has_rate n :
  ~ (sum_rates (ARRIVAL_RATES cfg) == 0)%Q ->
  (0 < ARRIVAL_RATES cfg (drawn_type cfg rng n))%Q.
Proof.
  intro Hnz. destruct (medical_share Hnz) as (Ecdf & Emul & Hpos).
  unfold drawn_type.
  pose proof (uniform_range Hv n) as [Hu0 Hu1].
  pose proof (wb_rate Hwb Medical) as Hm. pose proof (wb_rate Hwb Surgical) as Hs.
  set (share := (ARRIVAL_RATES cfg Medical / sum_rates (ARRIVAL_RATES cfg))%Q) in *.
  destruct (Qle_bool _ (random_sample rng n)) eqn:E.
  - apply Qle_bool_iff in E. rewrite Ecdf in E.
    assert (Hlt : (share * sum_rates (ARRIVAL_RATES cfg)
                   < 1 * sum_rates (ARRIVAL_RATES cfg))%Q).
    { apply Qmult_lt_compat_r; [exact Hpos|lra]. }
    rewrite <- Emul in Hlt. rewrite sum_rates_unfold in Hlt. lra.
  - assert (Hgt : (random_sample rng n < share)%Q).
    { apply Qnot_le_lt. intro Hle. rewrite <- Ecdf in Hle.
      apply Qle_bool_iff in Hle. congruence. }
    destruct (Qlt_le_dec 0 (ARRIVAL_RATES cfg Medical)) as [|Hz]; [assumption|].
    exfalso. assert (Hzero : (ARRIVAL_RATES cfg Medical == 0)%Q) by lra.
    assert (Hshare : (share == 0)%Q).
    { unfold share. rewrite Hzero. unfold Qdiv. apply Qmult_0_l. }
    lra.
Qed.

Lemma drawn_length_of_stay_nonneg n :
  (0 <= drawn_length_of_stay cfg rng n)%Q.
Proof.
  unfold drawn_length_of_stay. apply length_of_stay_nonneg; assumption.
Qed.

End DrawnType.

(** ** The wait queue is in order of its keys *)

Lemma request_ltb_true a b : request_ltb a b = true -> req_le a b.
Proof.
  unfold request_ltb, req_le.
  destruct (Z.compare_spec (req_priority a) (req_priority b)) as [Hp|Hp|Hp];
    intro H; try discriminate.
  - right. split; [assumption|]. apply Qltb_lt in H. apply Qlt_le_weak, H.
  - left. assumption.
Qed.

Lemma request_ltb_false a b : request_ltb a b = false -> req_le b a.
Proof.
  unfold request_ltb, req_le.
  destruct (Z.compare_spec (req_priority a) (req_priority b)) as [Hp|Hp|Hp];
    intro H; try discriminate.
  - right. split; [congruence|]. apply Qltb_ge in H. exact H.
  - left. assumption.
Qed.

Lemma req_le_trans a b c : req_le a b -> req_le b c -> req_le a c.
Proof.
  unfold req_le. intros [H1|[H1 H1']] [H2|[H2 H2']].
  - left. lia.
  - left. lia.
  - left. lia.
  - right. split; [congruence|]. eapply Qle_trans; eauto.
Qed.

Lemma insert_request_sorted x l :
  StronglySorted req_le l -> StronglySorted req_le (insert_request x l).
Proof.
  induction 1 as [|y l Hl IH Hy]; simpl.
  - constructor; constructor.
  - destruct (request_ltb y x) eqn:E.
    + constructor; [exact IH|].
      apply (Permutation_Forall (Permutation_sym (insert_request_perm x l))).
      constructor; [apply request_ltb_true, E|exact Hy].
    + constructor; [constructor; assumption|].
      apply request_ltb_false in E. constructor; [exact E|].
      eapply Forall_impl; [|exact Hy]. intros z Hz.
      eapply req_le_trans; eauto.
Qed.

Lemma sort_requests_sorted l : StronglySorted req_le (sort_requests l).
Proof.
  induction l as [|x l IH]; simpl; [constructor|].
  apply insert_request_sorted, IH.
Qed.

Section WaitQueue.

Variable cfg : config.
Variable rng : generator.

Lemma waiting_sorted_trigger_put s s' :
  trigger_put_spec cfg s s' -> waiting_sorted s -> waiting_sorted s'.
Proof.
  intros [|r rest Hq Hlt] Hs; [exact Hs|].
  unfold waiting_sorted in *. project. rewrite Hq in Hs.
  inversion Hs; assumption.
Qed.

Lemma waiting_sorted_step s s' :
  waiting_sorted s -> step cfg rng s = Running s' -> waiting_sorted s'.
Proof.
  intros Hs Hstep. apply running_inv in Hstep.
  destruct Hstep as (e & q & Hq & Hne & ->).
  set (s0 := on_env (fun v => {| now := ev_time e; eid := eid v; queue := q |}) s).
  assert (Hp : waiting_sorted s0) by exact Hs.
  destruct (ev_call e) eqn:Hc; cbn [run_callback]; try exact Hp.
  - unfold waiting_sorted.
    destruct (patient_generator_loop_frame cfg rng 0 s0) as (_ & _ & _ & ->).
    exact Hp.
  - unfold patient_generator_resume, choice, exponential, waiting_sorted.
    match goal with
    | |- context [patient_generator_loop cfg rng ?i ?x] =>
        destruct (patient_generator_loop_frame cfg rng i x) as (_ & _ & _ & ->)
    end.
    exact Hp.
  - destruct (admit_patient_start_request cfg rng id ty los s0)
      as (s1 & -> & _).
    eapply waiting_sorted_trigger_put; [apply trigger_put_cases|].
    unfold waiting_sorted. project. apply sort_requests_sorted.
  - eapply waiting_sorted_trigger_put; [apply trigger_put_cases|exact Hp].
Qed.

End WaitQueue.

(** ** Event ids are not reused *)

Section EventIds.

Variable cfg : config.
Variable rng : generator.

Lemma eids_ok_schedule prio d c s :
  eids_ok s -> eids_ok (on_env (schedule prio d c) s).
Proof.
  intros [H1 H2]. constructor; project.
  - eapply Permutation_NoDup.
    + symmetry. apply Permutation_map, heappush_perm.
    + cbn [map]. project. constructor; [|exact H1].
      intro Hin. apply in_map_iff in Hin. destruct Hin as (x & Ex & Hx).
      rewrite Forall_forall in H2. specialize (H2 x Hx). lia.
  - apply Forall_heappush. split; [project; lia|].
    eapply Forall_impl; [|exact H2]. intros x Hx. cbv beta in Hx. lia.
Qed.

Lemma eids_ok_same_env s s' : env s' = env s -> eids_ok s -> eids_ok s'.
Proof. intros E [H1 H2]. constructor; rewrite E; assumption. Qed.

Lemma eids_ok_on_hospital f s : eids_ok s -> eids_ok (on_hospital f s).
Proof. apply eids_ok_same_env. reflexivity. Qed.

Lemma eids_ok_on_beds f s : eids_ok s -> eids_ok (on_beds f s).
Proof. apply eids_ok_same_env. reflexivity. Qed.

Lemma eids_ok_next_draw s : eids_ok s -> eids_ok (next_draw s).
Proof. apply eids_ok_same_env. reflexivity. Qed.

Lemma eids_ok_note_admission p t s : eids_ok s -> eids_ok (note_admission p t s).
Proof. apply eids_ok_same_env. reflexivity. Qed.

Ltac eids_ok_frame H :=
  unfold monitor_occupancy, admit_patient_granted, admit_patient_leave,
         do_release, process_exit;
  repeat first [ exact H
               | apply eids_ok_schedule
               | apply eids_ok_on_hospital
               | apply eids_ok_on_beds
               | apply eids_ok_next_draw
               | apply eids_ok_note_admission ].

Lemma eids_ok_trigger_put s s' :
  trigger_put_spec cfg s s' -> eids_ok s -> eids_ok s'.
Proof.
  intros H Hs. destruct H as [|r rest Hq Hlt]; [assumption|].
  apply (eids_ok_schedule NORMAL 0 (Request_granted (req_owner r))) in Hs.
  eapply eids_ok_same_env; [|exact Hs]. reflexivity.
Qed.

Lemma eids_ok_generator_loop id s s' :
  generator_loop_spec cfg rng id s s' -> eids_ok s -> eids_ok s'.
Proof.
  intros H Hs. destruct H; eids_ok_frame Hs.
Qed.

Lemma eids_ok_initial : eids_ok (initial_state cfg).
Proof.
  unfold initial_state.
  match goal with
  | |- eids_ok (on_env ?f ?x) =>
      change (eids_ok (on_env (schedule URGENT
                                 (inject_Z (SIMULATION_TIME cfg) - now (env x))
                                 Until) x))
  end.
  repeat apply eids_ok_schedule. constructor; cbn; constructor.
Qed.

Lemma eids_ok_step s s' :
  eids_ok s -> step cfg rng s = Running s' -> eids_ok s'.
Proof.
  intros Hs Hstep. apply running_inv in Hstep.
  destruct Hstep as (e & q & Hq & Hne & ->).
  assert (Hp : eids_ok (on_env (fun v => {| now := ev_time e; eid := eid v;
                                            queue := q |}) s)).
  { destruct Hs as [H1 H2]. rewrite Hq in H1, H2. cbn [map] in H1.
    inversion H1; subst. inversion H2; subst. constructor; project; assumption. }
  clear Hs.
  destruct (ev_call e) eqn:Hc; cbn [run_callback]; try congruence;
    try solve [eids_ok_frame Hp].
  - eapply eids_ok_generator_loop; [apply patient_generator_loop_cases|exact Hp].
  - unfold patient_generator_resume, choice, exponential.
    eapply eids_ok_generator_loop; [apply patient_generator_loop_cases|].
    eids_ok_frame Hp.
  - destruct (admit_patient_start_request cfg rng id ty los
                (on_env (fun v => {| now := ev_time e; eid := eid v;
                                     queue := q |}) s))
      as (s1 & -> & E1 & _).
    eapply eids_ok_trigger_put; [apply trigger_put_cases|].
    unfold do_request. apply eids_ok_on_beds.
    eapply eids_ok_same_env; [exact E1|exact Hp].
  - eapply eids_ok_trigger_put; [apply trigger_put_cases|exact Hp].
Qed.

End EventIds.

(** With distinct event ids the order of the heap leaves no tie. *)
Lemma entry_order_strict a b :
  ev_eid a <> ev_eid b -> entry_ltb a b = true \/ entry_ltb b a = true.
Proof.
  intro Hne. unfold entry_ltb.
  rewrite <- (Qcompare_antisym (ev_time b) (ev_time a)).
  rewrite (Z.compare_antisym (ev_prio b) (ev_prio a)).
  destruct (Qcompare (ev_time b) (ev_time a)); cbn [CompOpp]; auto.
  destruct (Z.compare (ev_prio b) (ev_prio a)); cbn [CompOpp]; auto.
  destruct (Nat.ltb_spec (ev_eid a) (ev_eid b)); [auto|].
  right. apply Nat.ltb_lt. lia.
Qed.

Lemma NoDup_map_injective {A B} (f : A -> B) l a b :
  NoDup (map f l) -> In a l -> In b l -> f a = f b -> a = b.
Proof.
  induction l as [|x l IH]; intros Hnd Ha Hb E; [inversion Ha|].
  cbn [map] in Hnd. inversion Hnd as [|? ? Hx Hrest]; subst.
  destruct Ha as [->|Ha]; destruct Hb as [->|Hb]; auto.
  - exfalso. apply Hx. rewrite E. apply in_map, Hb.
  - exfalso. apply Hx. rewrite <- E. apply in_map, Ha.
Qed.

(** ** The statistics of the report *)

Lemma fold_left_add l : forall acc,
  fold_left Z.add l acc = (acc + fold_left Z.add l 0)%Z.
Proof.
  induction l as [|x l IH]; intro acc; cbn [fold_left]; [lia|].
  rewrite (IH (acc + x)%Z), (IH (0 + x)%Z). lia.
Qed.

Lemma sum_between lo hi l :
  Forall (fun c => lo <= c <= hi)%Z l ->
  (Z.of_nat (length l) * lo <= fold_left Z.add l 0
   <= Z.of_nat (length l) * hi)%Z.
Proof.
  induction 1 as [|x l Hx _ IH]; [cbn; lia|].
  cbn [fold_left length]. rewrite fold_left_add. lia.
Qed.

Lemma np_mean_between lo hi l :
  l <> [] -> Forall (fun c => lo <= c <= hi)%Z l ->
  (inject_Z lo <= np_mean l <= inject_Z hi)%Q.
Proof.
  intros Hne Hall. pose proof (sum_between Hall) as [H1 H2].
  assert (Hn : (0 < Z.of_nat (length l))%Z).
  { destruct l; [congruence|]. cbn [length]. lia. }
  assert (Hq : (0 < inject_Z (Z.of_nat (length l)))%Q).
  { change 0%Q with (inject_Z 0). rewrite <- Zlt_Qlt. exact Hn. }
  unfold np_mean. split.
  - apply Qle_shift_div_l; [exact Hq|].
    rewrite <- inject_Z_mult, <- Zle_Qle. lia.
  - apply Qle_shift_div_r; [exact Hq|].
    rewrite <- inject_Z_mult, <- Zle_Qle. lia.
Qed.

Lemma np_max_spec l : forall x,
  In (np_max x l) (x :: l) /\ Forall (fun c => c <= np_max x l)%Z (x :: l).
Proof.
  unfold np_max. induction l as [|y l IH]; intro x; cbn [fold_left].
  - split; [left; reflexivity|]. constructor; [lia|constructor].
  - destruct (IH (Z.max x y)) as [Hin Hall]. split.
    + destruct Hin as [E|Hin].
      * rewrite <- E. destruct (Z.max_spec x y) as [[_ ->]|[_ ->]].
        -- right. left. reflexivity.
        -- left. reflexivity.
      * right. right. exact Hin.
    + inversion Hall as [|? ? Hm Hrest]; subst.
      constructor; [lia|]. constructor; [lia|exact Hrest].
Qed.

Lemma overflow_count_zero num_beds l :
  overflow_count num_beds l = 0 <-> Forall (fun c => c <= num_beds)%Z l.
Proof.
  unfold overflow_count. induction l as [|x l IH]; cbn [filter].
  - split; [constructor|reflexivity].
  - destruct (Z.ltb_spec num_beds x).
    + split; [discriminate|]. intro Hall. inversion Hall; subst. lia.
    + rewrite IH. split.
      * intro Hall. constructor; assumption.
      * intro Hall. inversion Hall; assumption.
Qed.

Lemma overflow_count_le num_beds l : overflow_count num_beds l <= length l.
Proof. unfold overflow_count. apply filter_length_le. Qed.

(** The recorder has sampled before the run returns. *)
Lemma returned_samples_nonempty cfg rng fuel final :
  widget_bounds cfg ->
  run cfg rng fuel (initial_state cfg) = Some final ->
  occupancy (hospital final) <> [].
Proof.
  intros Hwb Hrun.
  destruct (@run_reaches cfg rng fuel 0 (initial_state cfg) final eq_refl Hrun)
    as (n & s & Hn & Hstop).
  destruct (@stopped_at_horizon cfg rng n s final Hn Hstop) as [_ Hsampled].
  destruct (Hsampled 0%Z) as (m & s1 & s2 & e & q & Hm & _ & _ & _ & Hstep & _ & Ho & _).
  { pose proof (wb_time Hwb). lia. }
  assert (Hm' : after cfg rng (S m) = Some s2).
  { simpl. rewrite Hm, Hstep. reflexivity. }
  destruct (@run_through cfg rng fuel final (S m) s2 Hrun Hm') as [fuel' Hf].
  destruct (@run_keeps_samples cfg rng fuel' s2 final Hf) as (ts & cs & _ & Ec).
  rewrite Ec, Ho. intro E. apply app_eq_nil in E. destruct E as [E _].
  apply app_eq_nil in E. destruct E as [_ E]. discriminate.
Qed.

(** ** The NMCR analysis of the report *)

Lemma with_reason_split l :
  Forall (fun r => NMCR_Reason r <> None) l ->
  length (with_reason Internal l) + length (with_reason External l) = length l.
Proof.
  unfold with_reason. induction 1 as [|r l Hr _ IH]; [reflexivity|].
  cbn [filter]. destruct (NMCR_Reason r) as [[|]|]; [| |congruence];
    cbn [length]; lia.
Qed.

Lemma nmcr_patients_incl log r :
  In r (nmcr_patients log) -> In r log /\ (0 < NMCR_Delay r)%Q.
Proof.
  unfold nmcr_patients. intro H. apply filter_In in H.
  destruct H as [Hin Hd]. split; [exact Hin|]. apply Qltb_lt, Hd.
Qed.

Lemma series_mean_none l : series_mean l = None <-> length l = 0.
Proof.
  destruct l; cbn; split; intro H; try reflexivity; discriminate.
Qed.

Lemma percent_between k n :
  k <= n -> 0 < n ->
  (0 <= inject_Z (Z.of_nat k) / inject_Z (Z.of_nat n) * 100 <= 100)%Q.
Proof.
  intros Hk Hn.
  assert (Hq : (0 < inject_Z (Z.of_nat n))%Q).
  { change 0%Q with (inject_Z 0). rewrite <- Zlt_Qlt. lia. }
  assert (H0 : (0 <= inject_Z (Z.of_nat k) / inject_Z (Z.of_nat n))%Q).
  { apply Qle_shift_div_l; [exact Hq|]. rewrite Qmult_0_l.
    change 0%Q with (inject_Z 0). rewrite <- Zle_Qle. lia. }
  assert (H1 : (inject_Z (Z.of_nat k) / inject_Z (Z.of_nat n) <= 1)%Q).
  { apply Qle_shift_div_r; [exact Hq|]. rewrite Qmult_1_l.
    rewrite <- Zle_Qle. lia. }
  lra.
Qed.

(* ------------------------------------------------------------------ *)
(** ** The calculator page *)

Section CalculatorPage.

Import Occupancy_and_LOS.

Variable i : inputs.

Hypothesis Hrate : forall p, (0 <= ARRIVAL_RATES i p)%Q.
Hypothesis Hnz : ~ (total_arrival_rate i == 0)%Q.
Hypothesis Hlos : forall p, (0 < current_mean_los i p)%Q.


End CalculatorPage.

(* ------------------------------------------------------------------ *)
(** ** The number of samples *)

Lemma entry_ltb_spec a b :
  entry_ltb a b = true <->
  (ev_time a < ev_time b)%Q \/
  ((ev_time a == ev_time b)%Q /\
   ((ev_prio a < ev_prio b)%Z \/ (ev_prio a = ev_prio b /\ ev_eid a < ev_eid b))).
Proof.
  unfold entry_ltb.
  destruct (Qcompare_spec (ev_time a) (ev_time b)) as [Ht|Ht|Ht].
  - destruct (Z.compare_spec (ev_prio a) (ev_prio b)) as [Hp|Hp|Hp].
    + rewrite Nat.ltb_lt. split.
      * intro H. right. split; [exact Ht|]. right. split; assumption.
      * intros [H|(_ & [H|(_ & H)])]; [lra|lia|exact H].
    + split; [|reflexivity]. intros _. right. split; [exact Ht|]. left. exact Hp.
    + split; [discriminate|]. intros [H|(_ & [H|(H & _)])]; [lra|lia|lia].
  - split; [|reflexivity]. intros _. left. exact Ht.
  - split; [discriminate|]. intros [H|(H & _)]; lra.
Qed.

Lemma key_le_spec a b :
  key_le a b <->
  (ev_time a < ev_time b)%Q \/
  ((ev_time a == ev_time b)%Q /\
   ((ev_prio a < ev_prio b)%Z \/ (ev_prio a = ev_prio b /\ ev_eid a <= ev_eid b))).
Proof.
  unfold key_le. rewrite <- not_true_iff_false, entry_ltb_spec. split.
  - intro H.
    destruct (Qlt_le_dec (ev_time a) (ev_time b)) as [Ht|Ht]; [left; exact Ht|].
    destruct (Qlt_le_dec (ev_time b) (ev_time a)) as [Ht'|Ht'];
      [exfalso; apply H; left; exact Ht'|].
    assert (Et : (ev_time a == ev_time b)%Q) by lra.
    right. split; [exact Et|].
    destruct (Z_lt_le_dec (ev_prio a) (ev_prio b)) as [Hp|Hp]; [left; exact Hp|].
    destruct (Z_lt_le_dec (ev_prio b) (ev_prio a)) as [Hp'|Hp'].
    { exfalso. apply H. right. split; [lra|]. left. exact Hp'. }
    right. split; [lia|].
    destruct (le_lt_dec (ev_eid a) (ev_eid b)) as [He|He]; [exact He|].
    exfalso. apply H. right. split; [lra|]. right. split; [lia|exact He].
  - intros H H'.
    destruct H as [H|(H1 & [H|(H2 & H3)])];
      destruct H' as [H'|(H1' & [H'|(H2' & H3')])]; try lra; lia.
Qed.

Lemma key_le_trans a b c : key_le a b -> key_le b c -> key_le a c.
Proof.
  rewrite !key_le_spec.
  intros [H|(H1 & [H|(H2 & H3)])] [H'|(H1' & [H'|(H2' & H3')])];
    first [ left; lra
          | right; split; [lra|]; first [left; lia | right; split; lia] ].
Qed.

Lemma entry_ltb_key_le a b : entry_ltb a b = true -> key_le a b.
Proof.
  rewrite entry_ltb_spec, key_le_spec.
  intros [H|(H1 & [H|(H2 & H3)])];
    first [ left; lra
          | right; split; [lra|]; first [left; lia | right; split; lia] ].
Qed.

Lemma heappush_key_sorted e q :
  StronglySorted key_le q -> StronglySorted key_le (heappush e q).
Proof.
  induction 1 as [|x q Hq IH Hx]; simpl.
  - constructor; constructor.
  - destruct (entry_ltb e x) eqn:E.
    + constructor; [constructor; assumption|].
      apply entry_ltb_key_le in E. constructor; [assumption|].
      eapply Forall_impl; [|exact Hx]. intros y Hy.
      eapply key_le_trans; eauto.
    + constructor; [assumption|].
      apply Forall_heappush. split; [|assumption]. exact E.
Qed.

Section KeyOrder.

Variable cfg : config.
Variable rng : generator.

Lemma schedule_key_sorted prio d c s :
  key_sorted s -> key_sorted (on_env (schedule prio d c) s).
Proof. unfold key_sorted. project. apply heappush_key_sorted. Qed.

Lemma key_sorted_same_env s s' : env s' = env s -> key_sorted s -> key_sorted s'.
Proof. unfold key_sorted. intros ->. auto. Qed.

Lemma key_sorted_on_hospital f s : key_sorted s -> key_sorted (on_hospital f s).
Proof. apply key_sorted_same_env. reflexivity. Qed.

Lemma key_sorted_on_beds f s : key_sorted s -> key_sorted (on_beds f s).
Proof. apply key_sorted_same_env. reflexivity. Qed.

Lemma key_sorted_next_draw s : key_sorted s -> key_sorted (next_draw s).
Proof. apply key_sorted_same_env. reflexivity. Qed.

Lemma key_sorted_note_admission id t s :
  key_sorted s -> key_sorted (note_admission id t s).
Proof. apply key_sorted_same_env. reflexivity. Qed.

Ltac key_sorted_frame H :=
  unfold monitor_occupancy, admit_patient_granted, admit_patient_leave,
         do_release, process_exit;
  repeat first [ exact H
               | apply schedule_key_sorted
               | apply key_sorted_on_hospital
               | apply key_sorted_on_beds
               | apply key_sorted_next_draw
               | apply key_sorted_note_admission ].

Lemma key_sorted_trigger_put s s' :
  trigger_put_spec cfg s s' -> key_sorted s -> key_sorted s'.
Proof.
  intros H Hs. destruct H as [|r rest Hq Hlt]; [assumption|].
  unfold key_sorted in *. project. apply heappush_key_sorted, Hs.
Qed.

Lemma key_sorted_generator_loop id s s' :
  generator_loop_spec cfg rng id s s' -> key_sorted s -> key_sorted s'.
Proof.
  intros H Hs. destruct H; key_sorted_frame Hs.
Qed.

Lemma key_sorted_initial : key_sorted (initial_state cfg).
Proof.
  unfold key_sorted, initial_state. project.
  repeat apply heappush_key_sorted. constructor.
Qed.

Lemma key_sorted_step s s' :
  key_sorted s -> step cfg rng s = Running s' -> key_sorted s'.
Proof.
  intros Hs Hstep. apply running_inv in Hstep.
  destruct Hstep as (e & q & Hq & Hne & ->).
  assert (Hp : key_sorted (on_env (fun v => {| now := ev_time e; eid := eid v;
                                               queue := q |}) s)).
  { unfold key_sorted in *. project. rewrite Hq in Hs.
    inversion Hs; assumption. }
  clear Hs.
  destruct (ev_call e) eqn:Hc; cbn [run_callback]; try congruence;
    try solve [key_sorted_frame Hp].
  - eapply key_sorted_generator_loop; [apply patient_generator_loop_cases|exact Hp].
  - unfold patient_generator_resume, choice, exponential.
    eapply key_sorted_generator_loop; [apply patient_generator_loop_cases|].
    key_sorted_frame Hp.
  - unfold admit_patient_start, nmcr_outcome, rand, exponential.
    repeat match goal with
           | |- context [if ?b then _ else _] => destruct b
           | |- context [match ?b with Internal => _ | External => _ end] => destruct b
           end;
      (eapply key_sorted_trigger_put; [apply trigger_put_cases|];
       unfold do_request; key_sorted_frame Hp).
  - eapply key_sorted_trigger_put; [apply trigger_put_cases|exact Hp].
Qed.

Lemma after_key_sorted n s : after cfg rng n = Some s -> key_sorted s.
Proof.
  revert n s. apply after_invariant.
  - apply key_sorted_initial.
  - apply key_sorted_step.
Qed.

(** Every event adds as many samples as admissions and discharges, and
    an event of the recorder one more. *)
Lemma step_tally s s' e q :
  step cfg rng s = Running s' -> queue (env s) = e :: q ->
  tally s' = (tally s + Z.of_nat (monitor_weight e))%Z.
Proof.
  intros Hstep Hq. apply running_inv in Hstep.
  destruct Hstep as (e' & q' & Hq' & _ & ->).
  rewrite Hq in Hq'. inversion Hq'. subst e' q'. clear Hq'.
  set (s0 := on_env (fun v => {| now := ev_time e; eid := eid v; queue := q |}) s).
  assert (E0 : tally s0 = tally s) by reflexivity.
  rewrite <- E0. unfold tally, monitor_weight.
  destruct (ev_call e) eqn:Hc; cbn [run_callback is_monitor].
  - subst s0. unfold monitor_occupancy. project. rewrite length_app. cbn [length]. lia.
  - subst s0. unfold monitor_occupancy. project. rewrite length_app. cbn [length]. lia.
  - destruct (patient_generator_loop_frame cfg rng 0 s0) as (-> & -> & _).
    cbn. lia.
  - unfold patient_generator_resume, choice, exponential.
    match goal with
    | |- context [patient_generator_loop cfg rng ?i ?x] =>
        destruct (patient_generator_loop_frame cfg rng i x) as (-> & -> & _)
    end.
    subst s0. project. cbn. lia.
  - destruct (admit_patient_start_frame cfg rng id ty los s0) as (-> & -> & _).
    cbn. lia.
  - subst s0. unfold admit_patient_granted. project.
    rewrite !length_app. cbn [length]. lia.
  - subst s0. unfold admit_patient_leave, do_release, process_exit. project.
    rewrite !length_app. cbn [length]. lia.
  - destruct (trigger_put_frame cfg s0) as (-> & -> & _). cbn. lia.
  - cbn. lia.
  - cbn. lia.
Qed.

End KeyOrder.

Lemma monitor_weight_zero q :
  total_weight monitor_weight q = 0 ->
  Forall (fun x => is_monitor (ev_call x) = false) q.
Proof.
  induction q as [|x q IH]; [constructor|].
  rewrite total_weight_cons. unfold monitor_weight at 1.
  destruct (is_monitor (ev_call x)) eqn:E; intro H; [lia|].
  constructor; [assumption|]. apply IH. lia.
Qed.

Lemma monitor_weight_none q :
  Forall (fun x => is_monitor (ev_call x) = false) q ->
  total_weight monitor_weight q = 0.
Proof.
  induction 1 as [|x q Hx _ IH]; [reflexivity|].
  rewrite total_weight_cons, IH. unfold monitor_weight. rewrite Hx. reflexivity.
Qed.

Section SamplesCounted.

Variable cfg : config.
Variable rng : generator.
Hypothesis Hwb : widget_bounds cfg.

Lemma samples_counted_initial : samples_counted cfg (initial_state cfg).
Proof.
  pose proof (wb_time Hwb) as HT.
  constructor.
  - unfold initial_state. project. rewrite !Forall_heappush.
    repeat split; try constructor; intros; reflexivity.
  - unfold initial_state. project. rewrite !total_weight_heappush, total_weight_nil.
    reflexivity.
  - exists 0%Z. split; [lia|]. split; [|reflexivity].
    unfold initial_state. project. rewrite !Forall_heappush.
    split; [|split; [|split; [|constructor]]]; intro H; try discriminate.
    project. split; [ring|left; lia].
Qed.

Lemma samples_counted_step s s' :
  heap_ok cfg s -> key_sorted s -> samples_counted cfg s ->
  step cfg rng s = Running s' -> samples_counted cfg s'.
Proof.
  intros [_ Hunt] Hsorted [Hurg Hone (k & Hk & Hall & Ht)] Hstep.
  destruct (@running_inv cfg rng s s' Hstep) as (e & q & Hq & Hne & Es').
  pose proof (@step_tally cfg rng s s' e q Hstep Hq) as Htally.
  unfold key_sorted in Hsorted.
  rewrite Hq in Hunt, Hsorted, Hurg, Hone, Hall.
  apply Forall_cons_iff in Hall. destruct Hall as [Hte Htq].
  apply Forall_cons_iff in Hurg. destruct Hurg as [_ Huq].
  apply StronglySorted_inv in Hsorted. destruct Hsorted as [_ Hle].
  rewrite total_weight_cons in Hone.
  destruct (is_monitor (ev_call e)) eqn:Hm.
  - (* the recorder's turn *)
    destruct (@monitor_turn cfg rng s e q Hq Hm) as (s1 & Hs1 & Eq & _).
    rewrite Hstep in Hs1. injection Hs1 as <-.
    assert (Hwe : monitor_weight e = 1)
      by (unfold monitor_weight; rewrite Hm; reflexivity).
    rewrite Hwe in Hone, Htally.
    assert (Hq0 : total_weight monitor_weight q = 0) by lia.
    destruct (Hte Hm) as (Ek & Hlast).
    assert (Hlt : (k < SIMULATION_TIME cfg)%Z).
    { destruct Hlast as [H|Hprio]; [exact H|].
      inversion Hunt as [? ? [Hu _]|? ? Hex]; subst; [congruence|].
      apply Exists_exists in Hex. destruct Hex as (u & Hin & Hcu & Htu).
      rewrite Forall_forall in Huq, Hle.
      pose proof (Huq u Hin Hcu) as Hpu. pose proof (Hle u Hin) as Hkey.
      apply key_le_spec in Hkey. rewrite Hprio, Hpu, Ek, Htu in Hkey.
      unfold NORMAL, URGENT in Hkey.
      destruct Hkey as [H|(_ & [H|(H & _)])]; [|lia|lia].
      rewrite <- Zlt_Qlt in H. exact H. }
    constructor.
    + rewrite Eq. apply Forall_heappush. split; [|assumption].
      intro H. discriminate.
    + rewrite Eq, total_weight_heappush, Hq0. reflexivity.
    + exists (k + 1)%Z. split; [lia|]. split.
      * rewrite Eq. apply Forall_heappush. split.
        -- intros _. project. split; [|right; reflexivity].
           rewrite inject_Z_plus, Ek. reflexivity.
        -- apply monitor_weight_zero in Hq0.
           eapply Forall_impl; [|exact Hq0]. intros x Hx Hmx. congruence.
      * rewrite Htally, Ht. reflexivity.
  - (* any other callback *)
    assert (Hwe : monitor_weight e = 0)
      by (unfold monitor_weight; rewrite Hm; reflexivity).
    rewrite Hwe in Hone, Htally.
    destruct (@callback_pushes cfg rng (ev_call e)
                (on_env (fun v => {| now := ev_time e; eid := eid v; queue := q |}) s))
      as (new & Hperm & Hnew).
    rewrite <- Es' in Hperm. project.
    assert (Hnm : Forall (fun x => is_monitor (ev_call x) = false) new).
    { eapply Forall_impl; [|exact Hnew]. intros x (_ & Hc & _).
      destruct (is_monitor (ev_call x)); [|reflexivity].
      specialize (Hc eq_refl). congruence. }
    constructor.
    + apply (Permutation_Forall (Permutation_sym Hperm)).
      apply Forall_app. split; [|assumption].
      eapply Forall_impl; [|exact Hnew]. intros x (Hc & _) Hu. contradiction.
    + rewrite (total_weight_perm monitor_weight Hperm).
      unfold total_weight. rewrite map_app, list_sum_app.
      fold (total_weight monitor_weight new).
      fold (total_weight monitor_weight q).
      rewrite (monitor_weight_none Hnm). lia.
    + exists k. split; [exact Hk|]. split.
      * apply (Permutation_Forall (Permutation_sym Hperm)).
        apply Forall_app. split; [|assumption].
        eapply Forall_impl; [|exact Hnm]. intros x Hx Hmx. congruence.
      * rewrite Htally, Ht. lia.
Qed.

Lemma after_samples_counted n : forall s,
  after cfg rng n = Some s -> samples_counted cfg s.
Proof.
  induction n as [|n IH]; intros s Hn.
  - inversion Hn. apply samples_counted_initial.
  - simpl in Hn. destruct (after cfg rng n) as [s0|] eqn:E0; [|discriminate].
    destruct (step cfg rng s0) as [s1| |] eqn:E1; try discriminate.
    inversion Hn; subst s1.
    apply (@samples_counted_step s0 s);
      [exact (@after_heap_ok cfg rng n s0 E0)
      |exact (@after_key_sorted cfg rng n s0 E0)
      |apply IH; reflexivity
      |exact E1].
Qed.

(** When the run stops the recorder has taken one sample for each day. *)
Lemma stopped_tally n s final :
  after cfg rng n = Some s -> step cfg rng s = StopSimulation final ->
  tally final = SIMULATION_TIME cfg.
Proof.
  intros Hn Hstop.
  destruct (@after_samples_counted n s Hn) as [_ Hone (k & Hk & Hall & Ht)].
  pose proof (@after_monitor_ok cfg rng n s Hn) as [_ Hex _ Hunt].
  pose proof (@after_heap_ok cfg rng n s Hn) as [Hsorted _].
  apply stop_keeps in Hstop.
  destruct Hstop as (Eh & _ & Ea & _ & e & Hq & Hc & _).
  assert (Et : tally final = tally s) by (unfold tally; rewrite Eh, Ea; reflexivity).
  rewrite Et, Ht.
  rewrite Hq in Hex, Hunt, Hall, Hsorted.
  inversion Hunt as [|? ? Hue _]; subst. specialize (Hue Hc).
  inversion Hex as [? ? Hhead|? ? Htail]; subst.
  { rewrite Hc in Hhead. discriminate. }
  apply Exists_exists in Htail. destruct Htail as (x & Hx & Hmx).
  inversion Hall as [|? ? _ Htq]; subst.
  rewrite Forall_forall in Htq. destruct (Htq x Hx Hmx) as (Ek & _).
  inversion Hsorted as [|? ? _ Hle]; subst.
  rewrite Forall_forall in Hle. specialize (Hle x Hx). unfold time_le in Hle.
  rewrite Hue, Ek, <- Zle_Qle in Hle. lia.
Qed.

End SamplesCounted.

(* ------------------------------------------------------------------ *)
(** ** Identifiers in the order of arrival *)

Lemma flat_map_frames_heappush e q :
  Permutation (flat_map entry_frames (heappush e q))
              (entry_frames e ++ flat_map entry_frames q).
Proof.
  change (entry_frames e ++ flat_map entry_frames q)
    with (flat_map entry_frames (e :: q)).
  apply Permutation_flat_map, heappush_perm.
Qed.

Lemma live_frames_schedule prio d c s :
  Permutation (live_frames (on_env (schedule prio d c) s))
              (call_frames (now (env s) + d) c ++ live_frames s).
Proof.
  unfold live_frames, waiting_frames, logged_frames. project.
  rewrite (app_assoc (call_frames _ c)). apply Permutation_app_tail.
  apply flat_map_frames_heappush.
Qed.

Lemma live_frames_pop s e q :
  queue (env s) = e :: q ->
  live_frames s
  = entry_frames e
    ++ live_frames (on_env (fun v => {| now := ev_time e; eid := eid v; queue := q |}) s).
Proof.
  intro Hq. unfold live_frames, waiting_frames, logged_frames. project. rewrite Hq.
  cbn [flat_map]. rewrite <- app_assoc. reflexivity.
Qed.

Lemma live_frames_ids s : map fst (live_frames s) = live_ids s.
Proof.
  unfold live_frames, live_ids, waiting_frames, logged_frames, waiting_ids,
    logged_ids.
  rewrite !map_app, !map_map. cbn [fst]. f_equal.
  induction (queue (env s)) as [|e q IH]; [reflexivity|].
  cbn [flat_map]. rewrite map_app, IH. f_equal.
  unfold entry_frames, entry_ids. destruct (ev_call e); reflexivity.
Qed.

Section ArrivalOrder.

Variable cfg : config.
Variable rng : generator.

Lemma new_frame_arrival id ty los s :
  arrival_time (new_frame cfg rng id ty los s) = now (env s).
Proof.
  unfold new_frame, nmcr_outcome, rand, exponential.
  repeat match goal with
         | |- context [if ?b then _ else _] => destruct b
         | |- context [match ?b with Internal => _ | External => _ end] => destruct b
         end; reflexivity.
Qed.

Lemma live_frames_trigger_put s s' :
  trigger_put_spec cfg s s' -> Permutation (live_frames s') (live_frames s).
Proof.
  intros [|r rest Hq Hlt]; [reflexivity|].
  unfold live_frames, waiting_frames, logged_frames. project. rewrite Hq. cbn [map].
  rewrite flat_map_frames_heappush. unfold entry_frames at 1. project.
  cbn [call_frames]. cbn [app]. apply Permutation_middle.
Qed.

Lemma live_frames_generator_loop id s s' :
  generator_loop_spec cfg rng id s s' -> Permutation (live_frames s') (live_frames s).
Proof.
  intros [|Hlt Hnz].
  - apply (live_frames_schedule NORMAL 0 Process_ended s).
  - eapply perm_trans; [apply live_frames_schedule|]. reflexivity.
Qed.

(** The patients in the system after a callback has run. *)
Lemma live_frames_callback c s :
  Permutation (live_frames (run_callback cfg rng c s))
              (frames_after (now (env s)) c ++ live_frames s).
Proof.
  destruct c; cbn [run_callback frames_after call_frames app].
  - unfold monitor_occupancy.
    eapply perm_trans; [apply live_frames_schedule|]. reflexivity.
  - unfold monitor_occupancy.
    eapply perm_trans; [apply live_frames_schedule|]. reflexivity.
  - eapply live_frames_generator_loop, patient_generator_loop_cases.
  - unfold patient_generator_resume, choice, exponential.
    eapply perm_trans;
      [eapply live_frames_generator_loop, patient_generator_loop_cases|].
    eapply perm_trans; [apply live_frames_schedule|]. reflexivity.
  - destruct (admit_patient_start_request cfg rng id ty los s)
      as (s1 & -> & E1 & E2 & E3 & _).
    unfold do_request.
    eapply perm_trans; [eapply live_frames_trigger_put, trigger_put_cases|].
    unfold live_frames, waiting_frames, logged_frames. project.
    rewrite E1, E2, E3.
    rewrite (Permutation_map _ (sorted_append_perm _ _)). cbn [map]. project.
    rewrite new_frame_id, new_frame_arrival. symmetry. apply Permutation_middle.
  - unfold admit_patient_granted.
    eapply perm_trans; [apply live_frames_schedule|]. reflexivity.
  - unfold admit_patient_leave, do_release, process_exit.
    eapply perm_trans; [apply live_frames_schedule|]. cbn [call_frames app].
    unfold live_frames, waiting_frames, logged_frames. project.
    rewrite flat_map_frames_heappush. unfold entry_frames at 1. project.
    cbn [call_frames app].
    rewrite map_app. cbn [map]. unfold discharge_record at 1 2.
    cbn [Patient_ID Arrival_Time].
    rewrite !app_assoc. symmetry. apply Permutation_cons_append.
  - eapply live_frames_trigger_put, trigger_put_cases.
  - reflexivity.
  - reflexivity.
Qed.

Lemma arrivals_ordered_initial : arrivals_ordered (initial_state cfg).
Proof.
  assert (E : Permutation (live_frames (initial_state cfg)) []).
  { unfold initial_state, live_frames, waiting_frames, logged_frames. project.
    rewrite !flat_map_frames_heappush. reflexivity. }
  apply Permutation_sym, Permutation_nil in E. constructor; rewrite E.
  - constructor.
  - intros a b [].
Qed.

Lemma arrivals_ordered_step s s' :
  heap_ok cfg s -> clock_ok s -> ids_ok s -> arrivals_ordered s ->
  step cfg rng s = Running s' -> arrivals_ordered s'.
Proof.
  intros Hh Hc [_ _ (k & Hlt & Hnext)] [Hpast Hord] Hstep.
  destruct (@clock_advances cfg rng s s' Hh Hc Hstep) as [Hnow _].
  destruct (step_moves cfg rng s Hstep) as (e0 & q0 & Hq0 & Enow & _).
  apply running_inv in Hstep.
  destruct Hstep as (e & q & Hq & Hne & Es').
  rewrite Hq in Hq0. injection Hq0 as <- <-.
  set (s0 := on_env (fun v => {| now := ev_time e; eid := eid v; queue := q |}) s)
    in *.
  pose proof (live_frames_pop s Hq) as Elive. fold s0 in Elive.
  pose proof (live_frames_callback (ev_call e) s0) as Hperm.
  rewrite <- Es' in Hperm. change (now (env s0)) with (ev_time e) in Hperm.
  rewrite <- live_frames_ids in Hlt.
  rewrite Hq in Hnext. apply Forall_cons_iff in Hnext. destruct Hnext as [Hke _].
  assert (Hold : forall f, In f (live_frames s) ->
                           (snd f <= now (env s'))%Q /\ fst f < k).
  { intros f Hf. split.
    - rewrite Forall_forall in Hpast. specialize (Hpast f Hf). lra.
    - rewrite Forall_forall in Hlt. apply Hlt. apply in_map, Hf. }
  assert (Hcases :
    forall f, In f (live_frames s') ->
              In f (live_frames s) \/
              (exists j, ev_call e = Arrival_timeout j /\ f = (j, (ev_time e + 0)%Q))).
  { intros f Hf. apply (Permutation_in _ Hperm) in Hf.
    apply in_app_or in Hf. rewrite Elive.
    destruct Hf as [Hf|Hf]; [|left; apply in_or_app; right; exact Hf].
    unfold entry_frames. destruct (ev_call e) eqn:Hcall;
      cbn [frames_after call_frames] in Hf |- *;
      try (left; apply in_or_app; left; exact Hf).
    destruct Hf as [<-|[]]. right. eexists. split; reflexivity. }
  constructor.
  - apply Forall_forall. intros f Hf.
    destruct (Hcases f Hf) as [H|(j & _ & ->)]; [apply Hold, H|].
    cbn [snd]. rewrite Enow. lra.
  - intros a b Ha Hb Hab.
    destruct (Hcases a Ha) as [Ha'|(j & Hj & ->)];
      destruct (Hcases b Hb) as [Hb'|(j' & Hj' & ->)].
    + apply Hord; assumption.
    + cbn [snd]. destruct (Hold a Ha') as [H _]. rewrite Enow in H. lra.
    + exfalso. destruct (Hold b Hb') as [_ H]. cbn [fst] in Hab.
      unfold next_id_from in Hke. rewrite Hj in Hke. lia.
    + exfalso. cbn [fst] in Hab. rewrite Hj in Hj'. injection Hj' as <-. lia.
Qed.

Lemma after_arrivals_ordered n : forall s,
  widget_bounds cfg -> variates_ok rng ->
  after cfg rng n = Some s -> arrivals_ordered s.
Proof.
  intros s Hwb Hv. revert s.
  induction n as [|n IH]; intros s Hn.
  - inversion Hn. apply arrivals_ordered_initial.
  - simpl in Hn. destruct (after cfg rng n) as [s0|] eqn:E0; [|discriminate].
    destruct (step cfg rng s0) as [s1| |] eqn:E1; try discriminate.
    inversion Hn; subst s1.
    apply (@arrivals_ordered_step s0 s);
      [exact (@after_heap_ok cfg rng n s0 E0)
      |exact (@after_clock_ok cfg rng n s0 Hwb Hv E0)
      |exact (@after_ids_ok cfg rng n s0 E0)
      |apply IH; reflexivity
      |exact E1].
Qed.

End ArrivalOrder.

(* ------------------------------------------------------------------ *)
(** ** Nothing happens at the horizon *)

Section BeforeHorizon.

Variable cfg : config.
Variable rng : generator.

Ltac scheduled := repeat split; project; (discriminate || reflexivity || auto).

Lemma trigger_put_schedules s s' :
  trigger_put_spec cfg s s' ->
  exists new, Permutation (queue (env s')) (new ++ queue (env s)) /\
              Forall (scheduled_at (now (env s))) new.
Proof.
  intros [|r rest Hq Hlt].
  - exists []. split; [reflexivity|constructor].
  - eexists [_]. project. split; [apply heappush_perm|].
    constructor; [|constructor]. scheduled.
Qed.

Lemma generator_loop_schedules id s s' :
  generator_loop_spec cfg rng id s s' ->
  exists new, Permutation (queue (env s')) (new ++ queue (env s)) /\
              Forall (scheduled_at (now (env s))) new.
Proof.
  intros [|Hlt Hnz]; eexists [_]; project;
    (split; [apply heappush_perm|]);
    (constructor; [|constructor]); scheduled.
Qed.

(** Whatever runs schedules only what [scheduled_at] allows. *)
Lemma callback_schedules c s :
  exists new,
    Permutation (queue (env (run_callback cfg rng c s))) (new ++ queue (env s)) /\
    Forall (scheduled_at (now (env s))) new.
Proof.
  destruct c; cbn [run_callback].
  - unfold monitor_occupancy. eexists [_]. project.
    split; [apply heappush_perm|]. constructor; [|constructor]. scheduled.
  - unfold monitor_occupancy. eexists [_]. project.
    split; [apply heappush_perm|]. constructor; [|constructor]. scheduled.
  - eapply generator_loop_schedules, patient_generator_loop_cases.
  - unfold patient_generator_resume, choice, exponential.
    match goal with
    | |- context [patient_generator_loop _ _ ?i ?x] =>
        destruct (@generator_loop_schedules i x _
                    (patient_generator_loop_cases cfg rng i x))
          as (new & Hperm & Hall)
    end.
    eexists (new ++ [_]). split.
    + eapply perm_trans; [exact Hperm|]. clear Hperm. project.
      rewrite <- app_assoc. apply Permutation_app_head. apply heappush_perm.
    + apply Forall_app. split; [exact Hall|].
      constructor; [|constructor]. scheduled.
  - destruct (admit_patient_start_request cfg rng id ty los s)
      as (s1 & -> & E1 & _).
    unfold do_request.
    match goal with
    | |- context [trigger_put _ ?x] =>
        destruct (trigger_put_schedules (trigger_put_cases cfg x))
          as (new & Hperm & Hall)
    end.
    exists new. project. rewrite <- E1. split; assumption.
  - unfold admit_patient_granted. eexists [_]. project.
    split; [apply heappush_perm|].
    constructor; [|constructor]. scheduled.
  - unfold admit_patient_leave. eexists [_; _]. project.
    split.
    + eapply perm_trans; [apply heappush_perm|]. apply perm_skip, heappush_perm.
    + constructor; [|constructor; [|constructor]]; scheduled.
  - eapply trigger_put_schedules, trigger_put_cases.
  - exists []. split; [reflexivity|constructor].
  - exists []. split; [reflexivity|constructor].
Qed.

Hypothesis Hwb : widget_bounds cfg.

Lemma before_horizon_initial : before_horizon cfg (initial_state cfg).
Proof.
  pose proof (wb_time Hwb) as HT.
  assert (H0 : (0 < inject_Z (SIMULATION_TIME cfg))%Q).
  { change 0%Q with (inject_Z 0). rewrite <- Zlt_Qlt. lia. }
  unfold initial_state. constructor; project.
  - exact H0.
  - rewrite !Forall_heappush.
    split; [|split; [|split; [|constructor]]]; unfold prio_ok; project.
    + right. right. reflexivity.
    + right. left. lra.
    + right. left. lra.
  - rewrite !Forall_heappush.
    split; [|split; [|split; [|constructor]]]; project; intros;
      (reflexivity || discriminate).
  - rewrite !Forall_heappush.
    split; [|split; [|split; [|constructor]]]; project; intros; discriminate.
Qed.

Lemma before_horizon_step s s' :
  heap_ok cfg s -> key_sorted s -> clock_ok s -> before_horizon cfg s ->
  step cfg rng s = Running s' -> before_horizon cfg s'.
Proof.
  intros Hh Hsorted Hc [Hnow Hprio Hurg Hrel] Hstep.
  destruct (@clock_advances cfg rng s s' Hh Hc Hstep) as [Hadv _].
  destruct (step_moves cfg rng s Hstep) as (e0 & q0 & Hq0 & Enow & _).
  apply running_inv in Hstep.
  destruct Hstep as (e & q & Hq & Hne & Es').
  rewrite Hq in Hq0. injection Hq0 as <- <-.
  destruct Hh as [_ Hunt]. unfold key_sorted in Hsorted.
  rewrite Hq in Hunt, Hsorted, Hprio, Hurg, Hrel.
  apply Forall_cons_iff in Hprio. destruct Hprio as [Hpe Hpq].
  apply Forall_cons_iff in Hurg. destruct Hurg as [_ Huq].
  apply Forall_cons_iff in Hrel. destruct Hrel as [_ Hrq].
  apply StronglySorted_inv in Hsorted. destruct Hsorted as [_ Hle].
  assert (Hlt : (ev_time e < inject_Z (SIMULATION_TIME cfg))%Q).
  { destruct Hpe as [Hp|[Ht|Hu]]; [|exact Ht|congruence].
    inversion Hunt as [? ? [Hu _]|? ? Hex]; subst; [congruence|].
    apply Exists_exists in Hex. destruct Hex as (u & Hin & Hcu & Htu).
    rewrite Forall_forall in Huq, Hle.
    pose proof (Huq u Hin Hcu) as Hpu. pose proof (Hle u Hin) as Hkey.
    apply key_le_spec in Hkey. rewrite Hp, Hpu, Htu in Hkey.
    unfold NORMAL, URGENT in Hkey.
    destruct Hkey as [H|(_ & [H|(H & _)])]; [exact H|lia|lia]. }
  destruct (callback_schedules (ev_call e)
              (on_env (fun v => {| now := ev_time e; eid := eid v; queue := q |}) s))
    as (new & Hperm & Hnew).
  rewrite <- Es' in Hperm. project.
  constructor.
  - rewrite Enow. exact Hlt.
  - apply (Permutation_Forall (Permutation_sym Hperm)).
    apply Forall_app. split; [|exact Hpq].
    eapply Forall_impl; [|exact Hnew]. intros x (_ & [Hp|Ht] & _).
    + left. exact Hp.
    + right. left. rewrite Ht. lra.
  - apply (Permutation_Forall (Permutation_sym Hperm)).
    apply Forall_app. split; [|exact Huq].
    eapply Forall_impl; [|exact Hnew]. intros x (Hx & _) Hu. contradiction.
  - apply (Permutation_Forall (Permutation_sym Hperm)).
    apply Forall_app. split.
    + eapply Forall_impl; [|exact Hnew]. intros x (_ & _ & Hx) Hr.
      rewrite (Hx Hr), Enow. lra.
    + eapply Forall_impl; [|exact Hrq]. intros x Hx Hr.
      specialize (Hx Hr). lra.
Qed.

Hypothesis Hv : variates_ok rng.

Lemma after_before_horizon n : forall s,
  after cfg rng n = Some s -> before_horizon cfg s.
Proof.
  induction n as [|n IH]; intros s Hn.
  - inversion Hn. apply before_horizon_initial.
  - simpl in Hn. destruct (after cfg rng n) as [s0|] eqn:E0; [|discriminate].
    destruct (step cfg rng s0) as [s1| |] eqn:E1; try discriminate.
    inversion Hn; subst s1.
    apply (@before_horizon_step s0 s);
      [exact (@after_heap_ok cfg rng n s0 E0)
      |exact (@after_key_sorted cfg rng n s0 E0)
      |exact (@after_clock_ok cfg rng n s0 Hwb Hv E0)
      |apply IH; reflexivity
      |exact E1].
Qed.

(** When the run stops no release is pending. *)
Lemma stopped_no_release n s final :
  after cfg rng n = Some s -> step cfg rng s = StopSimulation final ->
  total_weight release_weight (queue (env final)) = 0.
Proof.
  intros Hn Hstop.
  destruct (@after_before_horizon n s Hn) as [Hnow _ _ Hrel].
  pose proof (@after_monitor_ok cfg rng n s Hn) as [_ _ _ Hunt].
  pose proof (@after_heap_ok cfg rng n s Hn) as [Hsorted _].
  apply stop_keeps in Hstop.
  destruct Hstop as (_ & _ & _ & _ & e & Hq & Hc & _).
  rewrite Hq in Hunt, Hrel, Hsorted.
  apply Forall_cons_iff in Hunt. destruct Hunt as [Hue _]. specialize (Hue Hc).
  apply Forall_cons_iff in Hrel. destruct Hrel as [_ Hrq].
  apply StronglySorted_inv in Hsorted. destruct Hsorted as [_ Hle].
  revert Hrq Hle. generalize (queue (env final)) as l.
  induction l as [|x l IH]; intros Hrq Hle; [reflexivity|].
  apply Forall_cons_iff in Hrq. destruct Hrq as [Hx Hrq].
  apply Forall_cons_iff in Hle. destruct Hle as [Hxe Hle].
  rewrite total_weight_cons, (IH Hrq Hle). unfold release_weight.
  destruct (ev_call x) eqn:Hcx; try reflexivity.
  exfalso. specialize (Hx eq_refl). unfold time_le in Hxe. lra.
Qed.

End BeforeHorizon.

(* ------------------------------------------------------------------ *)
(** ** No slot stands idle while a request waits *)

Ltac count_slots :=
  unfold no_idle_slot, slots_taken in *; project;
  rewrite ?total_weight_heappush, ?total_weight_cons, ?total_weight_nil, ?length_app;
  unfold release_weight; project; cbn [length];
  fold release_weight.

Section IdleSlots.

Variable cfg : config.
Variable rng : generator.

(** [_trigger_put] serves the head of the queue when a slot is free. *)
Lemma trigger_put_no_idle x :
  (forall r rest, put_queue (beds x) = r :: rest -> rest <> [] ->
                  (capacity cfg <= slots_taken x + 1)%Z) ->
  no_idle_slot cfg (trigger_put cfg x).
Proof.
  intro H. unfold trigger_put.
  destruct (put_queue (beds x)) as [|r rest] eqn:Hq.
  - intro Hne. congruence.
  - destruct (Z.ltb_spec (Z.of_nat (length (users (beds x)))) (capacity cfg))
      as [Hlt|Hge].
    + specialize (H r rest eq_refl). count_slots. intro Hne.
      specialize (H Hne). lia.
    + intros _. unfold slots_taken. lia.
Qed.

Lemma no_idle_slot_generator_loop id s s' :
  generator_loop_spec cfg rng id s s' -> no_idle_slot cfg s -> no_idle_slot cfg s'.
Proof.
  intros H Hs. destruct H; count_slots; intro Hne; specialize (Hs Hne); lia.
Qed.

Lemma no_idle_slot_initial : no_idle_slot cfg (initial_state cfg).
Proof.
  unfold initial_state, no_idle_slot. project. intro H. congruence.
Qed.

Lemma no_idle_slot_step s s' :
  no_idle_slot cfg s -> step cfg rng s = Running s' -> no_idle_slot cfg s'.
Proof.
  intros Hs Hstep. apply running_inv in Hstep.
  destruct Hstep as (e & q & Hq & Hne & ->).
  unfold no_idle_slot, slots_taken in Hs. rewrite Hq in Hs.
  rewrite total_weight_cons in Hs. unfold release_weight at 1 in Hs.
  destruct (ev_call e) eqn:Hc; cbn [run_callback]; try congruence.
  - (* Initialize_monitor *)
    count_slots. intro H. specialize (Hs H). lia.
  - (* Monitor_timeout *)
    count_slots. intro H. specialize (Hs H). lia.
  - (* Initialize_generator *)
    eapply no_idle_slot_generator_loop; [apply patient_generator_loop_cases|].
    count_slots. exact Hs.
  - (* Arrival_timeout *)
    unfold patient_generator_resume, choice, exponential.
    eapply no_idle_slot_generator_loop; [apply patient_generator_loop_cases|].
    count_slots. intro H. specialize (Hs H). lia.
  - (* Initialize_patient *)
    match goal with
    | |- no_idle_slot _ (admit_patient_start _ _ ?i ?t ?l ?x) =>
        destruct (admit_patient_start_request cfg rng i t l x)
          as (s1 & -> & E1 & E2 & _)
    end.
    unfold do_request. apply trigger_put_no_idle.
    intros r rest Hput Hrest. unfold slots_taken. project.
    rewrite E1, E2 in *. project.
    assert (Hlen : length (put_queue (beds s)) <> 0).
    { apply (f_equal (@length _)) in Hput.
      rewrite length_sorted_append in Hput. cbn [length] in Hput.
      destruct rest; [congruence|]. cbn [length] in Hput. lia. }
    assert (Hput' : put_queue (beds s) <> []).
    { intro E. rewrite E in Hlen. apply Hlen. reflexivity. }
    specialize (Hs Hput'). lia.
  - (* Request_granted *)
    count_slots. intro H. specialize (Hs H). lia.
  - (* Stay_timeout *)
    pose proof (length_remove_request (patient_id p) (users (beds s))).
    count_slots. intro H'. specialize (Hs H'). lia.
  - (* Release_processed *)
    apply trigger_put_no_idle. intros r rest Hput _.
    unfold slots_taken. project.
    assert (Hput' : put_queue (beds s) <> []) by (rewrite Hput; discriminate).
    specialize (Hs Hput'). lia.
  - (* Process_ended *)
    count_slots. exact Hs.
Qed.

Lemma after_no_idle_slot n s : after cfg rng n = Some s -> no_idle_slot cfg s.
Proof.
  revert n s. apply after_invariant.
  - apply no_idle_slot_initial.
  - apply no_idle_slot_step.
Qed.

End IdleSlots.

(* ------------------------------------------------------------------ *)
(** * Further properties of the code *)

Lemma reached_samples_ok cfg rng s :
  reached cfg rng s ->
  exists s0, samples_ok s0 /\ hospital s = hospital s0 /\
             admissions s = admissions s0.
Proof.
  intro Hr. apply reached_between in Hr.
  destruct Hr as (n & s0 & Hn & E1 & _ & E3).
  exists s0. split; [|auto].
  clear E1 E3. revert n s0 Hn. apply after_invariant.
  - apply samples_ok_initial.
  - apply samples_ok_step.
Qed.

(** X1. [hospital.times] and [hospital.occupancy] always have the same
    length, so that the data frame of line 178 can be built from them. *)
Theorem samples_aligned cfg rng s :
  reached cfg rng s ->
  length (times (hospital s)) = length (occupancy (hospital s)).
Proof.
  intro Hr. destruct (reached_samples_ok Hr) as (s0 & [Ha _ _ _] & -> & _).
  exact Ha.
Qed.

Lemma samples_aligned_witness :
  exists s, after small_ward steady 9 = Some s /\
            length (times (hospital s)) = length (occupancy (hospital s)).
Proof.
  eexists. split; [vm_compute; reflexivity|].
  apply (@samples_aligned small_ward steady).
  left. exists 9. vm_compute. reflexivity.
Defined.

(** X2. The occupancy series moves by single beds: two neighbouring samples
    differ by one at most, and once a sample exists the last one is the
    current number of occupied beds. *)
Theorem samples_follow_counter cfg rng s :
  reached cfg rng s ->
  gentle (occupancy (hospital s)) /\
  (occupancy (hospital s) <> [] ->
   last (occupancy (hospital s)) 0%Z = occupied_beds (hospital s)).
Proof.
  intro Hr. destruct (reached_samples_ok Hr) as (s0 & [_ Hg Hl _] & -> & _).
  split; [exact Hg|]. intro Hne.
  rewrite (last_default _ (occupied_beds (hospital s0)) Hne). exact Hl.
Qed.

Lemma samples_follow_counter_witness :
  exists s, after small_ward steady 9 = Some s /\
            gentle (occupancy (hospital s)) /\
            (occupancy (hospital s) <> [] ->
             last (occupancy (hospital s)) 0%Z = occupied_beds (hospital s)).
Proof.
  eexists. split; [vm_compute; reflexivity|].
  apply (@samples_follow_counter small_ward steady).
  left. exists 9. vm_compute. reflexivity.
Defined.

(** X3. The counter of occupied beds is the number of patients admitted so
    far less the number of patients discharged, whose records are the log. *)
Theorem beds_balance cfg rng s :
  reached cfg rng s ->
  occupied_beds (hospital s)
  = (Z.of_nat (length (admissions s))
     - Z.of_nat (length (patients (hospital s))))%Z.
Proof.
  intro Hr. destruct (reached_samples_ok Hr) as (s0 & [_ _ _ Hb] & -> & ->).
  exact Hb.
Qed.

Lemma beds_balance_witness :
  exists s, after small_ward steady 15 = Some s /\
            occupied_beds (hospital s)
            = (Z.of_nat (length (admissions s))
               - Z.of_nat (length (patients (hospital s))))%Z.
Proof.
  eexists. split; [vm_compute; reflexivity|].
  apply (@beds_balance small_ward steady).
  left. exists 15. vm_compute. reflexivity.
Defined.

Lemma after_timeline_ok cfg rng n s :
  widget_bounds cfg -> variates_ok rng -> after cfg rng n = Some s ->
  heap_ok cfg s /\ clock_ok s /\ timeline_ok cfg s.
Proof.
  intros Hwb Hv. revert n s. apply after_invariant.
  - split; [apply heap_ok_initial|].
    split; [apply clock_ok_initial; assumption|].
    apply timeline_ok_initial, Hwb.
  - intros s s' (H1 & H2 & H3) Hstep. split; [|split].
    + eapply heap_ok_step; eauto.
    + eapply clock_ok_step; eauto.
    + eapply timeline_ok_step; eauto.
Qed.

(** X4. The simulation clock never goes back and never passes the horizon:
    each processed event leaves [env.now] at least where it was and at most
    at [SIMULATION_TIME]. *)
Theorem clock_never_goes_back cfg rng n s s' :
  widget_bounds cfg -> variates_ok rng ->
  after cfg rng n = Some s -> step cfg rng s = Running s' ->
  (now (env s) <= now (env s') <= inject_Z (SIMULATION_TIME cfg))%Q.
Proof.
  intros Hwb Hv Hn Hstep.
  destruct (@after_timeline_ok cfg rng n s Hwb Hv Hn) as (Hh & Hc & _).
  eapply clock_advances; eassumption.
Qed.

Lemma clock_never_goes_back_witness :
  widget_bounds small_ward /\ variates_ok steady /\
  exists s s',
    after small_ward steady 5 = Some s /\
    step small_ward steady s = Running s' /\
    (now (env s) <= now (env s') <= inject_Z (SIMULATION_TIME small_ward))%Q.
Proof.
  split; [exact widget_bounds_small_ward|].
  split; [exact variates_ok_steady|].
  eexists. eexists.
  split; [vm_compute; reflexivity|].
  split; [vm_compute; reflexivity|].
  apply (@clock_never_goes_back small_ward steady 5).
  - exact widget_bounds_small_ward.
  - exact variates_ok_steady.
  - vm_compute. reflexivity.
  - vm_compute. reflexivity.
Defined.

(** X5. The sample times are in non-decreasing order and lie between 0 and
    the horizon. *)
Theorem sample_times_in_order cfg rng s :
  widget_bounds cfg -> variates_ok rng -> reached cfg rng s ->
  StronglySorted Qle (times (hospital s)) /\
  Forall (fun t => 0 <= t <= inject_Z (SIMULATION_TIME cfg))%Q (times (hospital s)).
Proof.
  intros Hwb Hv Hr. apply reached_between in Hr.
  destruct Hr as (n & s0 & Hn & -> & _).
  destruct (@after_timeline_ok cfg rng n s0 Hwb Hv Hn) as (_ & _ & [[_ HT] Ht Hs _ _]).
  split; [exact Hs|].
  eapply Forall_impl; [|exact Ht]. intros t Hx. cbv beta in Hx. lra.
Qed.

Lemma sample_times_in_order_witness :
  widget_bounds small_ward /\ variates_ok steady /\
  exists s,
    after small_ward steady 12 = Some s /\
    StronglySorted Qle (times (hospital s)) /\
    Forall (fun t => 0 <= t <= inject_Z (SIMULATION_TIME small_ward))%Q
           (times (hospital s)).
Proof.
  split; [exact widget_bounds_small_ward|].
  split; [exact variates_ok_steady|].
  eexists. split; [vm_compute; reflexivity|].
  apply (@sample_times_in_order small_ward steady).
  - exact widget_bounds_small_ward.
  - exact variates_ok_steady.
  - left. exists 12. vm_compute. reflexivity.
Defined.

(** X6. The patient log is in order of discharge, and every discharge it
    records happened within the horizon. *)
Theorem log_in_discharge_order cfg rng s :
  widget_bounds cfg -> variates_ok rng -> reached cfg rng s ->
  StronglySorted discharged_before (patients (hospital s)) /\
  Forall (fun r => Discharge_Time r <= inject_Z (SIMULATION_TIME cfg))%Q
         (patients (hospital s)).
Proof.
  intros Hwb Hv Hr. apply reached_between in Hr.
  destruct Hr as (n & s0 & Hn & -> & _).
  destruct (@after_timeline_ok cfg rng n s0 Hwb Hv Hn) as (_ & _ & [[_ HT] _ _ Hl Hs]).
  split; [exact Hs|].
  eapply Forall_impl; [|exact Hl]. intros r Hx. cbv beta in Hx. lra.
Qed.

Lemma log_in_discharge_order_witness :
  widget_bounds small_ward /\ variates_ok steady /\
  exists s,
    after small_ward steady 20 = Some s /\
    length (patients (hospital s)) = 2 /\
    StronglySorted discharged_before (patients (hospital s)) /\
    Forall (fun r => Discharge_Time r <= inject_Z (SIMULATION_TIME small_ward))%Q
           (patients (hospital s)).
Proof.
  split; [exact widget_bounds_small_ward|].
  split; [exact variates_ok_steady|].
  eexists. split; [vm_compute; reflexivity|].
  split; [reflexivity|].
  apply (@log_in_discharge_order small_ward steady).
  - exact widget_bounds_small_ward.
  - exact variates_ok_steady.
  - left. exists 20. vm_compute. reflexivity.
Defined.

Lemma reached_all_arrivals cfg rng (A : nat -> ptype -> Q -> Prop) s :
  (forall id n, ~ (sum_rates (ARRIVAL_RATES cfg) == 0)%Q ->
                A id (drawn_type cfg rng n) (drawn_length_of_stay cfg rng n)) ->
  reached cfg rng s ->
  Forall (fun r => A (patient_id (req_owner r)) (p_type (req_owner r))
                     (length_of_stay (req_owner r)))
         (put_queue (beds s)) /\
  Forall (fun r => A (Patient_ID r) (Type_ r) (Length_of_Stay r))
         (patients (hospital s)).
Proof.
  intros Hborn Hr. apply reached_between in Hr.
  destruct Hr as (n & s0 & Hn & -> & -> & _).
  assert (H : all_arrivals cfg A s0).
  { revert n s0 Hn. apply after_invariant.
    - apply all_arrivals_initial.
    - apply all_arrivals_step. exact Hborn. }
  destruct H as [_ H2 H3]. split; assumption.
Qed.

(** X7. A patient type whose arrival rate is zero never arrives: every
    patient waiting for a bed and every patient of the log has a type of
    positive arrival rate. *)
Theorem arrivals_have_positive_rate cfg rng s :
  widget_bounds cfg -> variates_ok rng -> reached cfg rng s ->
  (forall q, In q (put_queue (beds s)) ->
             (0 < ARRIVAL_RATES cfg (p_type (req_owner q)))%Q) /\
  (forall r, In r (patients (hospital s)) ->
             (0 < ARRIVAL_RATES cfg (Type_ r))%Q).
Proof.
  intros Hwb Hv Hr.
  destruct (@reached_all_arrivals cfg rng
              (fun _ ty _ => (0 < ARRIVAL_RATES cfg ty)%Q) s) as [H1 H2].
  - intros id n Hnz. apply drawn_type_has_rate; assumption.
  - exact Hr.
  - rewrite Forall_forall in H1, H2. split; assumption.
Qed.

Lemma widget_bounds_surgical_ward : widget_bounds surgical_ward.
Proof.
  constructor; simpl; intros; try lia; try lra. destruct p; lra.
Qed.

Lemma arrivals_have_positive_rate_witness :
  widget_bounds surgical_ward /\ variates_ok steady /\
  exists s,
    after surgical_ward steady 20 = Some s /\
    length (patients (hospital s)) = 2 /\
    (forall q, In q (put_queue (beds s)) ->
               (0 < ARRIVAL_RATES surgical_ward (p_type (req_owner q)))%Q) /\
    (forall r, In r (patients (hospital s)) ->
               (0 < ARRIVAL_RATES surgical_ward (Type_ r))%Q).
Proof.
  split; [exact widget_bounds_surgical_ward|].
  split; [exact variates_ok_steady|].
  eexists. split; [vm_compute; reflexivity|].
  split; [reflexivity|].
  apply (@arrivals_have_positive_rate surgical_ward steady).
  - exact widget_bounds_surgical_ward.
  - exact variates_ok_steady.
  - left. exists 20. vm_compute. reflexivity.
Defined.

Lemma reached_log_drawn cfg rng s r :
  reached cfg rng s -> In r (patients (hospital s)) ->
  exists k, nmcr_drawn cfg rng k (Length_of_Stay r) (NMCR_Reason r)
                       (NMCR_Delay r) (Total_LOS r).
Proof.
  intros Hr Hin. apply reached_between in Hr.
  destruct Hr as (n & s0 & Hn & E & _). rewrite E in Hin.
  destruct (@after_frames_drawn cfg rng n s0 Hn) as [_ _ Hlog].
  rewrite Forall_forall in Hlog. apply record_drawn, Hlog, Hin.
Qed.

(** X8. In every record of the log the base length of stay and the NMCR
    delay are not negative, and the total length of stay is their sum. *)
Theorem record_lengths_of_stay cfg rng s r :
  widget_bounds cfg -> variates_ok rng -> reached cfg rng s ->
  In r (patients (hospital s)) ->
  (0 <= Length_of_Stay r)%Q /\ (0 <= NMCR_Delay r)%Q /\
  (Total_LOS r == Length_of_Stay r + NMCR_Delay r)%Q.
Proof.
  intros Hwb Hv Hr Hin. split.
  - destruct (@reached_all_arrivals cfg rng (fun _ _ los => (0 <= los)%Q) s)
      as [_ H2].
    + intros id n _. apply drawn_length_of_stay_nonneg; assumption.
    + exact Hr.
    + rewrite Forall_forall in H2. apply H2, Hin.
  - destruct (@reached_log_drawn cfg rng s r Hr Hin) as [k Hk]. unfold nmcr_drawn in Hk.
    destruct (Qltb (random_sample rng k) _).
    + cbv zeta in Hk. destruct Hk as (_ & Hd & Ht).
      pose proof (exponential_nonneg Hv (S (S k))) as He.
      pose proof (wb_idelay Hwb). pose proof (wb_edelay Hwb).
      split; [|exact Ht]. rewrite Hd. apply Qmult_le_0_compat; [|exact He].
      unfold mean_delay. destruct (Qltb _ _); lra.
    + destruct Hk as (_ & -> & ->). split; [apply Qle_refl|ring].
Qed.

Lemma widget_bounds_delayed_ward : widget_bounds delayed_ward.
Proof.
  constructor; simpl; intros; try lia; try lra.
Qed.

Lemma record_lengths_of_stay_witness :
  widget_bounds delayed_ward /\ variates_ok steady /\
  exists s r,
    after delayed_ward steady 35 = Some s /\
    nth_error (patients (hospital s)) 0 = Some r /\
    (0 <= Length_of_Stay r)%Q /\ (0 <= NMCR_Delay r)%Q /\
    (Total_LOS r == Length_of_Stay r + NMCR_Delay r)%Q.
Proof.
  split; [exact widget_bounds_delayed_ward|].
  split; [exact variates_ok_steady|].
  eexists. eexists.
  split; [vm_compute; reflexivity|].
  split; [vm_compute; reflexivity|].
  eapply (@record_lengths_of_stay delayed_ward steady).
  - exact widget_bounds_delayed_ward.
  - exact variates_ok_steady.
  - left. exists 35. vm_compute. reflexivity.
  - vm_compute. left. reflexivity.
Defined.

(** X9. With [NMCR_PROPORTION = 0] no patient is delayed: every record has
    no reason, no delay, and a total length of stay equal to the base one. *)
Theorem no_delay_at_zero_proportion cfg rng s r :
  variates_ok rng -> NMCR_PROPORTION cfg = 0%Z ->
  reached cfg rng s -> In r (patients (hospital s)) ->
  NMCR_Reason r = None /\ NMCR_Delay r = 0%Q /\ Total_LOS r = Length_of_Stay r.
Proof.
  intros Hv Hz Hr Hin.
  destruct (@reached_log_drawn cfg rng s r Hr Hin) as [k Hk]. unfold nmcr_drawn in Hk.
  rewrite Hz in Hk.
  destruct (Qltb (random_sample rng k) _) eqn:E; [|exact Hk].
  apply Qltb_lt in E. pose proof (uniform_range Hv k) as [H0 _].
  exfalso. revert E. apply Qle_not_lt.
  assert (Hq : (inject_Z 0 / 100 == 0)%Q) by reflexivity.
  rewrite Hq. exact H0.
Qed.

Lemma no_delay_at_zero_proportion_witness :
  variates_ok steady /\ NMCR_PROPORTION small_ward = 0%Z /\
  exists s r,
    after small_ward steady 15 = Some s /\
    nth_error (patients (hospital s)) 0 = Some r /\
    NMCR_Reason r = None /\ NMCR_Delay r = 0%Q /\ Total_LOS r = Length_of_Stay r.
Proof.
  split; [exact variates_ok_steady|]. split; [reflexivity|].
  eexists. eexists.
  split; [vm_compute; reflexivity|].
  split; [vm_compute; reflexivity|].
  eapply (@no_delay_at_zero_proportion small_ward steady).
  - exact variates_ok_steady.
  - reflexivity.
  - left. exists 15. vm_compute. reflexivity.
  - vm_compute. left. reflexivity.
Defined.

(** X10. With [NMCR_PROPORTION = 100] every patient is delayed, and the
    reason follows the slider of the internal proportion: always
    [Internal] at 100, always [External] at 0. *)
Theorem all_delayed_at_full_proportion cfg rng s r :
  variates_ok rng -> NMCR_PROPORTION cfg = 100%Z ->
  reached cfg rng s -> In r (patients (hospital s)) ->
  (exists why, NMCR_Reason r = Some why) /\
  (NMCR_INTERNAL_PROPORTION cfg = 100%Z -> NMCR_Reason r = Some Internal) /\
  (NMCR_INTERNAL_PROPORTION cfg = 0%Z -> NMCR_Reason r = Some External).
Proof.
  intros Hv Hfull Hr Hin.
  destruct (@reached_log_drawn cfg rng s r Hr Hin) as [k Hk]. unfold nmcr_drawn in Hk.
  rewrite Hfull in Hk.
  pose proof (uniform_range Hv k) as [_ H1].
  pose proof (uniform_range Hv (S k)) as [H0' H1'].
  assert (E : Qltb (random_sample rng k) (inject_Z 100 / 100) = true).
  { apply Qltb_lt. assert (Hq : (inject_Z 100 / 100 == 1)%Q) by reflexivity.
    rewrite Hq. exact H1. }
  rewrite E in Hk. cbv zeta in Hk. destruct Hk as (Hwhy & _).
  split; [eexists; exact Hwhy|]. split; intro Hi; rewrite Hi in Hwhy.
  - assert (E' : Qltb (random_sample rng (S k)) (inject_Z 100 / 100) = true).
    { apply Qltb_lt. assert (Hq : (inject_Z 100 / 100 == 1)%Q) by reflexivity.
      rewrite Hq. exact H1'. }
    rewrite E' in Hwhy. exact Hwhy.
  - assert (E' : Qltb (random_sample rng (S k)) (inject_Z 0 / 100) = false).
    { apply Qltb_ge. assert (Hq : (inject_Z 0 / 100 == 0)%Q) by reflexivity.
      rewrite Hq. exact H0'. }
    rewrite E' in Hwhy. exact Hwhy.
Qed.

Lemma all_delayed_at_full_proportion_witness :
  variates_ok steady /\ NMCR_PROPORTION delayed_ward = 100%Z /\
  exists s r,
    after delayed_ward steady 35 = Some s /\
    nth_error (patients (hospital s)) 0 = Some r /\
    (exists why, NMCR_Reason r = Some why) /\
    (NMCR_INTERNAL_PROPORTION delayed_ward = 100%Z ->
     NMCR_Reason r = Some Internal) /\
    (NMCR_INTERNAL_PROPORTION delayed_ward = 0%Z ->
     NMCR_Reason r = Some External).
Proof.
  split; [exact variates_ok_steady|]. split; [reflexivity|].
  eexists. eexists.
  split; [vm_compute; reflexivity|].
  split; [vm_compute; reflexivity|].
  eapply (@all_delayed_at_full_proportion delayed_ward steady).
  - exact variates_ok_steady.
  - reflexivity.
  - left. exists 35. vm_compute. reflexivity.
  - vm_compute. left. reflexivity.
Defined.

(** X11. No patient is discharged twice: the identifiers of the records of
    the log are pairwise distinct. *)
Theorem log_ids_distinct cfg rng s :
  reached cfg rng s -> NoDup (map Patient_ID (patients (hospital s))).
Proof.
  intro Hr. apply reached_between in Hr.
  destruct Hr as (n & s0 & Hn & -> & _).
  destruct (@after_ids_ok cfg rng n s0 Hn) as [Hnd _ _].
  unfold live_ids in Hnd.
  apply NoDup_app_remove_l in Hnd. apply NoDup_app_remove_l in Hnd.
  exact Hnd.
Qed.

Lemma log_ids_distinct_witness :
  exists s, after small_ward steady 20 = Some s /\
            map Patient_ID (patients (hospital s)) = [0; 1] /\
            NoDup (map Patient_ID (patients (hospital s))).
Proof.
  eexists. split; [vm_compute; reflexivity|]. split; [reflexivity|].
  apply (@log_ids_distinct small_ward steady).
  left. exists 20. vm_compute. reflexivity.
Defined.

(** X12. The wait queue is kept in order of the keys [(priority, time)]:
    the request at its head, the only one a free bed can go to, has the
    smallest priority number of all waiting requests and, among those of
    that priority, the earliest time. *)
Theorem wait_queue_in_key_order cfg rng s :
  reached cfg rng s ->
  StronglySorted req_le (put_queue (beds s)) /\
  forall r rest, put_queue (beds s) = r :: rest ->
                 forall r', In r' rest -> req_le r r'.
Proof.
  intro Hr. apply reached_between in Hr.
  destruct Hr as (n & s0 & Hn & _ & -> & _).
  assert (Hs : waiting_sorted s0).
  { revert n s0 Hn. apply after_invariant.
    - constructor.
    - apply waiting_sorted_step. }
  split; [exact Hs|]. intros r rest Hq r' Hin.
  unfold waiting_sorted in Hs. rewrite Hq in Hs.
  inversion Hs as [|? ? _ Hall]; subst.
  rewrite Forall_forall in Hall. apply Hall, Hin.
Qed.

Lemma wait_queue_in_key_order_witness :
  exists s,
    run delayed_ward steady 200 (initial_state delayed_ward) = Some s /\
    length (put_queue (beds s)) = 11 /\
    StronglySorted req_le (put_queue (beds s)) /\
    forall r rest, put_queue (beds s) = r :: rest ->
                   forall r', In r' rest -> req_le r r'.
Proof.
  eexists. split; [vm_compute; reflexivity|]. split; [reflexivity|].
  apply (@wait_queue_in_key_order delayed_ward steady).
  right. exists 200. vm_compute. reflexivity.
Defined.

(** X13. An event id is never used twice: the entries of the heap have
    pairwise distinct ids, all below the counter, so that the order
    [(time, priority, eid)] of the heap never leaves two entries tied. *)
Theorem event_ids_not_reused cfg rng n s :
  after cfg rng n = Some s ->
  NoDup (map ev_eid (queue (env s))) /\
  Forall (fun e => ev_eid e < eid (env s)) (queue (env s)) /\
  forall a b, In a (queue (env s)) -> In b (queue (env s)) -> a <> b ->
              entry_ltb a b = true \/ entry_ltb b a = true.
Proof.
  intro Hn.
  assert (Hs : eids_ok s).
  { revert n s Hn. apply after_invariant.
    - apply eids_ok_initial.
    - apply eids_ok_step. }
  destruct Hs as [H1 H2]. split; [exact H1|]. split; [exact H2|].
  intros a b Ha Hb Hne. apply entry_order_strict. intro E.
  apply Hne. eapply NoDup_map_injective; eauto.
Qed.

Lemma event_ids_not_reused_witness :
  exists s,
    after small_ward steady 9 = Some s /\
    NoDup (map ev_eid (queue (env s))) /\
    Forall (fun e => ev_eid e < eid (env s)) (queue (env s)) /\
    forall a b, In a (queue (env s)) -> In b (queue (env s)) -> a <> b ->
                entry_ltb a b = true \/ entry_ltb b a = true.
Proof.
  eexists. split; [vm_compute; reflexivity|].
  apply (@event_ids_not_reused small_ward steady 9).
  vm_compute. reflexivity.
Defined.

Lemma reached_samples_bounded cfg rng s :
  widget_bounds cfg -> reached cfg rng s ->
  Forall (capacity_bound cfg) (occupancy (hospital s)).
Proof.
  intros Hwb Hr. apply reached_between in Hr.
  destruct Hr as (n & s0 & Hn & -> & _).
  assert (Hc : beds_counted cfg s0).
  { revert n s0 Hn. apply after_invariant.
    - apply beds_counted_initial, widget_capacity, Hwb.
    - apply beds_counted_step. }
  destruct Hc as [_ _ _ H4]. exact H4.
Qed.

(** X14. On the samples a run returns the statistics of lines 191-194 never
    raise: there is at least one sample; the maximum is one of the samples,
    bounds them all and lies between 0 and the capacity of the resource;
    the mean lies between 0 and the maximum; and the number of overflow
    events is zero exactly when the maximum does not exceed [NUM_BEDS]. *)
Theorem report_statistics cfg rng fuel ts occ log :
  widget_bounds cfg ->
  run_simulation cfg rng fuel = Some (ts, occ, log) ->
  exists avg mx ov,
    statistics (NUM_BEDS cfg) occ = Statistics avg mx ov /\
    In mx occ /\ Forall (fun c => c <= mx)%Z occ /\
    (0 <= mx <= NUM_BEDS cfg + NUM_BEDS cfg / EXTRA_BED_RATIO cfg)%Z /\
    (0 <= avg <= inject_Z mx)%Q /\
    (ov = 0 <-> (mx <= NUM_BEDS cfg)%Z) /\
    ov <= length occ.
Proof.
  intros Hwb Hrun. unfold run_simulation in Hrun.
  destruct (run cfg rng fuel (initial_state cfg)) as [final|] eqn:E;
    [|discriminate].
  assert (Eo : occ = occupancy (hospital final)) by congruence. clear Hrun.
  pose proof (@returned_samples_nonempty cfg rng fuel final Hwb E) as Hne.
  assert (Hb : Forall (capacity_bound cfg) (occupancy (hospital final))).
  { apply (@reached_samples_bounded cfg rng final Hwb). right. exists fuel. exact E. }
  rewrite <- Eo in Hne, Hb. clear Eo E final ts log.
  destruct occ as [|x l]; [congruence|].
  destruct (np_max_spec l x) as [Hin Hall].
  exists (np_mean (x :: l)), (np_max x l), (overflow_count (NUM_BEDS cfg) (x :: l)).
  split; [reflexivity|]. split; [exact Hin|]. split; [exact Hall|].
  assert (Hmx : (0 <= np_max x l
                 <= NUM_BEDS cfg + NUM_BEDS cfg / EXTRA_BED_RATIO cfg)%Z).
  { rewrite Forall_forall in Hb. apply (Hb _ Hin). }
  split; [exact Hmx|]. split; [|split].
  - assert (Hall' : Forall (fun c => 0 <= c <= np_max x l)%Z (x :: l)).
    { rewrite Forall_forall in *. intros c Hc.
      specialize (Hb c Hc). specialize (Hall c Hc).
      unfold capacity_bound in Hb. cbv beta in Hall. lia. }
    apply (np_mean_between Hne) in Hall'. exact Hall'.
  - rewrite overflow_count_zero. split.
    + intro H. rewrite Forall_forall in H. apply H, Hin.
    + intro H. eapply Forall_impl; [|exact Hall].
      intros c Hc. cbv beta in Hc. lia.
  - apply overflow_count_le.
Qed.

Lemma report_statistics_witness :
  widget_bounds small_ward /\
  exists ts occ log,
    run_simulation small_ward steady 40 = Some (ts, occ, log) /\
    exists avg mx ov,
      statistics (NUM_BEDS small_ward) occ = Statistics avg mx ov /\
      In mx occ /\ Forall (fun c => c <= mx)%Z occ /\
      (0 <= mx <= NUM_BEDS small_ward
                  + NUM_BEDS small_ward / EXTRA_BED_RATIO small_ward)%Z /\
      (0 <= avg <= inject_Z mx)%Q /\
      (ov = 0 <-> (mx <= NUM_BEDS small_ward)%Z) /\
      ov <= length occ.
Proof.
  split; [exact widget_bounds_small_ward|].
  eexists. eexists. eexists.
  split; [vm_compute; reflexivity|].
  eapply (@report_statistics small_ward steady 40).
  - exact widget_bounds_small_ward.
  - vm_compute. reflexivity.
Defined.

(** X15. The NMCR analysis of lines 206-221 raises exactly on an empty
    log.  Otherwise the delayed patients are at most all patients, each of
    them has the reason [Internal] or [External], so that the two counts add
    up to the number of delayed patients; the percentage lies between 0 and
    100; and the mean delay is undefined exactly when nobody was delayed. *)
Theorem nmcr_analysis_counts cfg rng s :
  reached cfg rng s ->
  match nmcr_analysis (patients (hospital s)) with
  | Analysis_raised => patients (hospital s) = []
  | Analysis total delayed percent mean internal external =>
      total = length (patients (hospital s)) /\ 0 < total /\
      delayed <= total /\ internal + external = delayed /\
      (0 <= percent <= 100)%Q /\
      (mean = None <-> delayed = 0)
  end.
Proof.
  intro Hr. destruct (patients (hospital s)) as [|r0 log] eqn:Elog;
    [reflexivity|].
  unfold nmcr_analysis. rewrite <- Elog.
  destruct (patients (hospital s)) as [|r1 log1] eqn:E1; [discriminate|].
  rewrite <- E1.
  assert (Hlen : 0 < length (patients (hospital s))).
  { rewrite E1. cbn [length]. lia. }
  assert (Hle : length (nmcr_patients (patients (hospital s)))
                <= length (patients (hospital s))).
  { unfold nmcr_patients. apply filter_length_le. }
  split; [reflexivity|]. split; [exact Hlen|]. split; [exact Hle|].
  split; [|split].
  - apply with_reason_split. apply Forall_forall. intros r Hin.
    apply nmcr_patients_incl in Hin. destruct Hin as [Hin Hd].
    destruct (@reached_log_drawn cfg rng s r Hr Hin) as [k Hk].
    unfold nmcr_drawn in Hk.
    destruct (Qltb (random_sample rng k) _).
    + cbv zeta in Hk. destruct Hk as (-> & _). discriminate.
    + destruct Hk as (_ & Ez & _). rewrite Ez in Hd.
      exfalso. revert Hd. apply Qlt_irrefl.
  - apply percent_between; assumption.
  - rewrite series_mean_none, length_map. reflexivity.
Qed.

Lemma nmcr_analysis_counts_witness :
  exists s,
    run delayed_ward steady 200 (initial_state delayed_ward) = Some s /\
    length (patients (hospital s)) = 2 /\
    match nmcr_analysis (patients (hospital s)) with
    | Analysis_raised => patients (hospital s) = []
    | Analysis total delayed percent mean internal external =>
        total = length (patients (hospital s)) /\ 0 < total /\
        delayed <= total /\ internal + external = delayed /\
        (0 <= percent <= 100)%Q /\
        (mean = None <-> delayed = 0)
    end.
Proof.
  eexists. split; [vm_compute; reflexivity|]. split; [reflexivity|].
  apply (@nmcr_analysis_counts delayed_ward steady).
  right. exists 200. vm_compute. reflexivity.
Defined.

(** X16. Once the run has returned, the report of the script raises
    exactly when the log is empty; the statistics and the data frame of the
    samples never make it raise.  In particular it raises whenever the
    total arrival rate is zero. *)
Theorem report_raises_on_empty_log cfg rng fuel rep :
  widget_bounds cfg ->
  hospital_simulation_report cfg rng fuel = Some rep ->
  exists ts occ log,
    run_simulation cfg rng fuel = Some (ts, occ, log) /\
    (rep = Report_raised <-> log = []) /\
    ((sum_rates (ARRIVAL_RATES cfg) == 0)%Q -> rep = Report_raised).
Proof.
  intros Hwb Hrep. unfold hospital_simulation_report, hospital_simulation in Hrep.
  destruct (run_simulation cfg rng fuel) as [[[ts occ] log]|] eqn:Erun;
    [|discriminate].
  exists ts, occ, log. split; [reflexivity|].
  assert (Hfinal : exists final,
             run cfg rng fuel (initial_state cfg) = Some final /\
             ts = times (hospital final) /\ occ = occupancy (hospital final) /\
             log = patients (hospital final)).
  { unfold run_simulation in Erun.
    destruct (run cfg rng fuel (initial_state cfg)) as [final|]; [|discriminate].
    exists final. inversion Erun. auto. }
  destruct Hfinal as (final & Hrun & -> & -> & ->).
  assert (Hr : reached cfg rng final) by (right; exists fuel; exact Hrun).
  destruct (reached_samples_ok Hr) as (s0 & [Ha _ _ _] & Eh & _).
  rewrite <- Eh in Ha. apply Nat.eqb_eq in Ha. rewrite Ha in Hrep.
  cbn [negb] in Hrep.
  pose proof (@returned_samples_nonempty cfg rng fuel final Hwb Hrun) as Hne.
  assert (Estat : exists avg mx ov,
             statistics (NUM_BEDS cfg) (occupancy (hospital final))
             = Statistics avg mx ov).
  { destruct (occupancy (hospital final)) as [|c l]; [congruence|].
    eexists. eexists. eexists. reflexivity. }
  destruct Estat as (avg & mx & ov & Estat). rewrite Estat in Hrep.
  assert (Hiff : rep = Report_raised <-> patients (hospital final) = []).
  { destruct (patients (hospital final)) as [|r l].
    - cbn in Hrep. split; [reflexivity|congruence].
    - cbn in Hrep. split; intro H; [congruence|discriminate]. }
  split; [exact Hiff|].
  intro Hz. apply Hiff.
  destruct (@run_reaches cfg rng fuel 0 (initial_state cfg) final eq_refl Hrun)
    as (n & s & Hn & Hstop).
  destruct (@after_quiet cfg rng n s Hz Hn) as [_ _ _ _ _ H6 _ _].
  apply stop_keeps in Hstop. destruct Hstop as (E1 & _). rewrite E1. exact H6.
Qed.

Lemma report_raises_on_empty_log_witness :
  widget_bounds idle_ward /\
  exists rep ts occ log,
    hospital_simulation_report idle_ward steady 6 = Some rep /\
    run_simulation idle_ward steady 6 = Some (ts, occ, log) /\
    (rep = Report_raised <-> log = []) /\
    ((sum_rates (ARRIVAL_RATES idle_ward) == 0)%Q -> rep = Report_raised).
Proof.
  assert (Hwb : widget_bounds idle_ward)
    by (constructor; simpl; intros; try lia; try lra).
  split; [exact Hwb|].
  destruct (@report_raises_on_empty_log idle_ward steady 6 Report_raised Hwb)
    as (ts & occ & log & H1 & H2 & H3).
  - vm_compute. reflexivity.
  - exists Report_raised, ts, occ, log.
    split; [vm_compute; reflexivity|]. split; [exact H1|]. split; assumption.
Defined.

(** X20. When the run returns, the number of samples is the number of
    days simulated (one sample of the recorder for each), plus two for each
    patient of the log (admission and discharge), plus one for each patient
    still in a bed, whose number is the last sample. *)
Theorem samples_count_at_return cfg rng fuel ts occ log :
  widget_bounds cfg ->
  run_simulation cfg rng fuel = Some (ts, occ, log) ->
  Z.of_nat (length occ)
  = (SIMULATION_TIME cfg + 2 * Z.of_nat (length log) + last occ 0)%Z.
Proof.
  intros Hwb Erun. unfold run_simulation in Erun.
  destruct (run cfg rng fuel (initial_state cfg)) as [final|] eqn:Hrun;
    [|discriminate].
  assert (E : ts = times (hospital final) /\ occ = occupancy (hospital final) /\
              log = patients (hospital final)) by (inversion Erun; auto).
  destruct E as (_ & -> & ->). clear Erun.
  destruct (@run_reaches cfg rng fuel 0 (initial_state cfg) final eq_refl Hrun)
    as (n & s & Hn & Hstop).
  pose proof (@stopped_tally cfg rng Hwb n s final Hn Hstop) as Htally.
  pose proof (@returned_samples_nonempty cfg rng fuel final Hwb Hrun) as Hne.
  assert (Hr : reached cfg rng final) by (right; exists fuel; exact Hrun).
  destruct (reached_samples_ok Hr) as (s0 & [_ _ Hlast Hbeds] & Eh & Ea).
  rewrite <- Eh in Hlast, Hbeds. rewrite <- Ea in Hbeds.
  rewrite (last_default 0%Z (occupied_beds (hospital final)) Hne).
  rewrite Hlast, Hbeds. unfold tally in Htally. lia.
Qed.

Lemma samples_count_at_return_witness :
  widget_bounds small_ward /\
  exists ts occ log,
    run_simulation small_ward steady 40 = Some (ts, occ, log) /\
    Z.of_nat (length occ)
    = (SIMULATION_TIME small_ward + 2 * Z.of_nat (length log) + last occ 0)%Z.
Proof.
  split; [exact widget_bounds_small_ward|]. eexists. eexists. eexists.
  split; [vm_compute; reflexivity|].
  eapply (@samples_count_at_return small_ward steady 40).
  - exact widget_bounds_small_ward.
  - vm_compute. reflexivity.
Defined.

(** X21. The identifiers follow the arrivals: of two patients of the log,
    the one with the smaller identifier has not arrived later. *)
Theorem ids_in_arrival_order cfg rng s r1 r2 :
  widget_bounds cfg -> variates_ok rng ->
  reached cfg rng s ->
  In r1 (patients (hospital s)) -> In r2 (patients (hospital s)) ->
  Patient_ID r1 < Patient_ID r2 ->
  (Arrival_Time r1 <= Arrival_Time r2)%Q.
Proof.
  intros Hwb Hv Hr H1 H2 Hlt.
  destruct (reached_between Hr) as (n & s0 & Hn & Eh & _).
  rewrite Eh in H1, H2.
  destruct (@after_arrivals_ordered cfg rng n s0 Hwb Hv Hn) as [_ Hord].
  assert (Hin : forall r, In r (patients (hospital s0)) ->
                          In (Patient_ID r, Arrival_Time r) (live_frames s0)).
  { intros r H. unfold live_frames, logged_frames.
    apply in_or_app. right. apply in_or_app. right.
    apply (in_map (fun r => (Patient_ID r, Arrival_Time r))), H. }
  apply (Hord (Patient_ID r1, Arrival_Time r1) (Patient_ID r2, Arrival_Time r2));
    [apply Hin, H1|apply Hin, H2|exact Hlt].
Qed.

Lemma ids_in_arrival_order_witness :
  widget_bounds delayed_ward /\ variates_ok steady /\
  exists s r1 r2,
    run delayed_ward steady 200 (initial_state delayed_ward) = Some s /\
    patients (hospital s) = [r1; r2] /\
    Patient_ID r1 < Patient_ID r2 /\
    (Arrival_Time r1 <= Arrival_Time r2)%Q.
Proof.
  split; [exact widget_bounds_delayed_ward|].
  split; [exact variates_ok_steady|].
  eexists. eexists. eexists.
  split; [vm_compute; reflexivity|]. split; [reflexivity|].
  split; [cbn; lia|].
  eapply (@ids_in_arrival_order delayed_ward steady).
  - exact widget_bounds_delayed_ward.
  - exact variates_ok_steady.
  - right. exists 200. vm_compute. reflexivity.
  - left. reflexivity.
  - right. left. reflexivity.
  - cbn. lia.
Defined.

Lemma returned_slots cfg rng fuel final :
  widget_bounds cfg -> variates_ok rng ->
  run cfg rng fuel (initial_state cfg) = Some final ->
  no_idle_slot cfg final /\
  total_weight release_weight (queue (env final)) = 0 /\
  (Z.of_nat (length (users (beds final))) <= capacity cfg)%Z.
Proof.
  intros Hwb Hv Hrun.
  destruct (@run_reaches cfg rng fuel 0 (initial_state cfg) final eq_refl Hrun)
    as (n & s & Hn & Hstop).
  pose proof (@after_no_idle_slot cfg rng n s Hn) as Hidle.
  pose proof (@stopped_no_release cfg rng Hwb Hv n s final Hn Hstop) as Hrel.
  assert (Hcount : beds_counted cfg s).
  { revert Hn. clear - Hwb. revert n s. apply after_invariant.
    - apply beds_counted_initial, widget_capacity, Hwb.
    - apply beds_counted_step. }
  destruct Hcount as [_ _ Hcap _].
  apply stop_keeps in Hstop.
  destruct Hstop as (_ & Eb & _ & _ & e & Hq & Hc & _).
  split; [|split].
  - unfold no_idle_slot, slots_taken in *. rewrite Eb.
    rewrite Hq, total_weight_cons in Hidle. unfold release_weight at 1 in Hidle.
    rewrite Hc in Hidle. exact Hidle.
  - exact Hrel.
  - rewrite Eb. exact Hcap.
Qed.

(** X22. A patient waits for a bed only when no slot of the resource is
    free: the users of the resource and the slots released but not yet
    handed over (their release event is still in the heap) are no fewer
    than its capacity, [NUM_BEDS + NUM_BEDS // EXTRA_BED_RATIO], whether
    bed boarding is enabled or not.  When the run returns with a patient
    still waiting, the resource has exactly that many users. *)
Theorem no_slot_idle_while_waiting cfg rng s :
  widget_bounds cfg -> variates_ok rng ->
  reached cfg rng s ->
  put_queue (beds s) <> [] ->
  (NUM_BEDS cfg + NUM_BEDS cfg / EXTRA_BED_RATIO cfg <= slots_taken s)%Z /\
  ((exists fuel, run cfg rng fuel (initial_state cfg) = Some s) ->
   Z.of_nat (length (users (beds s)))
   = (NUM_BEDS cfg + NUM_BEDS cfg / EXTRA_BED_RATIO cfg)%Z).
Proof.
  intros Hwb Hv Hr Hne. split.
  - destruct Hr as [[n Hn]|[fuel Hrun]].
    + exact (@after_no_idle_slot cfg rng n s Hn Hne).
    + destruct (@returned_slots cfg rng fuel s Hwb Hv Hrun) as (Hidle & _).
      exact (Hidle Hne).
  - intros [fuel Hrun].
    destruct (@returned_slots cfg rng fuel s Hwb Hv Hrun) as (Hidle & Hrel & Hcap).
    specialize (Hidle Hne). unfold slots_taken in Hidle. rewrite Hrel in Hidle.
    unfold capacity in *. lia.
Qed.

Lemma no_slot_idle_while_waiting_witness :
  widget_bounds delayed_ward /\ variates_ok steady /\
  exists s,
    run delayed_ward steady 200 (initial_state delayed_ward) = Some s /\
    put_queue (beds s) <> [] /\
    (NUM_BEDS delayed_ward + NUM_BEDS delayed_ward / EXTRA_BED_RATIO delayed_ward
     <= slots_taken s)%Z /\
    ((exists fuel, run delayed_ward steady fuel (initial_state delayed_ward) = Some s) ->
     Z.of_nat (length (users (beds s)))
     = (NUM_BEDS delayed_ward
        + NUM_BEDS delayed_ward / EXTRA_BED_RATIO delayed_ward)%Z).
Proof.
  split; [exact widget_bounds_delayed_ward|].
  split; [exact variates_ok_steady|].
  eexists. split; [vm_compute; reflexivity|].
  split; [discriminate|].
  eapply (@no_slot_idle_while_waiting delayed_ward steady).
  - exact widget_bounds_delayed_ward.
  - exact variates_ok_steady.
  - right. exists 200. vm_compute. reflexivity.
  - discriminate.
Defined.

(** X23. Nothing is processed at the horizon itself: every sample was
    taken, and every patient of the log arrived and was discharged,
    strictly before [SIMULATION_TIME]. *)
Theorem nothing_at_the_horizon cfg rng s :
  widget_bounds cfg -> variates_ok rng ->
  reached cfg rng s ->
  Forall (fun t => 0 <= t < inject_Z (SIMULATION_TIME cfg))%Q (times (hospital s)) /\
  Forall (fun r => (Arrival_Time r < inject_Z (SIMULATION_TIME cfg))%Q /\
                   (Discharge_Time r < inject_Z (SIMULATION_TIME cfg))%Q)
         (patients (hospital s)).
Proof.
  intros Hwb Hv Hr.
  destruct (reached_between Hr) as (n & s0 & Hn & Eh & _).
  rewrite Eh.
  destruct (@after_timeline_ok cfg rng n s0 Hwb Hv Hn)
    as (_ & _ & [_ Htimes _ Hlog _]).
  destruct (@after_before_horizon cfg rng Hwb Hv n s0 Hn) as [Hnow _ _ _].
  destruct (@after_arrivals_ordered cfg rng n s0 Hwb Hv Hn) as [Hpast _].
  split.
  - eapply Forall_impl; [|exact Htimes]. intros t Ht. cbv beta in Ht. lra.
  - rewrite Forall_forall in Hpast, Hlog. apply Forall_forall. intros r Hin.
    specialize (Hlog r Hin). cbv beta in Hlog.
    assert (Hf : In (Patient_ID r, Arrival_Time r) (live_frames s0)).
    { unfold live_frames, logged_frames.
      apply in_or_app. right. apply in_or_app. right.
      apply (in_map (fun r => (Patient_ID r, Arrival_Time r))), Hin. }
    specialize (Hpast _ Hf). cbn [snd] in Hpast. split; lra.
Qed.

Lemma nothing_at_the_horizon_witness :
  widget_bounds small_ward /\ variates_ok steady /\
  exists s,
    run small_ward steady 40 (initial_state small_ward) = Some s /\
    length (patients (hospital s)) = 3 /\
    Forall (fun t => 0 <= t < inject_Z (SIMULATION_TIME small_ward))%Q
           (times (hospital s)) /\
    Forall (fun r => (Arrival_Time r < inject_Z (SIMULATION_TIME small_ward))%Q /\
                     (Discharge_Time r < inject_Z (SIMULATION_TIME small_ward))%Q)
           (patients (hospital s)).
Proof.
  split; [exact widget_bounds_small_ward|].
  split; [exact variates_ok_steady|].
  eexists. split; [vm_compute; reflexivity|]. split; [reflexivity|].
  eapply (@nothing_at_the_horizon small_ward steady).
  - exact widget_bounds_small_ward.
  - exact variates_ok_steady.
  - right. exists 40. vm_compute. reflexivity.
Defined.

(* ------------------------------------------------------------------ *)
(** * What rounding decides *)

(** ** Discharge times *)





(** ** The proposals of the calculator page *)




